(** * Hybrid retrieval engine of mirror-server: a shallow embedding

    The development follows the three TypeScript files of the knowledge
    module:

    - [tokenizer.service.ts]      (TokenizerService)
    - [bm25-index.service.ts]     (BM25IndexService)
    - [retrievers/hybrid.retriever.ts] (HybridRetriever)

    together with [VectorStoreService.similaritySearch] of
    [vectorstore.service.ts], the sibling of the retriever's vector query,
    and the part of [KnowledgeService] that fuses rankings itself and hands
    out retrievers ([mergeResultsWithRRF], [extractKeywords],
    [searchWithRetriever], [createRetriever]).

    Conventions.
    - A JavaScript string is the list of its UTF-16 code units.
    - A JavaScript number is an exact rational extended with the IEEE
      special values [PosInf], [NegInf] and [NaN]; rounding is not
      modelled, and there is no negative zero.
    - [Date.now()] is an explicit argument [now] of every operation that
      reads the clock.
    - A call that may throw returns an [outcome]. *)

From Stdlib Require Import ZArith QArith Qminmax Lia Lqa String Ascii Sorted Permutation.
From stdpp Require Import base option list gmap pretty.

Local Open Scope Z_scope.

(* ===================================================================== *)
(** ** JavaScript values                                                  *)
(* ===================================================================== *)

Abbreviation jsstring := (list N).

(** Code units of an ASCII literal. *)
Definition u (s : string) : jsstring :=
  List.map N_of_ascii (list_ascii_of_string s).

Inductive jsnum : Type :=
| Num (q : Q)
| PosInf
| NegInf
| NaN.

(** [ToNumber] of a property that may be [undefined]. *)
Definition js_tonumber (o : option Q) : jsnum :=
  match o with
  | Some q => Num q
  | None => NaN
  end.

Definition js_neg (x : jsnum) : jsnum :=
  match x with
  | Num q => Num (- q)
  | PosInf => NegInf
  | NegInf => PosInf
  | NaN => NaN
  end.

Definition js_add (x y : jsnum) : jsnum :=
  match x, y with
  | NaN, _ | _, NaN => NaN
  | Num a, Num b => Num (a + b)
  | PosInf, NegInf | NegInf, PosInf => NaN
  | PosInf, _ | _, PosInf => PosInf
  | NegInf, _ | _, NegInf => NegInf
  end.

Definition js_sub (x y : jsnum) : jsnum := js_add x (js_neg y).

(** Sign of an infinity scaled by the finite factor [q]; [0 * Infinity] is [NaN]. *)
Definition js_scale_inf (positive : bool) (q : Q) : jsnum :=
  match (q ?= 0)%Q with
  | Eq => NaN
  | Gt => if positive then PosInf else NegInf
  | Lt => if positive then NegInf else PosInf
  end.

Definition js_mul (x y : jsnum) : jsnum :=
  match x, y with
  | NaN, _ | _, NaN => NaN
  | Num a, Num b => Num (a * b)
  | PosInf, Num b => js_scale_inf true b
  | NegInf, Num b => js_scale_inf false b
  | Num a, PosInf => js_scale_inf true a
  | Num a, NegInf => js_scale_inf false a
  | PosInf, PosInf | NegInf, NegInf => PosInf
  | PosInf, NegInf | NegInf, PosInf => NegInf
  end.

Definition js_div (x y : jsnum) : jsnum :=
  match x, y with
  | NaN, _ | _, NaN => NaN
  | Num a, Num b =>
      if Qeq_bool b 0
      then match (a ?= 0)%Q with Eq => NaN | Gt => PosInf | Lt => NegInf end
      else Num (a / b)
  | Num _, (PosInf | NegInf) => Num 0
  | PosInf, Num b => if Qle_bool 0 b then PosInf else NegInf
  | NegInf, Num b => if Qle_bool 0 b then NegInf else PosInf
  | (PosInf | NegInf), (PosInf | NegInf) => NaN
  end.

(** [ToBoolean] of a number: [0] and [NaN] are falsy. *)
Definition js_truthy (x : jsnum) : bool :=
  match x with
  | Num q => negb (Qeq_bool q 0)
  | NaN => false
  | PosInf | NegInf => true
  end.

(** [x || d] on numbers. *)
Definition js_or (x d : jsnum) : jsnum := if js_truthy x then x else d.

(** [x > 0]; false on [NaN]. *)
Definition js_pos (x : jsnum) : bool :=
  match x with
  | Num q => negb (Qle_bool q 0)
  | PosInf => true
  | NegInf | NaN => false
  end.

Definition js_max2 (x y : jsnum) : jsnum :=
  match x, y with
  | NaN, _ | _, NaN => NaN
  | PosInf, _ | _, PosInf => PosInf
  | NegInf, z | z, NegInf => z
  | Num a, Num b => Num (Qmax a b)
  end.

(** [Math.max(...l)]; [Math.max()] is [-Infinity]. *)
Definition Math_max (l : list jsnum) : jsnum := fold_left js_max2 l NegInf.

(** A call that returns or throws. *)
Inductive outcome (A : Type) : Type :=
| Ok (a : A)
| Throw (e : jsstring).
Arguments Ok {A} a.
Arguments Throw {A} e.

(** [l.slice(0, n)] for an integer [n]: a negative end counts from the back. *)
Definition js_slice0 {A} (l : list A) (n : Z) : list A :=
  if n <? 0 then firstn (Z.to_nat (Z.max (Z.of_nat (length l) + n) 0)) l
  else firstn (Z.to_nat n) l.

(** [Array.prototype.sort(cmp)]: stable; [a] stays before [b] unless
    [cmp(a, b) > 0] (a [NaN] comparator result counts as [0]). *)
Fixpoint js_sort_insert {A} (cmp : A -> A -> jsnum) (x : A) (l : list A) : list A :=
  match l with
  | [] => [x]
  | y :: l' => if js_pos (cmp x y) then y :: js_sort_insert cmp x l' else x :: l
  end.

Definition js_sort {A} (cmp : A -> A -> jsnum) (l : list A) : list A :=
  foldr (js_sort_insert cmp) [] l.

(** [a] may stand before [b] in a list sorted with [cmp]. *)
Definition may_precede {A} (cmp : A -> A -> jsnum) (a b : A) : Prop :=
  js_pos (cmp a b) = false.

(** A JavaScript [Map]: keys in insertion order; [set] on a present key
    replaces the value in place. *)
Fixpoint amap_get {K V} `{EqDecision K} (k : K) (m : list (K * V)) : option V :=
  match m with
  | [] => None
  | (k', v) :: m' => if decide (k = k') then Some v else amap_get k m'
  end.

Fixpoint amap_set {K V} `{EqDecision K} (k : K) (v : V) (m : list (K * V)) : list (K * V) :=
  match m with
  | [] => [(k, v)]
  | (k', v') :: m' =>
      if decide (k = k') then (k, v) :: m' else (k', v') :: amap_set k v m'
  end.

(** [l.join(sep)]. *)
Fixpoint js_join (sep : jsstring) (l : list jsstring) : jsstring :=
  match l with
  | [] => []
  | [x] => x
  | x :: l' => x ++ sep ++ js_join sep l'
  end.

(** [[...new Set(l)]]: first occurrences, in order. *)
Definition js_set_add {A} `{EqDecision A} (acc : list A) (x : A) : list A :=
  if decide (x ∈ acc) then acc else acc ++ [x].

Definition js_unique {A} `{EqDecision A} (l : list A) : list A :=
  fold_left js_set_add l [].

(* ===================================================================== *)
(** ** tokenizer.service.ts                                               *)
(* ===================================================================== *)

Module Tokenizer.

Definition CHINESE_STOP_WORDS : list jsstring :=
  [ [30340]; [20102]; [26159]; [22312]; [25105]; [26377]; [21644]; [23601]; [19981]; [20154];
    [37117]; [19968]; [19968; 20010]; [19978]; [20063]; [24456]; [21040]; [35828]; [35201];
    [21435]; [20320]; [20250]; [30528]; [27809; 26377]; [30475]; [22909]; [33258; 24049];
    [36825]; [37027]; [20160; 20040]; [24590; 20040]; [22914; 20309]; [20026; 20160; 20040];
    [21738; 20123]; [21738; 20010]; [35831]; [33021]; [21487; 20197]; [24110]; [24110; 25105];
    [21578; 35785]; [20171; 32461]; [20851; 20110]; [20197; 21450]; [25110; 32773];
    [24182; 19988]; [20043]; [19982]; [21450]; [31561]; [20854]; [20026]; [20197]; [20110];
    [32780]; [25110]; [20294]; [22914]; [33509]; [21017]; [22240]; [25925]; [25152]; [32773];
    [20063]; [30691]; [28937]; [20046]; [21705]; [20846]; [23572]; [32819]; [30691]; [28937];
    [21705] ]%N.

Definition ENGLISH_STOP_WORDS : list jsstring :=
  List.map u
  [ "the"; "a"; "an"; "is"; "are"; "was"; "were"; "be"; "been"; "being"; "have"; "has"; "had";
    "do"; "does"; "did"; "will"; "would"; "could"; "should"; "may"; "might"; "can"; "must";
    "shall"; "of"; "to"; "in"; "for"; "on"; "with"; "at"; "by"; "from"; "as"; "into";
    "through"; "during"; "before"; "after"; "above"; "below"; "between"; "under"; "again";
    "further"; "then"; "once"; "here"; "there"; "when"; "where"; "why"; "how"; "all"; "each";
    "few"; "more"; "most"; "other"; "some"; "such"; "no"; "nor"; "not"; "only"; "own"; "same";
    "so"; "than"; "too"; "very"; "just"; "and"; "but"; "if"; "or"; "because"; "as"; "until";
    "while"; "about"; "against"; "between"; "into"; "through"; "what"; "which"; "who"; "whom";
    "this"; "that"; "these"; "those"; "am"; "it"; "its"; "my"; "your"; "his"; "her"; "their";
    "our"; "i"; "me"; "you"; "he"; "she"; "they"; "we"; "us"; "him"; "them" ]%string.

Record TokenizerOptions : Type := {
  filterStopWords : option bool;
  minWordLength : option Z;
  maxWordLength : option Z
}.

(** The service object: the [jiebaLoaded] flag and the dynamically imported
    segmenter, whose [cut] may throw. *)
Record TokenizerService : Type := {
  jiebaLoaded : bool;
  jieba_cut : jsstring -> outcome (list jsstring)
}.

(** [[a-zA-Z]] *)
Definition isLatin (c : N) : bool :=
  ((65 <=? c) && (c <=? 90) || (97 <=? c) && (c <=? 122))%N.

(** [[一-龥]] *)
Definition isCJK (c : N) : bool := ((19968 <=? c) && (c <=? 40869))%N.

(** ECMAScript WhiteSpace and LineTerminator code units, as [trim] removes. *)
Definition isWhiteSpace (c : N) : bool :=
  ((9 <=? c) && (c <=? 13) || (c =? 32) || (c =? 160) || (c =? 5760)
   || (8192 <=? c) && (c <=? 8202) || (c =? 8232) || (c =? 8233)
   || (c =? 8239) || (c =? 8287) || (c =? 12288) || (c =? 65279))%N.

Fixpoint drop_leading (p : N -> bool) (s : jsstring) : jsstring :=
  match s with
  | [] => []
  | c :: s' => if p c then drop_leading p s' else s
  end.

Definition js_trim (s : jsstring) : jsstring :=
  rev (drop_leading isWhiteSpace (rev (drop_leading isWhiteSpace s))).

(** [s.toLowerCase()], on the letters A-Z.  The service lower-cases runs of
    [[a-zA-Z]] and words tested against [ENGLISH_STOP_WORDS]; no other code
    unit lower-cases to a letter of that list. *)
Definition toLowerCase (s : jsstring) : jsstring :=
  List.map (fun c => if ((65 <=? c) && (c <=? 90))%N then (c + 32)%N else c) s.

(** [scan p s]: the run of [p] that starts at the head of [s] (empty when the
    head fails [p]), and the later maximal runs. *)
Fixpoint scan (p : N -> bool) (s : jsstring) : jsstring * list jsstring :=
  match s with
  | [] => ([], [])
  | c :: s' =>
      let '(r, rs) := scan p s' in
      if p c then (c :: r, rs)
      else ([], match r with [] => rs | _ => r :: rs end)
  end.

(** [s.match(/[class]+/g) || []]: the maximal runs of the class. *)
Definition match_all (p : N -> bool) (s : jsstring) : list jsstring :=
  let '(r, rs) := scan p s in
  match r with [] => rs | _ => r :: rs end.

(** [s.slice(i, i + len)] for [0 <= i] and [0 <= len]. *)
Definition js_substr (s : jsstring) (i len : nat) : jsstring :=
  firstn len (skipn i s).

(** The n-grams of one segment, lengths [lo] to [min(4, length)]:
    [for (len = lo; len <= Math.min(4, segment.length); len++)
       for (i = 0; i <= segment.length - len; i++) push(segment.slice(i, i + len))]. *)
Definition ngrams (lo : nat) (segment : jsstring) : list jsstring :=
  let n := length segment in
  flat_map
    (fun len => List.map (fun i => js_substr segment i len) (seq 0 (n - len + 1)))
    (seq lo (Nat.min 4 n + 1 - lo)).

Definition fallbackTokenize (text : jsstring) : list jsstring :=
  let englishWords := match_all isLatin text in
  let chineseSegments := match_all isCJK text in
  List.map toLowerCase englishWords ++
  flat_map
    (fun segment =>
       ngrams 1 segment ++
       (if (length segment <=? 4)%nat && (1 <=? length segment)%nat
        then [segment] else []))
    chineseSegments.

Definition jiebaTokenize (ts : TokenizerService) (text : jsstring) : list jsstring :=
  match jieba_cut ts text with
  | Ok result => result
  | Throw _ => fallbackTokenize text
  end.

Definition isStopWord (word : jsstring) : bool :=
  let lowerWord := toLowerCase word in
  bool_decide (word ∈ CHINESE_STOP_WORDS) || bool_decide (lowerWord ∈ ENGLISH_STOP_WORDS).

Definition js_length (s : jsstring) : Z := Z.of_nat (length s).

Definition postProcess (tokens : list jsstring)
    (filterStopWords : bool) (minWordLength maxWordLength : Z) : list jsstring :=
  let processed :=
    if filterStopWords then List.filter (fun token => negb (isStopWord token)) tokens
    else tokens in
  let processed :=
    List.filter
      (fun token => (minWordLength <=? js_length token) && (js_length token <=? maxWordLength))
      processed in
  js_unique processed.

Definition tokenize (ts : TokenizerService) (text : jsstring) (options : TokenizerOptions)
    : list jsstring :=
  let filterStopWords := default true (filterStopWords options) in
  let minWordLength := default 1 (minWordLength options) in
  let maxWordLength := default 50 (maxWordLength options) in
  if match text with [] => true | _ => false end || (length (js_trim text) =? 0)%nat
  then []
  else
    let tokens :=
      if jiebaLoaded ts then jiebaTokenize ts text else fallbackTokenize text in
    postProcess tokens filterStopWords minWordLength maxWordLength.

(** The comparator [(a, b) => b[1] - a[1]] on the entries of the frequency map. *)
Definition by_frequency (a b : jsstring * Z) : jsnum :=
  Num (inject_Z (snd b - snd a)).

Definition count_token (frequency : list (jsstring * Z)) (token : jsstring)
    : list (jsstring * Z) :=
  amap_set token (default 0 (amap_get token frequency) + 1) frequency.

(** [TokenizerService.extractKeywords(text, maxKeywords = 10)]. *)
Definition extractKeywords (ts : TokenizerService) (text : jsstring)
    (maxKeywords : option Z) : list jsstring :=
  let maxKeywords := default 10 maxKeywords in
  let tokens :=
    tokenize ts text
      {| filterStopWords := Some true; minWordLength := Some 2; maxWordLength := None |} in
  let frequency := fold_left count_token tokens [] in
  List.map fst (js_slice0 (js_sort by_frequency frequency) maxKeywords).

(** A service whose segmenter failed to load ([jiebaLoaded = false]). *)
Definition fallback_service : TokenizerService :=
  {| jiebaLoaded := false; jieba_cut := fun _ => Throw (u "jieba unavailable") |}.

End Tokenizer.

(* ===================================================================== *)
(** ** bm25-index.service.ts                                              *)
(* ===================================================================== *)

Module BM25Index.

Record BM25Document : Type := {
  id : jsstring;
  content : jsstring;
  fileName : option jsstring;
  preview : option jsstring;
  metadata : option (list (jsstring * jsstring))
}.

Record BM25SearchResult : Type := {
  result_id : jsstring;
  result_score : jsnum;
  result_content : jsstring;
  result_fileName : option jsstring;
  result_preview : option jsstring;
  result_metadata : option (list (jsstring * jsstring))
}.

Record BM25IndexOptions : Type := {
  k1 : option Q;
  b : option Q;
  boost : option bool
}.

Definition DEFAULT_BM25_K1 : Q := 6 # 5.
Definition DEFAULT_BM25_B : Q := 3 # 4.

Definition TOKENIZER_CONFIG : Tokenizer.TokenizerOptions :=
  {| Tokenizer.filterStopWords := Some true;
     Tokenizer.minWordLength := Some 1;
     Tokenizer.maxWordLength := None |}.

(** [{ ...doc, tokens: tokens.join(" ") }] *)
Record IndexedDoc : Type := {
  doc : BM25Document;
  tokens : jsstring
}.

(** The elasticlunr index, an external library, at the interface the service
    declares for it ([ElasticlunrIndex]): a document store keyed by the
    reference field [id].  [addDoc] stores the document under its id,
    [removeDocByRef] drops that id, [documentStore.getDoc] looks it up.
    [removeDocByRef] of the library opens with [if (!docRef) return;]: a
    falsy reference, which for a string is the empty one, removes nothing.
    The postings and the scoring are the library's: [index.search] is the
    collaborator [index_search] below. *)
Record ElasticlunrIndex : Type := {
  documentStore : gmap jsstring IndexedDoc
}.

Definition elasticlunr : ElasticlunrIndex := {| documentStore := ∅ |}.

Definition addDoc (d : IndexedDoc) (index : ElasticlunrIndex) : ElasticlunrIndex :=
  {| documentStore := <[id (doc d) := d]> (documentStore index) |}.

Definition removeDocByRef (docRef : jsstring) (index : ElasticlunrIndex) : ElasticlunrIndex :=
  match docRef with
  | [] => index
  | _ => {| documentStore := delete docRef (documentStore index) |}
  end.

Definition getDoc (index : ElasticlunrIndex) (docRef : jsstring) : option BM25Document :=
  doc <$> documentStore index !! docRef.

Record IndexEntry : Type := {
  index : ElasticlunrIndex;
  documentCount : Z;
  lastAccessed : Z;
  bm25Config : Q * Q
}.

(** The injected collaborators of the service: the tokenizer, and the
    library's [index.search(query, config)], which yields [(ref, score)]
    pairs or throws. *)
Record Collaborators : Type := {
  tokenizerService : Tokenizer.TokenizerService;
  index_search : ElasticlunrIndex -> jsstring -> outcome (list (jsstring * jsnum))
}.

(** [indexCache : Map<string, IndexEntry>], the mutable state of the service. *)
Abbreviation IndexCache := (gmap jsstring IndexEntry).

Definition IDLE_TIMEOUT : Z := 30 * 60 * 1000.

(** The period handed to [setInterval] by [startCleanupTask]. *)
Definition CLEANUP_INTERVAL : Z := 5 * 60 * 1000.

(** [`user_${userId}`] *)
Definition getIndexKey (userId : Z) : jsstring := u "user_" ++ u (pretty userId).

Definition index_document (c : Collaborators) (document : BM25Document) : IndexedDoc :=
  {| doc := document;
     tokens := js_join (u " ")
                 (Tokenizer.tokenize (tokenizerService c) (content document) TOKENIZER_CONFIG) |}.

Definition buildIndex (c : Collaborators) (now : Z) (userId : Z)
    (documents : list BM25Document) (options : BM25IndexOptions)
    (indexCache : IndexCache) : IndexCache :=
  let indexKey := getIndexKey userId in
  let k1 := default DEFAULT_BM25_K1 (k1 options) in
  let b := default DEFAULT_BM25_B (b options) in
  let index :=
    fold_left (fun index doc => addDoc (index_document c doc) index) documents elasticlunr in
  <[indexKey :=
      {| index := index;
         documentCount := Z.of_nat (length documents);
         lastAccessed := now;
         bm25Config := (k1, b) |}]> indexCache.

Definition no_options : BM25IndexOptions := {| k1 := None; b := None; boost := None |}.

Definition addDocument (c : Collaborators) (now : Z) (userId : Z)
    (document : BM25Document) (indexCache : IndexCache) : IndexCache :=
  let indexKey := getIndexKey userId in
  match indexCache !! indexKey with
  | None => buildIndex c now userId [document] no_options indexCache
  | Some entry =>
      <[indexKey :=
          {| index := addDoc (index_document c document) (index entry);
             documentCount := documentCount entry + 1;
             lastAccessed := now;
             bm25Config := bm25Config entry |}]> indexCache
  end.

Definition removeDocument (now : Z) (userId : Z) (documentId : jsstring)
    (indexCache : IndexCache) : IndexCache :=
  let indexKey := getIndexKey userId in
  match indexCache !! indexKey with
  | None => indexCache
  | Some entry =>
      <[indexKey :=
          {| index := removeDocByRef documentId (index entry);
             documentCount := documentCount entry - 1;
             lastAccessed := now;
             bm25Config := bm25Config entry |}]> indexCache
  end.

(** [entry.lastAccessed = Date.now()] on the entry held by the cache. *)
Definition touch (now : Z) (indexKey : jsstring) (entry : IndexEntry)
    (indexCache : IndexCache) : IndexCache :=
  <[indexKey :=
      {| index := index entry;
         documentCount := documentCount entry;
         lastAccessed := now;
         bm25Config := bm25Config entry |}]> indexCache.

Definition format_result (index : ElasticlunrIndex) (result : jsstring * jsnum)
    : option BM25SearchResult :=
  match getDoc index (fst result) with
  | Some doc =>
      Some {| result_id := id doc;
              result_score := snd result;
              result_content := content doc;
              result_fileName := fileName doc;
              result_preview := preview doc;
              result_metadata := metadata doc |}
  | None => None
  end.

Definition search (c : Collaborators) (now : Z) (userId : Z) (query : jsstring)
    (limit : option Z) (indexCache : IndexCache) : list BM25SearchResult * IndexCache :=
  let limit := default 10 limit in
  let indexKey := getIndexKey userId in
  match indexCache !! indexKey with
  | None => ([], indexCache)
  | Some entry =>
      let indexCache := touch now indexKey entry indexCache in
      let queryTokens := Tokenizer.tokenize (tokenizerService c) query TOKENIZER_CONFIG in
      match queryTokens with
      | [] => ([], indexCache)
      | _ =>
          let queryString := js_join (u " ") queryTokens in
          match index_search c (index entry) queryString with
          | Ok searchResults =>
              (omap (format_result (index entry)) (js_slice0 searchResults limit), indexCache)
          | Throw _ => ([], indexCache)
          end
      end
  end.

Definition getScoresForDocuments (c : Collaborators) (now : Z) (userId : Z)
    (query : jsstring) (documentIds : list jsstring) (indexCache : IndexCache)
    : list (jsstring * jsnum) * IndexCache :=
  let indexKey := getIndexKey userId in
  match indexCache !! indexKey with
  | None => ([], indexCache)
  | Some entry =>
      let indexCache := touch now indexKey entry indexCache in
      let queryTokens := Tokenizer.tokenize (tokenizerService c) query TOKENIZER_CONFIG in
      match queryTokens with
      | [] => ([], indexCache)
      | _ =>
          let queryString := js_join (u " ") queryTokens in
          match index_search c (index entry) queryString with
          | Ok searchResults =>
              (fold_left
                 (fun scores result =>
                    if decide (fst result ∈ documentIds)
                    then amap_set (fst result) (snd result) scores
                    else scores)
                 searchResults [],
               indexCache)
          | Throw _ => ([], indexCache)
          end
      end
  end.

Definition clearIndex (userId : Z) (indexCache : IndexCache) : IndexCache :=
  delete (getIndexKey userId) indexCache.

Definition hasIndex (userId : Z) (indexCache : IndexCache) : bool * IndexCache :=
  (bool_decide (is_Some (indexCache !! getIndexKey userId)), indexCache).

Definition getDocumentCount (userId : Z) (indexCache : IndexCache) : Z * IndexCache :=
  (default 0 (documentCount <$> indexCache !! getIndexKey userId), indexCache).

Definition idle (now : Z) (entry : IndexEntry) : bool :=
  IDLE_TIMEOUT <? now - lastAccessed entry.

Definition cleanupIdleIndexes (now : Z) (indexCache : IndexCache) : IndexCache :=
  let keysToDelete :=
    List.map fst (List.filter (fun kv => idle now (snd kv)) (map_to_list indexCache)) in
  fold_left (fun cache key => delete key cache) keysToDelete indexCache.

End BM25Index.

(* ===================================================================== *)
(** ** The store behind [pg.Pool]                                         *)
(* ===================================================================== *)

(** The persistent chunk store is an external collaborator (PostgreSQL with
    pgvector).  It is modelled as far as the two statements of the retriever
    and the statement of [VectorStoreService.similaritySearch] need: rows of
    the table ["Knowledge"], the statement text as the list of its lines, the
    lexing of a string literal (quotes doubled inside it, no backslash
    escapes: standard_conforming_strings; a statement that holds the code
    unit 0 is rejected), and the LIKE pattern language (a
    backslash escapes the next character; [%] any sequence; [_] any one
    character; ILIKE compares the letters A-Z without case, the folding of
    other letters depends on the locale of the store and is left out).
    Characters of the store are the code units of the model; rows that tie in
    an ORDER BY keep the order of the table. *)
Module Store.

Record KnowledgeRow : Type := {
  row_userId : Z;
  row_id : Z;
  row_fileName : jsstring;
  row_content : jsstring;
  row_preview : jsstring;
  row_size : Z;
  row_type : jsstring;
  row_embedding : list Q
}.

(** A connection pool: [connect()] may fail; a connected client runs
    statements against the table with pgvector's cosine distance [<=>]. *)
Record Pool : Type := {
  connect : outcome unit;
  Knowledge : list KnowledgeRow;
  cosine_distance : list Q -> list Q -> Q
}.

Inductive sqlparam : Type :=
| PVector (v : list Q)
| PInt (z : Z)
| PNumber (q : Q).

(** The lines of the similarity statement; [$n] is the n-th bound value. *)
Inductive clause : Type :=
| SELECT_similarity (v : nat)
    (* SELECT id, content, 1 - (embedding <=> $v::vector) as similarity *)
| FROM_Knowledge
    (* FROM "Knowledge" *)
| WHERE_userId (p : nat)
    (* WHERE "userId" = $p *)
| AND_similarity_ge (v p : nat)
    (* AND 1 - (embedding <=> $v::vector) >= $p *)
| ORDER_BY_distance (v : nat)
    (* ORDER BY embedding <=> $v::vector *)
| LIMIT (p : nat)
    (* LIMIT $p *)
| NotSQL (text : jsstring).
    (* a line that is no clause of the statement *)

Record similarity_select : Type := {
  select_vector : nat;
  where_user : nat;
  floors : list (nat * nat);
  order_vector : nat;
  limit_param : nat
}.

Fixpoint parse_floors (cs : list clause) : list (nat * nat) * list clause :=
  match cs with
  | AND_similarity_ge v p :: cs' =>
      let '(fs, rest) := parse_floors cs' in ((v, p) :: fs, rest)
  | _ => ([], cs)
  end.

(** The shape the store accepts; anything else is a syntax error. *)
Definition parse_statement (statement : list clause) : option similarity_select :=
  match statement with
  | SELECT_similarity v :: FROM_Knowledge :: WHERE_userId p :: rest =>
      match parse_floors rest with
      | (fs, [ORDER_BY_distance v'; LIMIT l]) =>
          Some {| select_vector := v; where_user := p; floors := fs;
                  order_vector := v'; limit_param := l |}
      | _ => None
      end
  | _ => None
  end.

(** [$n] *)
Definition param (values : list sqlparam) (n : nat) : option sqlparam :=
  match n with
  | O => None
  | S n' => values !! n'
  end.

Definition vector_param (values : list sqlparam) (n : nat) : option (list Q) :=
  match param values n with Some (PVector v) => Some v | _ => None end.

Definition int_param (values : list sqlparam) (n : nat) : option Z :=
  match param values n with Some (PInt z) => Some z | _ => None end.

Definition number_param (values : list sqlparam) (n : nat) : option Q :=
  match param values n with
  | Some (PNumber q) => Some q
  | Some (PInt z) => Some (inject_Z z)
  | _ => None
  end.

Definition similarity_to (pool : Pool) (v : list Q) (row : KnowledgeRow) : Q :=
  1 - cosine_distance pool (row_embedding row) v.

(** The floors of the statement, with their bound values. *)
Definition bind_floors (values : list sqlparam) (fs : list (nat * nat))
    : option (list (list Q * Q)) :=
  mapM (fun f =>
          match vector_param values (fst f), number_param values (snd f) with
          | Some v, Some q => Some (v, q)
          | _, _ => None
          end) fs.

Definition error (text : string) : jsstring := u text.

(** Rows as the executed statement returns them: [(id, content, similarity)]. *)
Definition run_similarity (pool : Pool) (statement : list clause)
    (values : list sqlparam) : outcome (list (Z * jsstring * Q)) :=
  match parse_statement statement with
  | None => Throw (error "syntax error")
  | Some q =>
      match vector_param values (select_vector q), int_param values (where_user q),
            bind_floors values (floors q), vector_param values (order_vector q),
            int_param values (limit_param q) with
      | Some sv, Some user, Some fs, Some ov, Some limit =>
          if limit <? 0 then Throw (error "LIMIT must not be negative")
          else
            let rows :=
              List.filter
                (fun row =>
                   bool_decide (row_userId row = user) &&
                   forallb (fun f => Qle_bool (snd f) (similarity_to pool (fst f) row)) fs)
                (Knowledge pool) in
            let ordered :=
              js_sort
                (fun a b =>
                   Num (cosine_distance pool (row_embedding a) ov
                        - cosine_distance pool (row_embedding b) ov))
                rows in
            Ok (List.map
                  (fun row => (row_id row, row_content row, similarity_to pool sv row))
                  (firstn (Z.to_nat limit) ordered))
      | _, _, _, _, _ => Throw (error "bind error")
      end
  end.

(** *** String literals and LIKE patterns *)

Definition NUL : N := 0.
Definition QUOTE : N := 39.
Definition PERCENT : N := 37.
Definition UNDERSCORE : N := 95.
Definition BACKSLASH : N := 92.

(** The body of a quoted literal, after the opening quote: its value (a
    doubled quote stands for one quote) and the text after the closing quote.
    The store takes no text with the code unit 0. *)
Fixpoint lex_body (s : jsstring) : option (jsstring * jsstring) :=
  match s with
  | [] => None
  | c :: s' =>
      if (c =? NUL)%N then None
      else if (c =? QUOTE)%N then
        match s' with
        | d :: s'' =>
            if (d =? QUOTE)%N
            then match lex_body s'' with
                 | Some (v, rest) => Some (QUOTE :: v, rest)
                 | None => None
                 end
            else Some ([], s')
        | [] => Some ([], [])
        end
      else match lex_body s' with
           | Some (v, rest) => Some (c :: v, rest)
           | None => None
           end
  end.

Definition lex_literal (s : jsstring) : option (jsstring * jsstring) :=
  match s with
  | c :: s' => if (c =? QUOTE)%N then lex_body s' else None
  | [] => None
  end.

Inductive like_item : Type :=
| AnySequence
| AnyOne
| Literal (c : N).

(** A pattern must not end with the escape character. *)
Fixpoint like_parse (escaped : bool) (p : jsstring) : option (list like_item) :=
  match p with
  | [] => if escaped then None else Some []
  | c :: p' =>
      if escaped then cons (Literal c) <$> like_parse false p'
      else if (c =? BACKSLASH)%N then like_parse true p'
      else if (c =? PERCENT)%N then cons AnySequence <$> like_parse false p'
      else if (c =? UNDERSCORE)%N then cons AnyOne <$> like_parse false p'
      else cons (Literal c) <$> like_parse false p'
  end.

Definition fold_case (c : N) : N :=
  if ((65 <=? c) && (c <=? 90))%N then (c + 32)%N else c.

Fixpoint ilike_match (items : list like_item) (s : jsstring) : bool :=
  match items with
  | [] => match s with [] => true | _ => false end
  | AnySequence :: items' =>
      (fix from (s : jsstring) : bool :=
         ilike_match items' s ||
         match s with [] => false | _ :: s' => from s' end) s
  | AnyOne :: items' =>
      match s with [] => false | _ :: s' => ilike_match items' s' end
  | Literal c :: items' =>
      match s with
      | [] => false
      | d :: s' => (fold_case c =? fold_case d)%N && ilike_match items' s'
      end
  end.

(** [content ILIKE operand], with [operand] the text spliced into the
    statement: it has to lex as one literal, with nothing after it. *)
Definition ILIKE (content operand : jsstring) : outcome bool :=
  match lex_literal operand with
  | Some (pattern, []) =>
      match like_parse false pattern with
      | Some items => Ok (ilike_match items content)
      | None => Throw (error "LIKE pattern must not end with escape character")
      end
  | _ => Throw (error "syntax error")
  end.

(** The keyword statement of the retriever, with the spliced operands kept
    as text:
    [SELECT id, "fileName", content, preview, size, type,
            (CASE WHEN content ILIKE o1 THEN 1 ELSE 0 END + ...) as "matchCount"
     FROM "Knowledge" WHERE "userId" = $1 AND (content ILIKE o1 OR ...)
     ORDER BY "matchCount" DESC, id ASC LIMIT $2]. *)
Record keyword_select : Type := {
  count_operands : list jsstring;
  where_operands : list jsstring
}.

(** The operands as compiled patterns, or the error of the first bad one. *)
Fixpoint compile_operands (operands : list jsstring) : outcome (list (list like_item)) :=
  match operands with
  | [] => Ok []
  | o :: os =>
      match lex_literal o with
      | Some (pattern, []) =>
          match like_parse false pattern with
          | Some items =>
              match compile_operands os with
              | Ok rest => Ok (items :: rest)
              | Throw e => Throw e
              end
          | None => Throw (error "LIKE pattern must not end with escape character")
          end
      | _ => Throw (error "syntax error")
      end
  end.

Definition match_count (patterns : list (list like_item)) (content : jsstring) : Z :=
  Z.of_nat (length (List.filter (fun items => ilike_match items content) patterns)).

(** [ORDER BY "matchCount" DESC, id ASC] *)
Definition by_matchCount_id (a b : KnowledgeRow * Z) : jsnum :=
  if (snd a =? snd b)%Z
  then Num (inject_Z (row_id (fst a) - row_id (fst b)))
  else Num (inject_Z (snd b - snd a)).

Definition run_keyword (pool : Pool) (statement : keyword_select)
    (values : list sqlparam) : outcome (list (KnowledgeRow * Z)) :=
  match compile_operands (count_operands statement),
        compile_operands (where_operands statement) with
  | Ok counted, Ok wanted =>
      match int_param values 1, int_param values 2 with
      | Some user, Some limit =>
          if limit <? 0 then Throw (error "LIMIT must not be negative")
          else
            let rows :=
              List.filter
                (fun row =>
                   bool_decide (row_userId row = user) &&
                   existsb (fun items => ilike_match items (row_content row)) wanted)
                (Knowledge pool) in
            let scored :=
              List.map (fun row => (row, match_count counted (row_content row))) rows in
            Ok (firstn (Z.to_nat limit) (js_sort by_matchCount_id scored))
      | _, _ => Throw (error "bind error")
      end
  | Throw e, _ | _, Throw e => Throw e
  end.

End Store.

(* ===================================================================== *)
(** ** vectorstore.service.ts: similaritySearch                           *)
(* ===================================================================== *)

Module VectorStore.

(** The statement of [similaritySearch]:
    [WHERE "userId" = $2 AND 1 - (embedding <=> $1::vector) >= $3]. *)
Definition statement : list Store.clause :=
  [ Store.SELECT_similarity 1; Store.FROM_Knowledge; Store.WHERE_userId 2;
    Store.AND_similarity_ge 1 3; Store.ORDER_BY_distance 1; Store.LIMIT 4 ].

(** [similaritySearch(query, userId, k = 5, minSimilarity = 0.3)]; the
    method has no handler of its own, so a failure is thrown on. *)
Definition similaritySearch (pool : Store.Pool)
    (embedQuery : jsstring -> outcome (list Q))
    (query : jsstring) (userId : Z) (k : option Z) (minSimilarity : option Q)
    : outcome (list (Z * jsstring * Q)) :=
  let k := default 5 k in
  let minSimilarity := default (3 # 10)%Q minSimilarity in
  match embedQuery query with
  | Throw e => Throw e
  | Ok queryEmbedding =>
      match Store.connect pool with
      | Throw e => Throw e
      | Ok _ =>
          Store.run_similarity pool statement
            [ Store.PVector queryEmbedding; Store.PInt userId;
              Store.PNumber minSimilarity; Store.PInt k ]
      end
  end.

End VectorStore.

(* ===================================================================== *)
(** ** retrievers/hybrid.retriever.ts                                     *)
(* ===================================================================== *)

Module Retriever.

(** The part of [BM25IndexService] the retriever calls, over a service
    state [S]; either call may throw. *)
Record BM25Service (S : Type) : Type := {
  hasIndex : Z -> S -> outcome bool * S;
  getScoresForDocuments :
    Z -> jsstring -> list jsstring -> S -> outcome (list (jsstring * jsnum)) * S
}.
Arguments hasIndex {S} _ _ _.
Arguments getScoresForDocuments {S} _ _ _ _ _.

Record HybridRetrieverOptions (S : Type) : Type := {
  opt_limit : option Z;
  opt_minSimilarity : option Q;
  opt_rrfK : option Q;
  opt_vectorWeight : option Q;
  opt_keywordWeight : option Q;
  opt_useBM25Rerank : option bool;
  opt_bm25Weight : option Q;
  opt_bm25IndexService : option (BM25Service S);
  opt_tokenizerService : option Tokenizer.TokenizerService
}.
Arguments opt_limit {S} _.
Arguments opt_minSimilarity {S} _.
Arguments opt_rrfK {S} _.
Arguments opt_vectorWeight {S} _.
Arguments opt_keywordWeight {S} _.
Arguments opt_useBM25Rerank {S} _.
Arguments opt_bm25Weight {S} _.
Arguments opt_bm25IndexService {S} _.
Arguments opt_tokenizerService {S} _.

Record SearchResult : Type := {
  id : Z;
  fileName : jsstring;
  content : jsstring;
  preview : jsstring;
  size : Z;
  type : jsstring;
  similarity : Q;
  keywordScore : Z;
  hybridScore : jsnum
}.

Record VectorSearchResult : Type := {
  v_id : Z;
  v_content : jsstring;
  v_similarity : Q
}.

Record KeywordSearchResult : Type := {
  kw_id : Z;
  kw_fileName : jsstring;
  kw_content : jsstring;
  kw_preview : jsstring;
  kw_size : Z;
  kw_type : jsstring;
  kw_matchCount : Z
}.

(** The retriever object.  [rrfK] is the property [this.rrfK] that
    [mergeResultsWithRRF] reads: it holds a number, or is [undefined]
    ([None]). *)
Record HybridRetriever (S : Type) : Type := {
  pool : Store.Pool;
  embeddings : jsstring -> outcome (list Q);
  userId : Z;
  limit : Z;
  minSimilarity : Q;
  rrfK : option Q;
  vectorWeight : Q;
  keywordWeight : Q;
  useBM25Rerank : bool;
  bm25Weight : Q;
  bm25IndexService : option (BM25Service S);
  tokenizerService : option Tokenizer.TokenizerService
}.
Arguments pool {S} _.
Arguments embeddings {S} _.
Arguments userId {S} _.
Arguments limit {S} _.
Arguments minSimilarity {S} _.
Arguments rrfK {S} _.
Arguments vectorWeight {S} _.
Arguments keywordWeight {S} _.
Arguments useBM25Rerank {S} _.
Arguments bm25Weight {S} _.
Arguments bm25IndexService {S} _.
Arguments tokenizerService {S} _.

(** The constructor.  It assigns [limit], [minSimilarity], [vectorWeight],
    [keywordWeight], [useBM25Rerank], [bm25Weight], [bm25IndexService] and
    [tokenizerService]; it has no assignment to [rrfK], and the class
    declares no such field, so [this.rrfK] stays [undefined] whatever
    [options.rrfK] is. *)
Definition new_HybridRetriever {S} (pool : Store.Pool)
    (embeddings : jsstring -> outcome (list Q)) (userId : Z)
    (options : HybridRetrieverOptions S) : HybridRetriever S :=
  {| pool := pool;
     embeddings := embeddings;
     userId := userId;
     limit := default 5 (opt_limit options);
     minSimilarity := default (3 # 10)%Q (opt_minSimilarity options);
     rrfK := None;
     vectorWeight := default (7 # 10)%Q (opt_vectorWeight options);
     keywordWeight := default (3 # 10)%Q (opt_keywordWeight options);
     useBM25Rerank := default false (opt_useBM25Rerank options);
     bm25Weight := default (3 # 10)%Q (opt_bm25Weight options);
     bm25IndexService := opt_bm25IndexService options;
     tokenizerService := opt_tokenizerService options |}.

(** [options = {}] *)
Definition no_options {S} : HybridRetrieverOptions S :=
  {| opt_limit := None; opt_minSimilarity := None; opt_rrfK := None;
     opt_vectorWeight := None; opt_keywordWeight := None;
     opt_useBM25Rerank := None; opt_bm25Weight := None;
     opt_bm25IndexService := None; opt_tokenizerService := None |}.

(** *** vectorSearch *)

(** The statement of [vectorSearch], line by line.  Its fourth line reads
    [const keywords = this.extractKeywords(query);]. *)
Definition vector_statement : list Store.clause :=
  [ Store.SELECT_similarity 1; Store.FROM_Knowledge; Store.WHERE_userId 2;
    Store.NotSQL (u "const keywords = this.extractKeywords(query);");
    Store.ORDER_BY_distance 1; Store.LIMIT 4 ].

Definition vectorSearch {S} (r : HybridRetriever S) (query : jsstring)
    : list VectorSearchResult :=
  match embeddings r query with
  | Throw _ => []
  | Ok queryEmbedding =>
      match Store.connect (pool r) with
      | Throw _ => []
      | Ok _ =>
          match Store.run_similarity (pool r) vector_statement
                  [ Store.PVector queryEmbedding; Store.PInt (userId r);
                    Store.PNumber (minSimilarity r); Store.PInt (limit r * 2) ] with
          | Throw _ => []
          | Ok rows =>
              List.map
                (fun row =>
                   {| v_id := fst (fst row);
                      v_content := snd (fst row);
                      v_similarity := snd row |})
                rows
          end
      end
  end.

(** *** keywordSearch *)

(** The stop words of the retriever's own [extractKeywords]. *)
Definition stopWords : list jsstring :=
  [ [30340]; [20102]; [26159]; [22312]; [25105]; [26377]; [21644]; [23601]; [19981]; [20154];
    [37117]; [19968]; [19968; 20010]; [19978]; [20063]; [24456]; [21040]; [35828]; [35201];
    [21435]; [20320]; [20250]; [30528]; [27809; 26377]; [30475]; [22909]; [33258; 24049];
    [36825]; [37027]; [20160; 20040]; [24590; 20040]; [22914; 20309]; [20026; 20160; 20040];
    [21738; 20123]; [21738; 20010]; [35831]; [33021]; [21487; 20197]; [24110]; [24110; 25105];
    [21578; 35785]; [20171; 32461]; [20851; 20110]; [20197; 21450]; [25110; 32773];
    [24182; 19988] ]%N ++
  List.map u
  [ "the"; "a"; "an"; "is"; "are"; "was"; "were"; "be"; "been"; "being"; "have"; "has"; "had";
    "do"; "does"; "did"; "will"; "would"; "could"; "should"; "may"; "might"; "can"; "must";
    "shall"; "of"; "to"; "in"; "for"; "on"; "with"; "at"; "by"; "from"; "as"; "into";
    "through"; "during"; "before"; "after"; "above"; "below"; "between"; "under"; "again";
    "further"; "then"; "once"; "here"; "there"; "when"; "where"; "why"; "how"; "all"; "each";
    "few"; "more"; "most"; "other"; "some"; "such"; "no"; "nor"; "not"; "only"; "own"; "same";
    "so"; "than"; "too"; "very"; "just"; "and"; "but"; "if"; "or"; "because"; "as"; "until";
    "while"; "about"; "against"; "between"; "into"; "through"; "what"; "which"; "who"; "whom";
    "this"; "that"; "these"; "those"; "am"; "it"; "its"; "my"; "your"; "his"; "her"; "our";
    "i"; "me"; "they"; "we"; "us"; "him"; "them" ]%string.

Definition extractKeywords {S} (r : HybridRetriever S) (query : jsstring) : list jsstring :=
  match tokenizerService r with
  | Some ts => Tokenizer.extractKeywords ts query (Some 10)
  | None =>
      let stop word := bool_decide (word ∈ stopWords) in
      let englishWords := Tokenizer.match_all Tokenizer.isLatin query in
      let chineseChars := Tokenizer.match_all Tokenizer.isCJK query in
      let words :=
        List.filter
          (fun lowerWord => (2 <=? length lowerWord)%nat && negb (stop lowerWord))
          (List.map Tokenizer.toLowerCase englishWords) ++
        flat_map
          (fun segment =>
             List.filter (fun word => negb (stop word)) (Tokenizer.ngrams 2 segment) ++
             (if (2 <=? length segment)%nat && negb (stop segment) then [segment] else []))
          chineseChars in
      js_slice0 (js_unique words) 10
  end.

(** [str.replace(/c/g, by)] for a single code unit [c]. *)
Definition replace_all (c : N) (by_ : jsstring) (str : jsstring) : jsstring :=
  flat_map (fun d => if (d =? c)%N then by_ else [d]) str.

Definition escapeSQL (str : jsstring) : jsstring :=
  replace_all Store.UNDERSCORE [Store.BACKSLASH; Store.UNDERSCORE]
    (replace_all Store.PERCENT [Store.BACKSLASH; Store.PERCENT]
       (replace_all Store.QUOTE [Store.QUOTE; Store.QUOTE] str)).

(** The operand ['%${this.escapeSQL(kw)}%'] of [content ILIKE]. *)
Definition ilike_operand (kw : jsstring) : jsstring :=
  [Store.QUOTE; Store.PERCENT] ++ escapeSQL kw ++ [Store.PERCENT; Store.QUOTE].

Definition keyword_statement (keywords : list jsstring) : Store.keyword_select :=
  {| Store.count_operands := List.map ilike_operand keywords;
     Store.where_operands := List.map ilike_operand keywords |}.

Definition keywordSearch {S} (r : HybridRetriever S) (query : jsstring)
    : list KeywordSearchResult :=
  let keywords := extractKeywords r query in
  match keywords with
  | [] => []
  | _ =>
      match Store.connect (pool r) with
      | Throw _ => []
      | Ok _ =>
          match Store.run_keyword (pool r) (keyword_statement keywords)
                  [ Store.PInt (userId r); Store.PInt (limit r * 2) ] with
          | Throw _ => []
          | Ok rows =>
              List.map
                (fun row =>
                   {| kw_id := Store.row_id (fst row);
                      kw_fileName := Store.row_fileName (fst row);
                      kw_content := Store.row_content (fst row);
                      kw_preview := Store.row_preview (fst row);
                      kw_size := Store.row_size (fst row);
                      kw_type := Store.row_type (fst row);
                      kw_matchCount := snd row |})
                rows
          end
      end
  end.

(** *** mergeResultsWithRRF *)

Record ScoreEntry : Type := {
  result : SearchResult;
  vectorRank : option Z;
  keywordRank : option Z;
  vectorScore : jsnum;
  entry_keywordScore : jsnum
}.

(** [l.forEach((x, index) => ...)] visits the pairs [(index, x)]. *)
Definition indexed {A} (l : list A) : list (nat * A) :=
  combine (seq 0 (length l)) l.

(** [1 / (this.rrfK + index + 1)] *)
Definition rrfScore {S} (r : HybridRetriever S) (index : nat) : jsnum :=
  js_div (Num 1)
    (js_add (js_add (js_tonumber (rrfK r)) (Num (inject_Z (Z.of_nat index)))) (Num 1)).

Definition add_vector {S} (r : HybridRetriever S) (scoreMap : list (Z * ScoreEntry))
    (ix : nat * VectorSearchResult) : list (Z * ScoreEntry) :=
  let '(index, result) := ix in
  amap_set (v_id result)
    {| result :=
         {| id := v_id result; fileName := []; content := v_content result;
            preview := []; size := 0; type := [];
            similarity := v_similarity result; keywordScore := 0;
            hybridScore := Num 0 |};
       vectorRank := Some (Z.of_nat index + 1);
       keywordRank := None;
       vectorScore := js_mul (rrfScore r index) (Num (vectorWeight r));
       entry_keywordScore := Num 0 |}
    scoreMap.

Definition add_keyword {S} (r : HybridRetriever S) (scoreMap : list (Z * ScoreEntry))
    (ix : nat * KeywordSearchResult) : list (Z * ScoreEntry) :=
  let '(index, kw) := ix in
  match amap_get (kw_id kw) scoreMap with
  | Some existing =>
      amap_set (kw_id kw)
        {| result :=
             {| id := id (result existing);
                fileName := kw_fileName kw;
                content := content (result existing);
                preview := kw_preview kw;
                size := kw_size kw;
                type := kw_type kw;
                similarity := similarity (result existing);
                keywordScore := kw_matchCount kw;
                hybridScore := hybridScore (result existing) |};
           vectorRank := vectorRank existing;
           keywordRank := Some (Z.of_nat index + 1);
           vectorScore := vectorScore existing;
           entry_keywordScore := js_mul (rrfScore r index) (Num (keywordWeight r)) |}
        scoreMap
  | None =>
      amap_set (kw_id kw)
        {| result :=
             {| id := kw_id kw; fileName := kw_fileName kw; content := kw_content kw;
                preview := kw_preview kw; size := kw_size kw; type := kw_type kw;
                similarity := 0; keywordScore := kw_matchCount kw;
                hybridScore := Num 0 |};
           vectorRank := None;
           keywordRank := Some (Z.of_nat index + 1);
           vectorScore := Num 0;
           entry_keywordScore := js_mul (rrfScore r index) (Num (keywordWeight r)) |}
        scoreMap
  end.

Definition scoreMap_of {S} (r : HybridRetriever S)
    (vectorResults : list VectorSearchResult)
    (keywordResults : list KeywordSearchResult) : list (Z * ScoreEntry) :=
  fold_left (add_keyword r) (indexed keywordResults)
    (fold_left (add_vector r) (indexed vectorResults) []).

(** [{ ...result, hybridScore: vectorScore + keywordScore }] *)
Definition with_hybridScore (s : SearchResult) (score : jsnum) : SearchResult :=
  {| id := id s; fileName := fileName s; content := content s; preview := preview s;
     size := size s; type := type s; similarity := similarity s;
     keywordScore := keywordScore s; hybridScore := score |}.

Definition fused (e : ScoreEntry) : SearchResult :=
  with_hybridScore (result e) (js_add (vectorScore e) (entry_keywordScore e)).

(** The sort key [x.hybridScore || 0]. *)
Definition sort_key (x : SearchResult) : jsnum := js_or (hybridScore x) (Num 0).

(** [(a, b) => (b.hybridScore || 0) - (a.hybridScore || 0)] *)
Definition by_hybridScore (a b : SearchResult) : jsnum :=
  js_sub (sort_key b) (sort_key a).

Definition mergeResultsWithRRF {S} (r : HybridRetriever S)
    (vectorResults : list VectorSearchResult)
    (keywordResults : list KeywordSearchResult) : list SearchResult :=
  js_slice0
    (js_sort by_hybridScore
       (List.map (fun kv => fused (snd kv)) (scoreMap_of r vectorResults keywordResults)))
    (limit r).

(** *** rerankWithBM25 *)

Definition EPSILON : Q := 1 # 1000.

(** [String(id)] *)
Definition String_of_id (z : Z) : jsstring := u (pretty z).

Definition finalScore {S} (r : HybridRetriever S) (maxRRFScore maxBM25Score : jsnum)
    (bm25Scores : list (jsstring * jsnum)) (x : SearchResult) : jsnum :=
  let bm25Score := default (Num 0) (amap_get (String_of_id (id x)) bm25Scores) in
  let normalizedBM25Score := js_div bm25Score maxBM25Score in
  let normalizedRRFScore := js_div (sort_key x) maxRRFScore in
  let rrfWeight := js_sub (Num 1) (Num (bm25Weight r)) in
  js_add (js_mul normalizedRRFScore rrfWeight)
         (js_mul normalizedBM25Score (Num (bm25Weight r))).

(** The scoring and the sort that follow the two service calls. *)
Definition rescore {S} (r : HybridRetriever S) (results : list SearchResult)
    (bm25Scores : list (jsstring * jsnum)) : list SearchResult :=
  let maxRRFScore := Math_max (List.map sort_key results ++ [Num EPSILON]) in
  let maxBM25Score := Math_max (List.map snd bm25Scores ++ [Num EPSILON]) in
  let rerankedResults :=
    List.map
      (fun x => with_hybridScore x (finalScore r maxRRFScore maxBM25Score bm25Scores x))
      results in
  js_sort by_hybridScore rerankedResults.

(** The [try] block of [rerankWithBM25]. *)
Definition rerank_try {S} (r : HybridRetriever S) (query : jsstring)
    (results : list SearchResult) (s : S) : outcome (list SearchResult) * S :=
  match bm25IndexService r with
  | None => (Ok results, s)
  | Some service =>
      match hasIndex service (userId r) s with
      | (Throw e, s) => (Throw e, s)
      | (Ok false, s) => (Ok results, s)
      | (Ok true, s) =>
          let resultIds := List.map (fun x => String_of_id (id x)) results in
          match getScoresForDocuments service (userId r) query resultIds s with
          | (Throw e, s) => (Throw e, s)
          | (Ok bm25Scores, s) => (Ok (rescore r results bm25Scores), s)
          end
      end
  end.

Definition rerankWithBM25 {S} (r : HybridRetriever S) (query : jsstring)
    (results : list SearchResult) (s : S) : list SearchResult * S :=
  match results with
  | [] => (results, s)
  | _ =>
      match rerank_try r query results s with
      | (Ok reranked, s) => (reranked, s)
      | (Throw _, s) => (results, s)
      end
  end.

(** *** getSearchResults and _getRelevantDocuments *)

Definition getSearchResults {S} (r : HybridRetriever S) (query : jsstring) (s : S)
    : list SearchResult * S :=
  let vectorResults := vectorSearch r query in
  let keywordResults := keywordSearch r query in
  let mergedResults := mergeResultsWithRRF r vectorResults keywordResults in
  if useBM25Rerank r && bool_decide (is_Some (bm25IndexService r))
  then rerankWithBM25 r query mergedResults s
  else (mergedResults, s).

Record Document : Type := {
  pageContent : jsstring;
  meta_id : Z;
  meta_fileName : jsstring;
  meta_similarity : Q;
  meta_keywordScore : Z;
  meta_hybridScore : jsnum
}.

Definition convertToDocuments (results : list SearchResult) : list Document :=
  List.map
    (fun x =>
       {| pageContent := content x; meta_id := id x; meta_fileName := fileName x;
          meta_similarity := similarity x; meta_keywordScore := keywordScore x;
          meta_hybridScore := hybridScore x |})
    results.

(** The body sits in a [try] whose handler logs and throws on; no call in it
    throws, so the method returns. *)
Definition _getRelevantDocuments {S} (r : HybridRetriever S) (query : jsstring) (s : S)
    : outcome (list Document) * S :=
  let '(mergedResults, s) := getSearchResults r query s in
  (Ok (convertToDocuments mergedResults), s).

(** The service of [bm25-index.service.ts] behind the retriever's interface,
    at clock reading [now]. *)
Definition bm25_service (c : BM25Index.Collaborators) (now : Z)
    : BM25Service (gmap jsstring BM25Index.IndexEntry) :=
  {| hasIndex := fun userId cache =>
       let '(b, cache) := BM25Index.hasIndex userId cache in (Ok b, cache);
     getScoresForDocuments := fun userId query ids cache =>
       let '(scores, cache) :=
         BM25Index.getScoresForDocuments c now userId query ids cache in
       (Ok scores, cache) |}.

End Retriever.

(* ===================================================================== *)
(** ** Reference notions the claims are stated with                       *)
(* ===================================================================== *)

(** [kw] occurs in [s] at the head, letters compared without case. *)
Fixpoint prefix_ci (kw s : jsstring) : bool :=
  match kw, s with
  | [], _ => true
  | _ :: _, [] => false
  | c :: kw', d :: s' => (Store.fold_case c =? Store.fold_case d)%N && prefix_ci kw' s'
  end.

(** Substring containment: [kw] occurs somewhere in [s]. *)
Fixpoint contains_ci (s kw : jsstring) : bool :=
  prefix_ci kw s ||
  match s with
  | [] => false
  | _ :: s' => contains_ci s' kw
  end.

(** What [escapeSQL] makes of one code unit. *)
Definition escape_unit (c : N) : jsstring :=
  if (c =? Store.QUOTE)%N then [Store.QUOTE; Store.QUOTE]
  else if (c =? Store.PERCENT)%N then [Store.BACKSLASH; Store.PERCENT]
  else if (c =? Store.UNDERSCORE)%N then [Store.BACKSLASH; Store.UNDERSCORE]
  else [c].

(** The same once the literal is lexed: doubled quotes are single again. *)
Definition pattern_unit (c : N) : jsstring :=
  if (c =? Store.PERCENT)%N then [Store.BACKSLASH; Store.PERCENT]
  else if (c =? Store.UNDERSCORE)%N then [Store.BACKSLASH; Store.UNDERSCORE]
  else [c].

(** Number of occurrences of [term] among the raw tokens of a text. *)
Definition occurrences (term : jsstring) (tokens : list jsstring) : nat :=
  length (List.filter (fun t => bool_decide (t = term)) tokens).

(** Keywords ranked by descending frequency in the text: no keyword stands
    before one that occurs more often among the raw tokens. *)
Definition ranked_by_frequency (raw keywords : list jsstring) : Prop :=
  StronglySorted (fun a b => (occurrences b raw <= occurrences a raw)%nat) keywords.

(** The 1-based rank of [i] in a ranked list of ids. *)
Fixpoint rank_in (i : Z) (ids : list Z) : option nat :=
  match ids with
  | [] => None
  | j :: ids' => if decide (i = j) then Some 1%nat else S <$> rank_in i ids'
  end.

(** [weight / (k + rank)], and 0 for an item the list does not rank. *)
Definition contribution (weight k : Q) (rank : option nat) : Q :=
  match rank with
  | Some n => (weight / (k + inject_Z (Z.of_nat n)))%Q
  | None => 0%Q
  end.

(** The index under which a pass over [(index, item)] pairs last sees the
    key [i]. *)
Fixpoint last_index {A} (key : A -> Z) (i : Z) (l : list (nat * A)) : option nat :=
  match l with
  | [] => None
  | (j, x) :: l' =>
      match last_index key i l' with
      | Some j' => Some j'
      | None => if decide (i = key x) then Some j else None
      end
  end.

(** The two partial scores of an id in a score map; 0 without an entry. *)
Definition vector_part (o : option Retriever.ScoreEntry) : jsnum :=
  match o with Some e => Retriever.vectorScore e | None => Num 0 end.

Definition keyword_part (o : option Retriever.ScoreEntry) : jsnum :=
  match o with Some e => Retriever.entry_keywordScore e | None => Num 0 end.

(** The lines of a statement that are SQL. *)
Definition is_sql (c : Store.clause) : bool :=
  match c with
  | Store.NotSQL _ => false
  | _ => true
  end.

(** The order of the sort keys: [key_le x y] is [x <= y]; keys are never [NaN]. *)
Definition key_le (x y : jsnum) : bool :=
  match x, y with
  | NaN, _ | _, NaN => false
  | NegInf, _ => true
  | _, PosInf => true
  | Num a, Num b => Qle_bool a b
  | _, _ => false
  end.

(** Two results the comparator of the fusion sort does not separate. *)
Definition tied (a b : Retriever.SearchResult) : bool :=
  key_le (Retriever.sort_key a) (Retriever.sort_key b) &&
  key_le (Retriever.sort_key b) (Retriever.sort_key a).

(** The order the specification asks of the fused list: [a] stands before
    [b] when its score is larger, or the scores tie and its id is smaller. *)
Definition score_then_id (a b : Retriever.SearchResult) : Prop :=
  key_le (Retriever.sort_key a) (Retriever.sort_key b) = false \/
  (tied a b = true /\ Retriever.id a < Retriever.id b).

Definition ordered_by_score_then_id (l : list Retriever.SearchResult) : Prop :=
  StronglySorted score_then_id l.

(** Every document of every index is stored under its own id, as [addDoc]
    stores it. *)
Definition stored_by_id (indexCache : gmap jsstring BM25Index.IndexEntry) : Prop :=
  forall key entry docRef d,
    indexCache !! key = Some entry ->
    BM25Index.documentStore (BM25Index.index entry) !! docRef = Some d ->
    BM25Index.id (BM25Index.doc d) = docRef.

(** The caches the service can be in: empty at construction, then changed
    by its methods and by the sweep only. *)
Inductive service_state (c : BM25Index.Collaborators)
    : gmap jsstring BM25Index.IndexEntry -> Prop :=
| state_initial : service_state c ∅
| state_buildIndex now userId documents options cache :
    service_state c cache ->
    service_state c (BM25Index.buildIndex c now userId documents options cache)
| state_addDocument now userId document cache :
    service_state c cache ->
    service_state c (BM25Index.addDocument c now userId document cache)
| state_removeDocument now userId documentId cache :
    service_state c cache ->
    service_state c (BM25Index.removeDocument now userId documentId cache)
| state_search now userId query limit cache :
    service_state c cache ->
    service_state c (snd (BM25Index.search c now userId query limit cache))
| state_getScoresForDocuments now userId query ids cache :
    service_state c cache ->
    service_state c (snd (BM25Index.getScoresForDocuments c now userId query ids cache))
| state_clearIndex userId cache :
    service_state c cache ->
    service_state c (BM25Index.clearIndex userId cache)
| state_cleanupIdleIndexes now cache :
    service_state c cache ->
    service_state c (BM25Index.cleanupIdleIndexes now cache).

(** A fused score the rerank stage accepts: a number that is not negative,
    or [NaN], which the stage reads as [0]. *)
Definition score_ok (x : jsnum) : Prop :=
  match x with
  | Num q => (0 <= q)%Q
  | NaN => True
  | PosInf | NegInf => False
  end.

(** [normalizedRRF * (1 - bm25Weight) + normalizedBM25 * bm25Weight] on
    rationals. *)
Definition blend (h maxRRF b maxBM25 w : Q) : Q :=
  ((h / maxRRF) * (1 - w) + (b / maxBM25) * w)%Q.

Definition in_unit_interval (x : jsnum) : Prop :=
  match x with
  | Num q => (0 <= q)%Q /\ (q <= 1)%Q
  | _ => False
  end.

(** The fused score of a result as the rerank stage reads it
    ([hybridScore || 0]) and its BM25 score ([bm25Scores.get(String(id)) ?? 0]),
    as rationals. *)
Definition rrf_of (x : Retriever.SearchResult) : Q :=
  match Retriever.sort_key x with
  | Num h => h
  | _ => 0
  end.

Definition bm25_of (bm25Scores : list (jsstring * jsnum)) (x : Retriever.SearchResult) : Q :=
  match default (Num 0)
          (amap_get (Retriever.String_of_id (Retriever.id x)) bm25Scores) with
  | Num b => b
  | _ => 0
  end.

(** A result with the blend of its own two scores for a new score. *)
Definition blended (w maxRRF maxBM25 : Q) (bm25Scores : list (jsstring * jsnum))
    (x : Retriever.SearchResult) : Retriever.SearchResult :=
  Retriever.with_hybridScore x
    (Num (blend (rrf_of x) maxRRF (bm25_of bm25Scores x) maxBM25 w)).

(* ===================================================================== *)
(** ** Sample collaborators and inputs                                    *)
(* ===================================================================== *)

(** Stub collaborators: no segmenter, and a library search that reports
    every stored reference with score 1. *)
Definition sample_collaborators : BM25Index.Collaborators :=
  {| BM25Index.tokenizerService := Tokenizer.fallback_service;
     BM25Index.index_search := fun index _ =>
       Ok (List.map (fun kv => (fst kv, Num 1))
             (map_to_list (BM25Index.documentStore index))) |}.

Definition sample_document (name text : string) : BM25Index.BM25Document :=
  {| BM25Index.id := u name; BM25Index.content := u text;
     BM25Index.fileName := None; BM25Index.preview := None;
     BM25Index.metadata := None |}.

Definition sample_row (userId id : Z) (text : string) (distance : Q)
    : Store.KnowledgeRow :=
  {| Store.row_userId := userId; Store.row_id := id;
     Store.row_fileName := u "notes.txt"; Store.row_content := u text;
     Store.row_preview := u text; Store.row_size := 1; Store.row_type := u "text";
     Store.row_embedding := [distance] |}.

(** A stub of the embedding service and of the distance operator: the
    embedding of a row is its distance to any query. *)
Definition sample_embeddings (query : jsstring) : outcome (list Q) := Ok [0%Q].

Definition sample_distance (row query : list Q) : Q := hd 0%Q row.

(** Tenant 7 owns A (id 1, similarity 0.9), B (id 2, similarity 0.4) and
    C (id 4, similarity 0.1); tenant 8 owns one row. *)
Definition sample_pool : Store.Pool :=
  {| Store.connect := Ok tt;
     Store.Knowledge :=
       [ sample_row 7 2 "beta" (6 # 10); sample_row 7 1 "alpha" (1 # 10);
         sample_row 8 3 "gamma" (1 # 10); sample_row 7 4 "delta" (9 # 10) ];
     Store.cosine_distance := sample_distance |}.

(** [new HybridRetriever(pool, embeddings, 7, {})] *)
Definition sample_retriever : Retriever.HybridRetriever unit :=
  Retriever.new_HybridRetriever sample_pool sample_embeddings 7 Retriever.no_options.

Definition sample_result (id : Z) (score : jsnum) : Retriever.SearchResult :=
  {| Retriever.id := id; Retriever.fileName := u "notes.txt";
     Retriever.content := u "text"; Retriever.preview := u "text";
     Retriever.size := 1; Retriever.type := u "text";
     Retriever.similarity := 0; Retriever.keywordScore := 1;
     Retriever.hybridScore := score |}.

(** A segmenter stub that cuts a text at its spaces. *)
Fixpoint cut_at_spaces (word : jsstring) (text : jsstring) : list jsstring :=
  match text with
  | [] => match word with [] => [] | _ => [rev word] end
  | c :: text' =>
      if (c =? 32)%N
      then match word with
           | [] => cut_at_spaces [] text'
           | _ => rev word :: cut_at_spaces [] text'
           end
      else cut_at_spaces (c :: word) text'
  end.

Definition sample_segmenter : Tokenizer.TokenizerService :=
  {| Tokenizer.jiebaLoaded := true;
     Tokenizer.jieba_cut := fun text => Ok (cut_at_spaces [] text) |}.

(** The object the constructor would build if it stored [rrfK]. *)
Definition with_rrfK {S} (k : Q) (r : Retriever.HybridRetriever S)
    : Retriever.HybridRetriever S :=
  {| Retriever.pool := Retriever.pool r;
     Retriever.embeddings := Retriever.embeddings r;
     Retriever.userId := Retriever.userId r;
     Retriever.limit := Retriever.limit r;
     Retriever.minSimilarity := Retriever.minSimilarity r;
     Retriever.rrfK := Some k;
     Retriever.vectorWeight := Retriever.vectorWeight r;
     Retriever.keywordWeight := Retriever.keywordWeight r;
     Retriever.useBM25Rerank := Retriever.useBM25Rerank r;
     Retriever.bm25Weight := Retriever.bm25Weight r;
     Retriever.bm25IndexService := Retriever.bm25IndexService r;
     Retriever.tokenizerService := Retriever.tokenizerService r |}.

Definition sample_vector (id : Z) (similarity : Q) : Retriever.VectorSearchResult :=
  {| Retriever.v_id := id; Retriever.v_content := u "text";
     Retriever.v_similarity := similarity |}.

Definition sample_keyword (id matchCount : Z) : Retriever.KeywordSearchResult :=
  {| Retriever.kw_id := id; Retriever.kw_fileName := u "notes.txt";
     Retriever.kw_content := u "text"; Retriever.kw_preview := u "text";
     Retriever.kw_size := 1; Retriever.kw_type := u "text";
     Retriever.kw_matchCount := matchCount |}.

(** [{ rrfK: 60, vectorWeight: 0.5, keywordWeight: 0.5 }] *)
Definition equal_weights : Retriever.HybridRetrieverOptions unit :=
  {| Retriever.opt_limit := None; Retriever.opt_minSimilarity := None;
     Retriever.opt_rrfK := Some 60%Q;
     Retriever.opt_vectorWeight := Some (1 # 2)%Q;
     Retriever.opt_keywordWeight := Some (1 # 2)%Q;
     Retriever.opt_useBM25Rerank := None; Retriever.opt_bm25Weight := None;
     Retriever.opt_bm25IndexService := None; Retriever.opt_tokenizerService := None |}.

(** [{ rrfK: 60 }] *)
Definition rrfK_60 : Retriever.HybridRetrieverOptions unit :=
  {| Retriever.opt_limit := None; Retriever.opt_minSimilarity := None;
     Retriever.opt_rrfK := Some 60%Q;
     Retriever.opt_vectorWeight := None; Retriever.opt_keywordWeight := None;
     Retriever.opt_useBM25Rerank := None; Retriever.opt_bm25Weight := None;
     Retriever.opt_bm25IndexService := None; Retriever.opt_tokenizerService := None |}.

(** [{ useBM25Rerank: true, bm25Weight, bm25IndexService }] *)
Definition with_rerank_weight (now : Z) (bm25Weight : Q)
    : Retriever.HybridRetrieverOptions (gmap jsstring BM25Index.IndexEntry) :=
  {| Retriever.opt_limit := None; Retriever.opt_minSimilarity := None;
     Retriever.opt_rrfK := None;
     Retriever.opt_vectorWeight := None; Retriever.opt_keywordWeight := None;
     Retriever.opt_useBM25Rerank := Some true;
     Retriever.opt_bm25Weight := Some bm25Weight;
     Retriever.opt_bm25IndexService := Some (Retriever.bm25_service sample_collaborators now);
     Retriever.opt_tokenizerService := None |}.

(** Tenant 7 with one more row, whose content has a backslash. *)
Definition sample_pool_paths : Store.Pool :=
  {| Store.connect := Ok tt;
     Store.Knowledge := sample_row 7 5 "C:\temp" (5 # 10) :: Store.Knowledge sample_pool;
     Store.cosine_distance := sample_distance |}.

(** [{ tokenizerService }], with the segmenter stub. *)
Definition with_segmenter : Retriever.HybridRetrieverOptions unit :=
  {| Retriever.opt_limit := None; Retriever.opt_minSimilarity := None;
     Retriever.opt_rrfK := None;
     Retriever.opt_vectorWeight := None; Retriever.opt_keywordWeight := None;
     Retriever.opt_useBM25Rerank := None; Retriever.opt_bm25Weight := None;
     Retriever.opt_bm25IndexService := None;
     Retriever.opt_tokenizerService := Some sample_segmenter |}.

(** [{ useBM25Rerank: true, bm25IndexService }], with the index service of
    this repository read at clock [now]. *)
Definition with_rerank (now : Z)
    : Retriever.HybridRetrieverOptions (gmap jsstring BM25Index.IndexEntry) :=
  {| Retriever.opt_limit := None; Retriever.opt_minSimilarity := None;
     Retriever.opt_rrfK := None;
     Retriever.opt_vectorWeight := None; Retriever.opt_keywordWeight := None;
     Retriever.opt_useBM25Rerank := Some true; Retriever.opt_bm25Weight := None;
     Retriever.opt_bm25IndexService := Some (Retriever.bm25_service sample_collaborators now);
     Retriever.opt_tokenizerService := None |}.

(* ===================================================================== *)
(** ** Further code of the knowledge module                               *)
(* ===================================================================== *)

(** [x > y] on numbers; false when a side is [NaN]. *)
Definition js_gt (x y : jsnum) : bool :=
  match x, y with
  | NaN, _ | _, NaN => false
  | Num a, Num b => negb (Qle_bool a b)
  | PosInf, PosInf | NegInf, NegInf => false
  | PosInf, _ | _, NegInf => true
  | _, PosInf | NegInf, _ => false
  end.

Inductive language : Type := zh | en | mixed.

(** [(text.match(/[class]/g) || []).length] *)
Definition count_units (p : N -> bool) (text : jsstring) : Z :=
  Z.of_nat (length (List.filter p text)).

(** [TokenizerService.detectLanguage].  The two ratios are quotients of
    lengths, compared with 0.3, with 0.1 and with each other: for the lengths
    a string can have, the exact quotients compare as the rounded ones do. *)
Definition detectLanguage (text : jsstring) : language :=
  let chineseChars := count_units Tokenizer.isCJK text in
  let englishChars := count_units Tokenizer.isLatin text in
  let chineseRatio :=
    js_div (Num (inject_Z chineseChars)) (Num (inject_Z (Tokenizer.js_length text))) in
  let englishRatio :=
    js_div (Num (inject_Z englishChars)) (Num (inject_Z (Tokenizer.js_length text))) in
  if js_gt chineseRatio (Num (3 # 10)) && js_gt englishRatio (Num (1 # 10)) then mixed
  else if js_gt chineseRatio englishRatio then zh
  else en.

(** The knowledge service, as far as it fuses rankings itself and hands out
    retrievers. *)
Module KnowledgeService.

Record KnowledgeSearchResult : Type := {
  id : Z;
  fileName : jsstring;
  content : jsstring;
  preview : jsstring;
  size : Z;
  type : jsstring;
  similarity : Q;
  keywordScore : jsnum;
  hybridScore : jsnum
}.

Record VectorSearchResult : Type := {
  v_id : Z;
  v_fileName : jsstring;
  v_content : jsstring;
  v_preview : jsstring;
  v_size : Z;
  v_type : jsstring;
  v_similarity : Q
}.

(** The stop words of the service's own [extractKeywords]. *)
Definition stopWords : list jsstring :=
  [ [30340]; [20102]; [26159]; [22312]; [25105]; [26377]; [21644]; [23601]; [19981]; [20154];
    [37117]; [19968]; [19968; 20010]; [19978]; [20063]; [24456]; [21040]; [35828]; [35201];
    [21435]; [20320]; [20250]; [30528]; [27809; 26377]; [30475]; [22909]; [33258; 24049];
    [36825]; [37027]; [20160; 20040]; [24590; 20040]; [22914; 20309]; [20026; 20160; 20040];
    [21738; 20123]; [21738; 20010]; [35831]; [33021]; [21487; 20197]; [24110]; [24110; 25105];
    [21578; 35785]; [20171; 32461]; [20851; 20110]; [20197; 21450]; [25110; 32773];
    [24182; 19988] ]%N ++
  List.map u
  [ "the"; "a"; "an"; "is"; "are"; "was"; "were"; "be"; "been"; "being"; "have"; "has"; "had";
    "do"; "does"; "did"; "will"; "would"; "could"; "should"; "may"; "might"; "can"; "must";
    "shall"; "of"; "to"; "in"; "for"; "on"; "with"; "at"; "by"; "from"; "as"; "into"; "through";
    "during"; "before"; "after"; "above"; "below"; "between"; "under"; "again"; "further";
    "then"; "once"; "here"; "there"; "when"; "where"; "why"; "how"; "all"; "each"; "few"; "more";
    "most"; "other"; "some"; "such"; "no"; "nor"; "not"; "only"; "own"; "same"; "so"; "than";
    "too"; "very"; "just"; "and"; "but"; "if"; "or"; "because"; "as"; "until"; "while"; "about";
    "against"; "between"; "into"; "through"; "what"; "which"; "who"; "whom"; "this"; "that";
    "these"; "those"; "am"; "it"; "its"; "my"; "your"; "his"; "her"; "their"; "our"; "i"; "me";
    "you"; "he"; "she"; "they"; "we"; "us"; "him"; "them" ]%string.

Definition extractKeywords (query : jsstring) : list jsstring :=
  let stop word := bool_decide (word ∈ stopWords) in
  let englishWords := Tokenizer.match_all Tokenizer.isLatin query in
  let chineseChars := Tokenizer.match_all Tokenizer.isCJK query in
  let words :=
    List.filter
      (fun lowerWord => (2 <=? length lowerWord)%nat && negb (stop lowerWord))
      (List.map Tokenizer.toLowerCase englishWords) ++
    flat_map
      (fun segment =>
         List.filter (fun word => negb (stop word)) (Tokenizer.ngrams 2 segment) ++
         (if (2 <=? length segment)%nat && negb (stop segment) then [segment] else []))
      chineseChars in
  js_slice0 (js_unique words) 10.

Record ScoreEntry : Type := {
  result : KnowledgeSearchResult;
  vectorRank : option Z;
  keywordRank : option Z;
  vectorScore : jsnum;
  entry_keywordScore : jsnum
}.

(** [1 / (k + index + 1)] *)
Definition rrfScore (k : Q) (index : nat) : jsnum :=
  js_div (Num 1) (js_add (js_add (Num k) (Num (inject_Z (Z.of_nat index)))) (Num 1)).

Definition add_vector (k vectorWeight : Q) (scoreMap : list (Z * ScoreEntry))
    (ix : nat * VectorSearchResult) : list (Z * ScoreEntry) :=
  let '(index, v) := ix in
  amap_set (v_id v)
    {| result :=
         {| id := v_id v; fileName := v_fileName v; content := v_content v;
            preview := v_preview v; size := v_size v; type := v_type v;
            similarity := v_similarity v; keywordScore := Num 0;
            hybridScore := Num 0 |};
       vectorRank := Some (Z.of_nat index + 1);
       keywordRank := None;
       vectorScore := js_mul (rrfScore k index) (Num vectorWeight);
       entry_keywordScore := Num 0 |}
    scoreMap.

(** [result.matchCount / this.extractKeywords("").length || result.matchCount] *)
Definition existing_keywordScore (matchCount : Z) : jsnum :=
  js_or
    (js_div (Num (inject_Z matchCount))
       (Num (inject_Z (Z.of_nat (length (extractKeywords []))))))
    (Num (inject_Z matchCount)).

Definition add_keyword (k keywordWeight : Q) (scoreMap : list (Z * ScoreEntry))
    (ix : nat * Retriever.KeywordSearchResult) : list (Z * ScoreEntry) :=
  let '(index, kw) := ix in
  match amap_get (Retriever.kw_id kw) scoreMap with
  | Some existing =>
      amap_set (Retriever.kw_id kw)
        {| result :=
             {| id := id (result existing);
                fileName := fileName (result existing);
                content := content (result existing);
                preview := preview (result existing);
                size := size (result existing);
                type := type (result existing);
                similarity := similarity (result existing);
                keywordScore := existing_keywordScore (Retriever.kw_matchCount kw);
                hybridScore := hybridScore (result existing) |};
           vectorRank := vectorRank existing;
           keywordRank := Some (Z.of_nat index + 1);
           vectorScore := vectorScore existing;
           entry_keywordScore := js_mul (rrfScore k index) (Num keywordWeight) |}
        scoreMap
  | None =>
      amap_set (Retriever.kw_id kw)
        {| result :=
             {| id := Retriever.kw_id kw; fileName := Retriever.kw_fileName kw;
                content := Retriever.kw_content kw; preview := Retriever.kw_preview kw;
                size := Retriever.kw_size kw; type := Retriever.kw_type kw;
                similarity := 0;
                keywordScore := Num (inject_Z (Retriever.kw_matchCount kw));
                hybridScore := Num 0 |};
           vectorRank := None;
           keywordRank := Some (Z.of_nat index + 1);
           vectorScore := Num 0;
           entry_keywordScore := js_mul (rrfScore k index) (Num keywordWeight) |}
        scoreMap
  end.

Definition scoreMap_of (k vectorWeight keywordWeight : Q)
    (vectorResults : list VectorSearchResult)
    (keywordResults : list Retriever.KeywordSearchResult) : list (Z * ScoreEntry) :=
  fold_left (add_keyword k keywordWeight) (Retriever.indexed keywordResults)
    (fold_left (add_vector k vectorWeight) (Retriever.indexed vectorResults) []).

Definition fused (e : ScoreEntry) : KnowledgeSearchResult :=
  {| id := id (result e); fileName := fileName (result e);
     content := content (result e); preview := preview (result e);
     size := size (result e); type := type (result e);
     similarity := similarity (result e); keywordScore := keywordScore (result e);
     hybridScore := js_add (vectorScore e) (entry_keywordScore e) |}.

Definition sort_key (x : KnowledgeSearchResult) : jsnum := js_or (hybridScore x) (Num 0).

Definition by_hybridScore (a b : KnowledgeSearchResult) : jsnum :=
  js_sub (sort_key b) (sort_key a).

(** [mergeResultsWithRRF(vectorResults, keywordResults, limit, k = 60,
    vectorWeight = 0.7, keywordWeight = 0.3)]; the keyword results have the
    shape of the retriever's. *)
Definition mergeResultsWithRRF
    (vectorResults : list VectorSearchResult)
    (keywordResults : list Retriever.KeywordSearchResult)
    (limit : Z) (k vectorWeight keywordWeight : option Q)
    : list KnowledgeSearchResult :=
  let k := default 60%Q k in
  let vectorWeight := default (7 # 10)%Q vectorWeight in
  let keywordWeight := default (3 # 10)%Q keywordWeight in
  js_slice0
    (js_sort by_hybridScore
       (List.map (fun kv => fused (snd kv))
          (scoreMap_of k vectorWeight keywordWeight vectorResults keywordResults)))
    limit.

(** What the service reaches for: the API key configured for the user
    ([modelConfig?.apiKey], behind a lookup that may fail), the key of the
    environment, the pool of the vector store (absent before the store is
    initialised), the store's embeddings ([embedQuery], which may throw) and
    the imported helper [getErrorMessage].  [VectorStoreService.getEmbeddings]
    has no parameter: the key the service hands to it is dropped. *)
Record Services : Type := {
  modelConfig_apiKey : Z -> outcome (option jsstring);
  DASHSCOPE_API_KEY : option jsstring;
  getPool : option Store.Pool;
  getEmbeddings : jsstring -> outcome (list Q);
  getErrorMessage : jsstring -> jsstring
}.

(** [a || d] on strings that may be [undefined]: the empty string is falsy. *)
Definition js_or_string (a : option jsstring) (d : jsstring) : jsstring :=
  match a with
  | Some (c :: s) => c :: s
  | _ => d
  end.

(** The message of the exception of [getApiKey]. *)
Definition no_api_key : jsstring :=
  [26410; 37197; 32622; 32]%N ++ u "API Key" ++
  [65292; 35831; 20808; 22312; 35774; 32622; 20013; 37197; 32622; 24744; 30340; 32]%N ++
  u "API Key".

Definition getApiKey (services : Services) (userId : Z) : outcome jsstring :=
  match modelConfig_apiKey services userId with
  | Throw e => Throw e
  | Ok configured =>
      let apiKey :=
        js_or_string configured (js_or_string (DASHSCOPE_API_KEY services) []) in
      match apiKey with
      | [] => Throw no_api_key
      | _ => Ok apiKey
      end
  end.

(** The message of the [BadRequestException] that wraps a failure. *)
Definition search_failed (services : Services) (e : jsstring) : jsstring :=
  [25628; 32034; 22833; 36133; 58; 32]%N ++ getErrorMessage services e.

(** [searchWithRetriever(userId, query, options = {})] *)
Definition searchWithRetriever {S} (services : Services) (userId : Z)
    (query : jsstring) (options : Retriever.HybridRetrieverOptions S) (s : S)
    : outcome (list Retriever.SearchResult) * S :=
  match getApiKey services userId with
  | Throw e => (Throw (search_failed services e), s)
  | Ok apiKey =>
      match getPool services with
      | None => (Throw (search_failed services (u "Database pool not initialized")), s)
      | Some pool =>
          let retriever :=
            Retriever.new_HybridRetriever pool (getEmbeddings services) userId
              {| Retriever.opt_limit := Some (default 5 (Retriever.opt_limit options));
                 Retriever.opt_minSimilarity :=
                   Some (default (3 # 10)%Q (Retriever.opt_minSimilarity options));
                 Retriever.opt_rrfK := Some (default 60%Q (Retriever.opt_rrfK options));
                 Retriever.opt_vectorWeight :=
                   Some (default (7 # 10)%Q (Retriever.opt_vectorWeight options));
                 Retriever.opt_keywordWeight :=
                   Some (default (3 # 10)%Q (Retriever.opt_keywordWeight options));
                 Retriever.opt_useBM25Rerank := None;
                 Retriever.opt_bm25Weight := None;
                 Retriever.opt_bm25IndexService := @None (Retriever.BM25Service S);
                 Retriever.opt_tokenizerService := None |} in
          let '(results, s) := Retriever.getSearchResults retriever query s in
          (Ok results, s)
      end
  end.

(** [createRetriever(userId, options = {})]; no handler here, a failure is
    thrown on as it is. *)
Definition createRetriever {S} (services : Services) (userId : Z)
    (options : Retriever.HybridRetrieverOptions S)
    : outcome (Retriever.HybridRetriever S) :=
  match getApiKey services userId with
  | Throw e => Throw e
  | Ok apiKey =>
      match getPool services with
      | None => Throw (u "Database pool not initialized")
      | Some pool =>
          Ok (Retriever.new_HybridRetriever pool (getEmbeddings services)
                userId options)
      end
  end.

End KnowledgeService.

(** *** Notions the further properties are stated with *)

(** A run of lower-case letters a-z. *)
Definition lower_word (t : jsstring) : Prop :=
  t <> [] /\ Forall (fun c => (97 <= c <= 122)%N) t.

(** A run of CJK code units. *)
Definition cjk_word (t : jsstring) : Prop :=
  t <> [] /\ Forall (fun c => Tokenizer.isCJK c = true) t.

(** The retriever cuts the query itself: it has no tokenizer service, or one
    whose segmenter is not loaded. *)
Definition cuts_by_itself {S} (r : Retriever.HybridRetriever S) : Prop :=
  match Retriever.tokenizerService r with
  | None => True
  | Some ts => Tokenizer.jiebaLoaded ts = false
  end.

(** A result without its fused score. *)
Definition without_score (x : Retriever.SearchResult) : Retriever.SearchResult :=
  Retriever.with_hybridScore x (Num 0).

(** The order of [ORDER BY "matchCount" DESC, id ASC] on keyword results. *)
Definition matchCount_then_id (a b : Retriever.KeywordSearchResult) : Prop :=
  Retriever.kw_matchCount b < Retriever.kw_matchCount a \/
  (Retriever.kw_matchCount a = Retriever.kw_matchCount b /\
   Retriever.kw_id a <= Retriever.kw_id b).

(** A keyword hit as the fusion of this retriever hands it on when the
    vector list is empty: no similarity, and a fused score that is [NaN]. *)
Definition keyword_only (kw : Retriever.KeywordSearchResult) : Retriever.SearchResult :=
  {| Retriever.id := Retriever.kw_id kw;
     Retriever.fileName := Retriever.kw_fileName kw;
     Retriever.content := Retriever.kw_content kw;
     Retriever.preview := Retriever.kw_preview kw;
     Retriever.size := Retriever.kw_size kw;
     Retriever.type := Retriever.kw_type kw;
     Retriever.similarity := 0;
     Retriever.keywordScore := Retriever.kw_matchCount kw;
     Retriever.hybridScore := NaN |}.

(** Services with a key in the environment only and the sample pool. *)
Definition sample_services : KnowledgeService.Services :=
  {| KnowledgeService.modelConfig_apiKey := fun _ => Ok None;
     KnowledgeService.DASHSCOPE_API_KEY := Some (u "sk-sample");
     KnowledgeService.getPool := Some sample_pool;
     KnowledgeService.getEmbeddings := sample_embeddings;
     KnowledgeService.getErrorMessage := fun e => e |}.

Definition sample_service_vector (id : Z) (similarity : Q)
    : KnowledgeService.VectorSearchResult :=
  {| KnowledgeService.v_id := id; KnowledgeService.v_fileName := u "notes.txt";
     KnowledgeService.v_content := u "text"; KnowledgeService.v_preview := u "text";
     KnowledgeService.v_size := 1; KnowledgeService.v_type := u "text";
     KnowledgeService.v_similarity := similarity |}.

(** The stop words of the tokenizer and of the knowledge service that the
    retriever's own list lacks. *)
Definition pronouns : list jsstring := List.map u ["their"; "you"; "he"; "she"]%string.

(** The fields of a fused result other than its score, from the vector hit
    and the keyword hit of its id. *)
Definition fused_fields (v : option Retriever.VectorSearchResult)
    (hit : option Retriever.KeywordSearchResult) : option Retriever.SearchResult :=
  match v, hit with
  | Some v, Some hit =>
      Some {| Retriever.id := Retriever.v_id v;
              Retriever.fileName := Retriever.kw_fileName hit;
              Retriever.content := Retriever.v_content v;
              Retriever.preview := Retriever.kw_preview hit;
              Retriever.size := Retriever.kw_size hit;
              Retriever.type := Retriever.kw_type hit;
              Retriever.similarity := Retriever.v_similarity v;
              Retriever.keywordScore := Retriever.kw_matchCount hit;
              Retriever.hybridScore := Num 0 |}
  | Some v, None =>
      Some {| Retriever.id := Retriever.v_id v;
              Retriever.fileName := [];
              Retriever.content := Retriever.v_content v;
              Retriever.preview := [];
              Retriever.size := 0;
              Retriever.type := [];
              Retriever.similarity := Retriever.v_similarity v;
              Retriever.keywordScore := 0;
              Retriever.hybridScore := Num 0 |}
  | None, Some hit =>
      Some {| Retriever.id := Retriever.kw_id hit;
              Retriever.fileName := Retriever.kw_fileName hit;
              Retriever.content := Retriever.kw_content hit;
              Retriever.preview := Retriever.kw_preview hit;
              Retriever.size := Retriever.kw_size hit;
              Retriever.type := Retriever.kw_type hit;
              Retriever.similarity := 0;
              Retriever.keywordScore := Retriever.kw_matchCount hit;
              Retriever.hybridScore := Num 0 |}
  | None, None => None
  end.

(* ===================================================================== *)
(** ** Facts about the JavaScript helpers                                 *)
(* ===================================================================== *)

Lemma js_sort_insert_perm {A} (cmp : A -> A -> jsnum) x l :
  Permutation (js_sort_insert cmp x l) (x :: l).
Proof.
  induction l as [|y l IH]; simpl; [reflexivity|].
  destruct (js_pos (cmp x y)); [|reflexivity].
  rewrite IH. apply perm_swap.
Qed.

Lemma js_sort_perm {A} (cmp : A -> A -> jsnum) l :
  Permutation (js_sort cmp l) l.
Proof.
  induction l as [|x l IH]; simpl; [reflexivity|].
  rewrite js_sort_insert_perm. now rewrite IH.
Qed.

(** A list whose elements the comparator never swaps is left as it is. *)
Lemma js_sort_fixed {A} (cmp : A -> A -> jsnum) l :
  (forall a b, a ∈ l -> b ∈ l -> js_pos (cmp a b) = false) ->
  js_sort cmp l = l.
Proof.
  induction l as [|x l IH]; intros H; simpl; [reflexivity|].
  rewrite IH by (intros; apply H; now right).
  destruct l as [|y l]; simpl; [reflexivity|].
  rewrite H; [reflexivity|left|right; left].
Qed.

Section SortOrder.
Context {A : Type} (cmp : A -> A -> jsnum).

Hypothesis cmp_total : forall a b, js_pos (cmp a b) = true -> may_precede cmp b a.
Hypothesis cmp_trans :
  forall a b c, may_precede cmp a b -> may_precede cmp b c -> may_precede cmp a c.

Lemma js_sort_insert_sorted x l :
  StronglySorted (may_precede cmp) l -> StronglySorted (may_precede cmp) (js_sort_insert cmp x l).
Proof.
  induction 1 as [|y l Hl IH Hy]; simpl.
  - repeat constructor.
  - destruct (js_pos (cmp x y)) eqn:E.
    + constructor; [assumption|].
      apply Forall_forall. intros z Hz.
      rewrite js_sort_insert_perm in Hz.
      apply elem_of_cons in Hz as [->|Hz]; [now apply cmp_total|].
      rewrite Forall_forall in Hy. now apply Hy.
    + constructor; [now constructor|].
      constructor; [exact E|].
      rewrite Forall_forall in Hy |- *. intros z Hz.
      eapply cmp_trans; [exact E|now apply Hy].
Qed.

Lemma js_sort_sorted l : StronglySorted (may_precede cmp) (js_sort cmp l).
Proof.
  induction l; simpl; [constructor|now apply js_sort_insert_sorted].
Qed.

(** Stability: the elements of any class of mutually tied elements keep
    their order. *)
Lemma js_sort_insert_stable (P : A -> bool) x l :
  (forall a b, P a = true -> P b = true -> may_precede cmp a b) ->
  List.filter P (js_sort_insert cmp x l) = List.filter P (x :: l).
Proof.
  intros HP. induction l as [|y l IH]; [reflexivity|].
  cbn [js_sort_insert]. destruct (js_pos (cmp x y)) eqn:E; [|reflexivity].
  cbn [List.filter] in *. rewrite IH.
  destruct (P x) eqn:Px, (P y) eqn:Py; try reflexivity.
  rewrite (HP x y Px Py) in E. discriminate.
Qed.

Lemma js_sort_stable (P : A -> bool) l :
  (forall a b, P a = true -> P b = true -> may_precede cmp a b) ->
  List.filter P (js_sort cmp l) = List.filter P l.
Proof.
  intros HP. induction l as [|x l IH]; [reflexivity|].
  cbn [js_sort foldr]. fold (js_sort cmp l).
  rewrite js_sort_insert_stable by assumption.
  cbn [List.filter]. now rewrite IH.
Qed.
End SortOrder.

Lemma StronglySorted_weaken {A} (R R' : A -> A -> Prop) l :
  (forall a b, R a b -> R' a b) -> StronglySorted R l -> StronglySorted R' l.
Proof.
  intros HR. induction 1 as [|x l Hl IH Hx]; constructor; [assumption|].
  eapply Forall_impl; [exact Hx|]. intros y. apply HR.
Qed.

Lemma js_slice0_map {A B} (f : A -> B) (l : list A) n :
  List.map f (js_slice0 l n) = js_slice0 (List.map f l) n.
Proof.
  unfold js_slice0. rewrite length_map.
  destruct (n <? 0); now rewrite firstn_map.
Qed.

Lemma js_slice0_sublist {A} (l : list A) n x : x ∈ js_slice0 l n -> x ∈ l.
Proof.
  unfold js_slice0. destruct (n <? 0); intros H; exact (subseteq_take _ _ _ H).
Qed.

Lemma js_set_add_NoDup {A} `{EqDecision A} (acc : list A) x :
  NoDup acc -> NoDup (js_set_add acc x).
Proof.
  intros H. unfold js_set_add. destruct (decide (x ∈ acc)); [assumption|].
  apply NoDup_app. split; [assumption|]. split.
  - intros y Hy Hx. apply list_elem_of_singleton in Hx. now subst.
  - apply NoDup_singleton.
Qed.

Lemma js_unique_NoDup {A} `{EqDecision A} (l : list A) : NoDup (js_unique l).
Proof.
  unfold js_unique. generalize (NoDup_nil_2 (A:=A)). generalize (@nil A).
  induction l as [|x l IH]; intros acc Hacc; simpl; [assumption|].
  apply IH. now apply js_set_add_NoDup.
Qed.

Lemma amap_get_app_None {K V} `{EqDecision K} (k : K) (m m' : list (K * V)) :
  amap_get k m = None -> amap_get k (m ++ m') = amap_get k m'.
Proof.
  induction m as [|[k' v'] m IH]; simpl; [reflexivity|].
  destruct (decide (k = k')); [discriminate|assumption].
Qed.

Lemma amap_set_fresh {K V} `{EqDecision K} (k : K) (v : V) (m : list (K * V)) :
  amap_get k m = None -> amap_set k v m = m ++ [(k, v)].
Proof.
  induction m as [|[k' v'] m IH]; simpl; [reflexivity|].
  destruct (decide (k = k')); [discriminate|].
  intros Hm. now rewrite IH.
Qed.

(* ===================================================================== *)
(** ** Tokenizer: keyword extraction                                      *)
(* ===================================================================== *)

Lemma tokenize_NoDup ts text options : NoDup (Tokenizer.tokenize ts text options).
Proof.
  unfold Tokenizer.tokenize.
  destruct (_ || _); [apply NoDup_nil_2|].
  unfold Tokenizer.postProcess. apply js_unique_NoDup.
Qed.

(** On tokens without repetition the frequency map gives every token the
    count 1, in token order. *)
Lemma frequency_of_distinct tokens acc :
  NoDup tokens ->
  (forall t, t ∈ tokens -> amap_get t acc = None) ->
  fold_left Tokenizer.count_token tokens acc
  = acc ++ List.map (fun t => (t, 1)) tokens.
Proof.
  revert acc. induction tokens as [|t tokens IH]; intros acc Hnd Hacc; simpl.
  - now rewrite app_nil_r.
  - apply NoDup_cons in Hnd as [Ht Hnd].
    unfold Tokenizer.count_token at 2.
    rewrite (Hacc t) by left. cbn [default].
    rewrite amap_set_fresh by (apply Hacc; left).
    rewrite IH; [now rewrite <- app_assoc|assumption|].
    intros t' Ht'.
    rewrite amap_get_app_None by (apply Hacc; now right).
    simpl. destruct (decide (t' = t)) as [->|]; [contradiction|reflexivity].
Qed.

(** The ranking of [extractKeywords] has nothing to rank: [tokenize] hands it
    every term once, so the result is the first [maxKeywords] terms in the
    order in which the text introduces them. *)
Lemma extractKeywords_first_seen ts text maxKeywords :
  Tokenizer.extractKeywords ts text maxKeywords
  = js_slice0
      (Tokenizer.tokenize ts text
         {| Tokenizer.filterStopWords := Some true;
            Tokenizer.minWordLength := Some 2;
            Tokenizer.maxWordLength := None |})
      (default 10 maxKeywords).
Proof.
  unfold Tokenizer.extractKeywords.
  set (tokens := Tokenizer.tokenize _ _ _).
  rewrite frequency_of_distinct;
    [|apply tokenize_NoDup|reflexivity].
  cbn [app]. rewrite js_sort_fixed.
  - rewrite js_slice0_map, map_map. cbn [fst]. now rewrite map_id.
  - intros a b Ha Hb.
    apply list_elem_of_fmap in Ha as [ta [-> _]].
    apply list_elem_of_fmap in Hb as [tb [-> _]].
    reflexivity.
Qed.

(** C8 (the code departs from the claim).  In the text "apple banana banana"
    the term "banana" occurs twice and "apple" once, yet [extractKeywords]
    puts "apple" first and, with [maxKeywords = 1], returns "apple" alone:
    the terms reach the frequency count already deduplicated by
    [postProcess], so every frequency is 1. *)
Theorem C8_frequency_not_ranked :
  let text := u "apple banana banana" in
  let raw := Tokenizer.fallbackTokenize text in
  occurrences (u "apple") raw = 1%nat /\
  occurrences (u "banana") raw = 2%nat /\
  Tokenizer.extractKeywords Tokenizer.fallback_service text None
    = [u "apple"; u "banana"] /\
  Tokenizer.extractKeywords Tokenizer.fallback_service text (Some 1)
    = [u "apple"] /\
  ~ ranked_by_frequency raw
      (Tokenizer.extractKeywords Tokenizer.fallback_service text None).
Proof.
  intros text raw.
  repeat (split; [vm_compute; reflexivity|]).
  intros H. vm_compute in H.
  inversion H as [|x l _ Hall]; subst.
  inversion Hall as [|y l' Hle _]; subst.
  inversion Hle as [|n Hle']. inversion Hle'.
Qed.

(* ===================================================================== *)
(** ** The lexical index                                                  *)
(* ===================================================================== *)

Lemma stored_by_id_empty : stored_by_id ∅.
Proof. intros key entry docRef d H. rewrite lookup_empty in H. discriminate. Qed.

Lemma addDoc_lookup d index docRef :
  BM25Index.documentStore (BM25Index.addDoc d index) !! docRef
  = if decide (BM25Index.id (BM25Index.doc d) = docRef) then Some d
    else BM25Index.documentStore index !! docRef.
Proof. unfold BM25Index.addDoc. cbn. apply lookup_insert. Qed.

Lemma removeDocByRef_lookup docRef' index docRef :
  BM25Index.documentStore (BM25Index.removeDocByRef docRef' index) !! docRef
  = if decide (docRef' = docRef /\ docRef' <> []) then None
    else BM25Index.documentStore index !! docRef.
Proof.
  unfold BM25Index.removeDocByRef. destruct docRef' as [|c docRef'].
  - rewrite decide_False by tauto. reflexivity.
  - cbn [BM25Index.documentStore]. rewrite lookup_delete.
    destruct (decide (c :: docRef' = docRef)) as [E|E].
    + rewrite decide_True; [reflexivity|]. split; [exact E|discriminate].
    + rewrite decide_False by tauto. reflexivity.
Qed.

Lemma removeDocByRef_absent docRef index :
  BM25Index.documentStore index !! docRef = None ->
  BM25Index.removeDocByRef docRef index = index.
Proof.
  intros H. destruct index as [store]. unfold BM25Index.removeDocByRef. cbn in *.
  destruct docRef; [reflexivity|]. f_equal. now apply delete_id.
Qed.

(** The documents of a freshly built index are stored by id. *)
Lemma build_stored_by_id c documents index0 :
  (forall docRef d, BM25Index.documentStore index0 !! docRef = Some d ->
                    BM25Index.id (BM25Index.doc d) = docRef) ->
  forall docRef d,
    BM25Index.documentStore
      (fold_left (fun index doc => BM25Index.addDoc (BM25Index.index_document c doc) index)
         documents index0) !! docRef = Some d ->
    BM25Index.id (BM25Index.doc d) = docRef.
Proof.
  revert index0. induction documents as [|x documents IH]; intros index0 H0; [exact H0|].
  cbn [fold_left]. apply IH. intros docRef d. rewrite addDoc_lookup.
  destruct (decide _) as [E|E]; [|apply H0].
  intros [= <-]. exact E.
Qed.

Lemma stored_by_id_buildIndex c now userId documents options cache :
  stored_by_id cache ->
  stored_by_id (BM25Index.buildIndex c now userId documents options cache).
Proof.
  intros H key entry docRef d. unfold BM25Index.buildIndex.
  rewrite lookup_insert. destruct (decide _) as [_|_]; [|apply H].
  intros [= <-]. cbn [BM25Index.index]. apply build_stored_by_id.
  intros r x Hx. cbn in Hx. rewrite lookup_empty in Hx. discriminate.
Qed.

Lemma stored_by_id_addDocument c now userId document cache :
  stored_by_id cache ->
  stored_by_id (BM25Index.addDocument c now userId document cache).
Proof.
  intros H. unfold BM25Index.addDocument.
  destruct (cache !! _) as [entry|] eqn:E; [|now apply stored_by_id_buildIndex].
  intros key entry' docRef d. rewrite lookup_insert.
  destruct (decide _) as [_|_]; [|apply H].
  intros [= <-]. cbn [BM25Index.index]. rewrite addDoc_lookup.
  destruct (decide _) as [E'|_]; [intros [= <-]; exact E'|].
  eapply H. exact E.
Qed.

Lemma stored_by_id_removeDocument now userId documentId cache :
  stored_by_id cache ->
  stored_by_id (BM25Index.removeDocument now userId documentId cache).
Proof.
  intros H. unfold BM25Index.removeDocument.
  destruct (cache !! _) as [entry|] eqn:E; [|assumption].
  intros key entry' docRef d. rewrite lookup_insert.
  destruct (decide _) as [_|_]; [|apply H].
  intros [= <-]. cbn [BM25Index.index]. rewrite removeDocByRef_lookup.
  destruct (decide _); [discriminate|]. eapply H. exact E.
Qed.

(** The entry [addDocument] leaves for the tenant. *)
Lemma addDocument_entry c now userId document cache :
  exists entry,
    BM25Index.addDocument c now userId document cache !! BM25Index.getIndexKey userId
    = Some entry /\
    BM25Index.documentCount entry
    = fst (BM25Index.getDocumentCount userId cache) + 1 /\
    BM25Index.lastAccessed entry = now.
Proof.
  unfold BM25Index.getDocumentCount, BM25Index.addDocument, BM25Index.buildIndex.
  cbn [fst].
  destruct (cache !! _) as [entry|]; rewrite lookup_insert_eq; eexists;
    (split; [reflexivity|split; reflexivity]).
Qed.

Lemma removeDocument_count now userId documentId cache :
  fst (BM25Index.getDocumentCount userId
         (BM25Index.removeDocument now userId documentId cache))
  = match cache !! BM25Index.getIndexKey userId with
    | Some entry => BM25Index.documentCount entry - 1
    | None => 0
    end.
Proof.
  unfold BM25Index.getDocumentCount, BM25Index.removeDocument. cbn [fst].
  destruct (cache !! _) as [entry|] eqn:E.
  - rewrite lookup_insert_eq. reflexivity.
  - rewrite E. reflexivity.
Qed.

(** Every id [search] returns is the id of a document the index stores under
    the reference the library reported. *)
Lemma search_result_stored c now userId query limit cache r :
  r ∈ fst (BM25Index.search c now userId query limit cache) ->
  exists entry docRef d,
    cache !! BM25Index.getIndexKey userId = Some entry /\
    BM25Index.documentStore (BM25Index.index entry) !! docRef = Some d /\
    BM25Index.result_id r = BM25Index.id (BM25Index.doc d).
Proof.
  unfold BM25Index.search.
  destruct (cache !! _) as [entry|]; [|cbn; intros H; inversion H].
  destruct (Tokenizer.tokenize _ _ _) as [|t ts]; [cbn; intros H; inversion H|].
  destruct (BM25Index.index_search _ _ _) as [found|e]; [|cbn; intros H; inversion H].
  cbn [fst]. intros H. apply list_elem_of_omap in H as [[docRef score] [_ Hf]].
  unfold BM25Index.format_result, BM25Index.getDoc in Hf. cbn [fst snd] in Hf.
  destruct (BM25Index.documentStore _ !! docRef) as [d|] eqn:Hd; [|discriminate].
  cbn in Hf. injection Hf as <-. exists entry, docRef, d. auto.
Qed.

(** *** Access times and the idle sweep *)

Lemma touch_lastAccessed now key entry cache :
  BM25Index.lastAccessed <$> BM25Index.touch now key entry cache !! key = Some now.
Proof. unfold BM25Index.touch. now rewrite lookup_insert_eq. Qed.

Lemma search_lastAccessed c now userId query limit cache :
  BM25Index.lastAccessed <$>
    snd (BM25Index.search c now userId query limit cache) !! BM25Index.getIndexKey userId
  = (fun _ => now) <$> cache !! BM25Index.getIndexKey userId.
Proof.
  unfold BM25Index.search.
  destruct (cache !! _) as [entry|] eqn:E; [|cbn [snd]; now rewrite E].
  destruct (Tokenizer.tokenize _ _ _); [apply touch_lastAccessed|].
  destruct (BM25Index.index_search _ _ _); apply touch_lastAccessed.
Qed.

Lemma getScoresForDocuments_lastAccessed c now userId query ids cache :
  BM25Index.lastAccessed <$>
    snd (BM25Index.getScoresForDocuments c now userId query ids cache)
      !! BM25Index.getIndexKey userId
  = (fun _ => now) <$> cache !! BM25Index.getIndexKey userId.
Proof.
  unfold BM25Index.getScoresForDocuments.
  destruct (cache !! _) as [entry|] eqn:E; [|cbn [snd]; now rewrite E].
  destruct (Tokenizer.tokenize _ _ _); [apply touch_lastAccessed|].
  destruct (BM25Index.index_search _ _ _); apply touch_lastAccessed.
Qed.

Lemma removeDocument_lastAccessed now userId documentId cache :
  BM25Index.lastAccessed <$>
    BM25Index.removeDocument now userId documentId cache !! BM25Index.getIndexKey userId
  = (fun _ => now) <$> cache !! BM25Index.getIndexKey userId.
Proof.
  unfold BM25Index.removeDocument.
  destruct (cache !! _) as [entry|] eqn:E; [|now rewrite E].
  now rewrite lookup_insert_eq.
Qed.

Lemma delete_all_lookup {V} (keys : list jsstring) (m : gmap jsstring V) key :
  fold_left (fun cache k => delete k cache) keys m !! key
  = if decide (key ∈ keys) then None else m !! key.
Proof.
  revert m. induction keys as [|k keys IH]; intros m; cbn [fold_left].
  - destruct (decide _) as [H|_]; [inversion H|reflexivity].
  - rewrite IH. destruct (decide (key ∈ keys)) as [Hin|Hnin].
    + rewrite decide_True by now right. reflexivity.
    + rewrite lookup_delete. destruct (decide (k = key)) as [->|Hne].
      * rewrite decide_True by left. reflexivity.
      * rewrite decide_False; [reflexivity|].
        intros H. apply elem_of_cons in H as [->|H]; contradiction.
Qed.

(** The sweep drops an entry exactly when [now - lastAccessed > IDLE_TIMEOUT]. *)
Lemma cleanupIdleIndexes_lookup now cache key :
  BM25Index.cleanupIdleIndexes now cache !! key
  = match cache !! key with
    | Some entry => if BM25Index.idle now entry then None else Some entry
    | None => None
    end.
Proof.
  unfold BM25Index.cleanupIdleIndexes. rewrite delete_all_lookup.
  destruct (decide _) as [Hin|Hnin].
  - apply list_elem_of_fmap in Hin as [[k entry] [-> Hin]].
    apply list_elem_of_In, filter_In in Hin as [Hin Hidle].
    apply list_elem_of_In, elem_of_map_to_list in Hin.
    cbn [fst snd] in *. now rewrite Hin, Hidle.
  - destruct (cache !! key) as [entry|] eqn:E; [|reflexivity].
    destruct (BM25Index.idle now entry) eqn:Hidle; [|reflexivity].
    exfalso. apply Hnin. apply list_elem_of_fmap. exists (key, entry).
    split; [reflexivity|].
    apply list_elem_of_In, filter_In. split; [|exact Hidle].
    now apply list_elem_of_In, elem_of_map_to_list.
Qed.

Lemma stored_by_id_touch now key entry cache :
  cache !! key = Some entry ->
  stored_by_id cache -> stored_by_id (BM25Index.touch now key entry cache).
Proof.
  intros E H key' entry' docRef d. unfold BM25Index.touch.
  rewrite lookup_insert. destruct (decide _) as [_|_]; [|apply H].
  intros [= <-]. cbn [BM25Index.index]. eapply H. exact E.
Qed.

(** Every cache the service reaches stores its documents by id. *)
Lemma service_state_stored_by_id c cache :
  service_state c cache -> stored_by_id cache.
Proof.
  induction 1 as [|now userId documents options cache _ IH
                  |now userId document cache _ IH
                  |now userId documentId cache _ IH
                  |now userId query limit cache _ IH
                  |now userId query ids cache _ IH
                  |userId cache _ IH
                  |now cache _ IH].
  - apply stored_by_id_empty.
  - now apply stored_by_id_buildIndex.
  - now apply stored_by_id_addDocument.
  - now apply stored_by_id_removeDocument.
  - unfold BM25Index.search.
    destruct (cache !! _) as [entry|] eqn:E; [|exact IH].
    destruct (Tokenizer.tokenize _ _ _); [now apply stored_by_id_touch|].
    destruct (BM25Index.index_search _ _ _); now apply stored_by_id_touch.
  - unfold BM25Index.getScoresForDocuments.
    destruct (cache !! _) as [entry|] eqn:E; [|exact IH].
    destruct (Tokenizer.tokenize _ _ _); [now apply stored_by_id_touch|].
    destruct (BM25Index.index_search _ _ _); now apply stored_by_id_touch.
  - intros key entry docRef d. unfold BM25Index.clearIndex.
    rewrite lookup_delete. destruct (decide _); [discriminate|apply IH].
  - intros key entry docRef d. rewrite cleanupIdleIndexes_lookup.
    destruct (cache !! key) as [entry'|] eqn:E; [|discriminate].
    destruct (BM25Index.idle now entry'); [discriminate|].
    intros [= <-]. eapply IH. exact E.
Qed.

(** C7 (as amended).  In every state of the service: after
    [addDocument(t, D)] and [removeDocument(t, D.id)], [getDocumentCount(t)]
    is back at its value before the add and, when [D.id] is not the empty
    string, no search of tenant [t] returns [D.id], whatever the query and
    whatever the library's scoring reports. *)
Theorem C7_add_then_remove c now1 now2 now3 userId D query limit cache :
  service_state c cache ->
  let cache1 := BM25Index.addDocument c now1 userId D cache in
  let cache2 := BM25Index.removeDocument now2 userId (BM25Index.id D) cache1 in
  (BM25Index.id D <> [] ->
   forall r, r ∈ fst (BM25Index.search c now3 userId query limit cache2) ->
             BM25Index.result_id r <> BM25Index.id D) /\
  fst (BM25Index.getDocumentCount userId cache2)
  = fst (BM25Index.getDocumentCount userId cache).
Proof.
  intros Hstate cache1 cache2.
  pose proof (service_state_stored_by_id c cache Hstate) as Hinv. split.
  - intros Hid r Hr.
    apply search_result_stored in Hr as (entry & docRef & d & Hentry & Hd & ->).
    assert (Hinv2 : stored_by_id cache2)
      by now apply stored_by_id_removeDocument, stored_by_id_addDocument.
    rewrite (Hinv2 _ _ _ _ Hentry Hd).
    subst cache2. unfold BM25Index.removeDocument in Hentry.
    destruct (cache1 !! _) as [entry1|] eqn:E1.
    + rewrite lookup_insert_eq in Hentry. injection Hentry as <-.
      cbn [BM25Index.index] in Hd. rewrite removeDocByRef_lookup in Hd.
      destruct (decide _) as [|Hne]; [discriminate|].
      intros Heq. apply Hne. split; [now symmetry|exact Hid].
    + congruence.
  - subst cache2. rewrite removeDocument_count.
    destruct (addDocument_entry c now1 userId D cache) as (entry1 & E1 & Hcount & _).
    fold cache1 in E1. rewrite E1. lia.
Qed.

Lemma C7_add_then_remove_witness :
  let cache :=
    BM25Index.buildIndex sample_collaborators 0 1
      [sample_document "7" "hybrid search"] BM25Index.no_options ∅ in
  let D := sample_document "42" "hybrid retrieval" in
  let cache1 := BM25Index.addDocument sample_collaborators 10 1 D cache in
  let cache2 := BM25Index.removeDocument 20 1 (BM25Index.id D) cache1 in
  (BM25Index.id D <> [] ->
   forall r,
     r ∈ fst (BM25Index.search sample_collaborators 30 1 (u "hybrid") None cache2) ->
     BM25Index.result_id r <> BM25Index.id D) /\
  fst (BM25Index.getDocumentCount 1 cache2) = fst (BM25Index.getDocumentCount 1 cache).
Proof.
  exact (C7_add_then_remove sample_collaborators 10 20 30 1
           (sample_document "42" "hybrid retrieval") (u "hybrid") None _
           (state_buildIndex sample_collaborators 0 1
              [sample_document "7" "hybrid search"] BM25Index.no_options ∅
              (state_initial sample_collaborators))).
Defined.

(** C7 as the specification states it fails for the document whose id is
    the empty string: the library ignores the removal, so after the add and
    the remove a search of the tenant still returns the document, while the
    count is back at its old value. *)
Lemma C7_empty_id_not_removed :
  let cache :=
    BM25Index.buildIndex sample_collaborators 0 1
      [sample_document "7" "hybrid search"] BM25Index.no_options ∅ in
  let D :=
    {| BM25Index.id := []; BM25Index.content := u "hybrid retrieval";
       BM25Index.fileName := None; BM25Index.preview := None;
       BM25Index.metadata := None |} in
  let cache1 := BM25Index.addDocument sample_collaborators 10 1 D cache in
  let cache2 := BM25Index.removeDocument 20 1 (BM25Index.id D) cache1 in
  service_state sample_collaborators cache /\
  ~ (forall r,
       r ∈ fst (BM25Index.search sample_collaborators 30 1 (u "hybrid") None cache2) ->
       BM25Index.result_id r <> BM25Index.id D) /\
  List.map BM25Index.result_id
    (fst (BM25Index.search sample_collaborators 30 1 (u "hybrid") None cache2))
  = [u "7"; []] /\
  fst (BM25Index.getDocumentCount 1 cache2) = fst (BM25Index.getDocumentCount 1 cache).
Proof.
  intros cache D cache1 cache2.
  assert (Hids : List.map BM25Index.result_id
                   (fst (BM25Index.search sample_collaborators 30 1 (u "hybrid") None
                           cache2)) = [u "7"; []])
    by (vm_compute; reflexivity).
  split; [|split; [|split; [exact Hids|vm_compute; reflexivity]]].
  - apply state_buildIndex, state_initial.
  - intros H.
    assert (Hin : [] ∈ List.map BM25Index.result_id
                    (fst (BM25Index.search sample_collaborators 30 1 (u "hybrid") None
                            cache2)))
      by (rewrite Hids; right; left).
    apply list_elem_of_fmap in Hin as (r & Hr & Hin).
    exact (H r Hin (eq_sym Hr)).
Qed.

(** The same run, evaluated: the added document is found before the removal
    and not after it, and the count goes 1, 2, 1. *)
Example add_then_remove_run :
  let cache :=
    BM25Index.buildIndex sample_collaborators 0 1
      [sample_document "7" "hybrid search"] BM25Index.no_options ∅ in
  let D := sample_document "42" "hybrid retrieval" in
  let cache1 := BM25Index.addDocument sample_collaborators 10 1 D cache in
  let cache2 := BM25Index.removeDocument 20 1 (BM25Index.id D) cache1 in
  let ids c :=
    List.map BM25Index.result_id
      (fst (BM25Index.search sample_collaborators 30 1 (u "hybrid") None c)) in
  Permutation (ids cache1) [u "7"; u "42"] /\ ids cache2 = [u "7"] /\
  List.map (fun c => fst (BM25Index.getDocumentCount 1 c)) [cache; cache1; cache2]
  = [1; 2; 1].
Proof.
  vm_compute. split; [|split; reflexivity].
  first [apply Permutation_refl | apply perm_swap].
Qed.

(** C10.  On a tenant that has an index, [removeDocument] with an id the
    index does not hold leaves the indexed documents as they are and still
    lowers [documentCount] by one; the count then lies below the number of
    indexed documents, and below zero on an empty index. *)
Theorem C10_remove_absent_decrements now userId documentId cache entry :
  cache !! BM25Index.getIndexKey userId = Some entry ->
  BM25Index.documentStore (BM25Index.index entry) !! documentId = None ->
  let cache' := BM25Index.removeDocument now userId documentId cache in
  fst (BM25Index.getDocumentCount userId cache')
  = fst (BM25Index.getDocumentCount userId cache) - 1 /\
  BM25Index.index <$> cache' !! BM25Index.getIndexKey userId
  = Some (BM25Index.index entry).
Proof.
  intros Hentry Habsent cache'. subst cache'. split.
  - rewrite removeDocument_count. unfold BM25Index.getDocumentCount. cbn [fst].
    rewrite Hentry. reflexivity.
  - unfold BM25Index.removeDocument. rewrite Hentry, lookup_insert_eq.
    cbn [fmap option_fmap option_map BM25Index.index].
    now rewrite removeDocByRef_absent.
Qed.

Lemma C10_remove_absent_decrements_witness :
  let cache :=
    BM25Index.buildIndex sample_collaborators 0 1 [] BM25Index.no_options ∅ in
  let cache' := BM25Index.removeDocument 5 1 (u "42") cache in
  fst (BM25Index.getDocumentCount 1 cache) = 0 /\
  fst (BM25Index.getDocumentCount 1 cache') = -1 /\
  BM25Index.index <$> cache' !! BM25Index.getIndexKey 1 = Some BM25Index.elasticlunr.
Proof.
  pose proof
    (C10_remove_absent_decrements 5 1 (u "42")
       (BM25Index.buildIndex sample_collaborators 0 1 [] BM25Index.no_options ∅)
       {| BM25Index.index := BM25Index.elasticlunr;
          BM25Index.documentCount := 0;
          BM25Index.lastAccessed := 0;
          BM25Index.bm25Config := (BM25Index.DEFAULT_BM25_K1, BM25Index.DEFAULT_BM25_B) |}
       eq_refl eq_refl) as [Hcount Hindex].
  split; [reflexivity|]. split; [exact Hcount|exact Hindex].
Defined.

(** C6, as the code has it.  [buildIndex], [addDocument], [removeDocument],
    [search] and [getScoresForDocuments] set [lastAccessed] of the tenant's
    index to the current time (the last three when the tenant has an index,
    and do nothing otherwise); [hasIndex] and [getDocumentCount] leave the
    cache, and so [lastAccessed], as it is; the sweep, scheduled every 5
    minutes, removes exactly the entries with
    [now - lastAccessed > 30 minutes]. *)
Theorem C6_lastAccessed_and_sweep c now userId cache :
  let key := BM25Index.getIndexKey userId in
  (forall documents options,
     BM25Index.lastAccessed <$>
       BM25Index.buildIndex c now userId documents options cache !! key = Some now) /\
  (forall document,
     BM25Index.lastAccessed <$>
       BM25Index.addDocument c now userId document cache !! key = Some now) /\
  (forall documentId,
     BM25Index.lastAccessed <$>
       BM25Index.removeDocument now userId documentId cache !! key
     = (fun _ => now) <$> cache !! key) /\
  (forall query limit,
     BM25Index.lastAccessed <$>
       snd (BM25Index.search c now userId query limit cache) !! key
     = (fun _ => now) <$> cache !! key) /\
  (forall query ids,
     BM25Index.lastAccessed <$>
       snd (BM25Index.getScoresForDocuments c now userId query ids cache) !! key
     = (fun _ => now) <$> cache !! key) /\
  snd (BM25Index.hasIndex userId cache) = cache /\
  snd (BM25Index.getDocumentCount userId cache) = cache /\
  (forall k,
     BM25Index.cleanupIdleIndexes now cache !! k
     = match cache !! k with
       | Some entry =>
           if 30 * 60 * 1000 <? now - BM25Index.lastAccessed entry
           then None else Some entry
       | None => None
       end) /\
  BM25Index.CLEANUP_INTERVAL = 5 * 60 * 1000.
Proof.
  intros key. repeat split.
  - intros. unfold BM25Index.buildIndex. fold key. now rewrite lookup_insert_eq.
  - intros document.
    destruct (addDocument_entry c now userId document cache) as (entry & E & _ & H).
    fold key in E. rewrite E. cbn. now rewrite H.
  - intros. apply removeDocument_lastAccessed.
  - intros. apply search_lastAccessed.
  - intros. apply getScoresForDocuments_lastAccessed.
  - intros k. apply cleanupIdleIndexes_lookup.
Qed.

(** C6 as stated fails: an index built at time 0 and read through [hasIndex]
    and [getDocumentCount] half an hour later still has [lastAccessed = 0],
    and the sweep one millisecond after those reads removes it. *)
Lemma C6_hasIndex_does_not_touch :
  let cache0 :=
    BM25Index.buildIndex sample_collaborators 0 1
      [sample_document "42" "hybrid retrieval"] BM25Index.no_options ∅ in
  let '(found, cache1) := BM25Index.hasIndex 1 cache0 in
  let '(count, cache2) := BM25Index.getDocumentCount 1 cache1 in
  found = true /\ count = 1 /\
  BM25Index.lastAccessed <$> cache2 !! BM25Index.getIndexKey 1 = Some 0 /\
  fst (BM25Index.hasIndex 1 (BM25Index.cleanupIdleIndexes (30 * 60 * 1000 + 1) cache2))
  = false.
Proof. vm_compute. repeat split; reflexivity. Qed.

(* ===================================================================== *)
(** ** The rerank stage                                                   *)
(* ===================================================================== *)

(** [rerankWithBM25] returns its input unchanged when the retriever has no
    index service, when [hasIndex] answers no, and when [hasIndex] or
    [getScoresForDocuments] throws; it rescores only after [hasIndex]
    answered yes. *)
Lemma rerankWithBM25_guarded {S} (r : Retriever.HybridRetriever S) query results s :
  let out := fst (Retriever.rerankWithBM25 r query results s) in
  (Retriever.bm25IndexService r = None -> out = results) /\
  (forall service,
     Retriever.bm25IndexService r = Some service ->
     (forall s', Retriever.hasIndex service (Retriever.userId r) s = (Ok false, s') ->
                 out = results) /\
     (forall e s', Retriever.hasIndex service (Retriever.userId r) s = (Throw e, s') ->
                   out = results) /\
     (forall s1 e s2,
        Retriever.hasIndex service (Retriever.userId r) s = (Ok true, s1) ->
        Retriever.getScoresForDocuments service (Retriever.userId r) query
          (List.map (fun x => Retriever.String_of_id (Retriever.id x)) results) s1
        = (Throw e, s2) ->
        out = results) /\
     (out = results \/
      exists s1 bm25Scores s2,
        Retriever.hasIndex service (Retriever.userId r) s = (Ok true, s1) /\
        Retriever.getScoresForDocuments service (Retriever.userId r) query
          (List.map (fun x => Retriever.String_of_id (Retriever.id x)) results) s1
        = (Ok bm25Scores, s2) /\
        out = Retriever.rescore r results bm25Scores)).
Proof.
  intros out. subst out. unfold Retriever.rerankWithBM25, Retriever.rerank_try.
  split.
  - intros ->. now destruct results.
  - intros service ->. repeat split.
    + intros s' ->. now destruct results.
    + intros e s' ->. now destruct results.
    + intros s1 e s2 -> ->. now destruct results.
    + destruct results as [|x results]; [now left|].
      destruct (Retriever.hasIndex _ _ _) as [[[|]|e] s1]; [|now left|now left].
      destruct (Retriever.getScoresForDocuments _ _ _ _ _) as [[scores|e] s2] eqn:E;
        [|now left].
      right. exists s1, scores, s2. auto.
Qed.

(** C5.  Retrieval returns, whatever the index service does.  Its result is
    the fused list unchanged, unless reranking is enabled, the service says
    the tenant has an index and hands over the scores: an answer no, and an
    error thrown by either call of the stage, leave the fused list as it is. *)
Theorem C5_rerank_guarded {S} (r : Retriever.HybridRetriever S) query s :
  let merged :=
    Retriever.mergeResultsWithRRF r
      (Retriever.vectorSearch r query) (Retriever.keywordSearch r query) in
  let ids := List.map (fun x => Retriever.String_of_id (Retriever.id x)) merged in
  let out := fst (Retriever.getSearchResults r query s) in
  (exists documents s',
     Retriever._getRelevantDocuments r query s = (Ok documents, s') /\
     documents = Retriever.convertToDocuments out) /\
  (out = merged \/
   exists service s1 bm25Scores s2,
     Retriever.useBM25Rerank r = true /\
     Retriever.bm25IndexService r = Some service /\
     Retriever.hasIndex service (Retriever.userId r) s = (Ok true, s1) /\
     Retriever.getScoresForDocuments service (Retriever.userId r) query ids s1
     = (Ok bm25Scores, s2) /\
     out = Retriever.rescore r merged bm25Scores) /\
  (forall service,
     Retriever.bm25IndexService r = Some service ->
     (forall s', Retriever.hasIndex service (Retriever.userId r) s = (Ok false, s') ->
                 out = merged) /\
     (forall e s', Retriever.hasIndex service (Retriever.userId r) s = (Throw e, s') ->
                   out = merged) /\
     (forall s1 e s2,
        Retriever.hasIndex service (Retriever.userId r) s = (Ok true, s1) ->
        Retriever.getScoresForDocuments service (Retriever.userId r) query ids s1
        = (Throw e, s2) ->
        out = merged)).
Proof.
  intros merged ids out.
  destruct (rerankWithBM25_guarded r query merged s) as [Hnone Hsome].
  cbn zeta in Hnone, Hsome.
  assert (Hout : out = merged \/
                 (Retriever.useBM25Rerank r = true /\
                  out = fst (Retriever.rerankWithBM25 r query merged s))).
  { subst out. unfold Retriever.getSearchResults. fold merged.
    destruct (Retriever.useBM25Rerank r); [|now left].
    destruct (Retriever.bm25IndexService r); cbn [andb bool_decide]; [|now left].
    rewrite bool_decide_true by eauto. right. auto. }
  split; [|split].
  - subst out. unfold Retriever._getRelevantDocuments.
    destruct (Retriever.getSearchResults r query s) as [results s'].
    exists (Retriever.convertToDocuments results), s'. split; reflexivity.
  - destruct Hout as [Hout|[Hon Hout]]; [now left|].
    destruct (Retriever.bm25IndexService r) as [service|] eqn:Hsvc.
    + destruct (Hsome service eq_refl) as (_ & _ & _ & [Hsame|Hrun]).
      * left. congruence.
      * destruct Hrun as (s1 & scores & s2 & H1 & H2 & H3).
        right. exists service, s1, scores, s2. repeat split; try assumption.
        congruence.
    + left. rewrite Hout. now apply Hnone.
  - intros service Hsvc. destruct (Hsome service Hsvc) as (Hno & Hthrow & Hthrow' & _).
    destruct Hout as [Hout|[_ Hout]]; repeat split; intros; try assumption;
      rewrite Hout; eauto.
Qed.

Lemma js_max2_num a b : js_max2 (Num a) (Num b) = Num (Qmax a b).
Proof. reflexivity. Qed.

Lemma Qmax_cases a b : Qmax a b = a \/ Qmax a b = b.
Proof.
  unfold Qmax, GenericMinMax.gmax. destruct (a ?= b)%Q; auto.
Qed.

(** The running maximum over numbers. *)
Lemma fold_max_numbers l a :
  Forall (fun x => exists q, x = Num q) l ->
  exists M,
    fold_left js_max2 l (Num a) = Num M /\
    (a <= M)%Q /\
    (forall q, Num q ∈ l -> (q <= M)%Q) /\
    Num M ∈ Num a :: l.
Proof.
  intros H. revert a. induction H as [|x l [q ->] _ IH]; intros a; cbn [fold_left].
  - exists a. repeat split; [apply Qle_refl| |left]. intros q Hq. inversion Hq.
  - rewrite js_max2_num. destruct (IH (Qmax a q)) as (M & -> & Hle & Hall & Hin).
    exists M. repeat split.
    + eapply Qle_trans; [apply Q.le_max_l|exact Hle].
    + intros q' Hq'. apply elem_of_cons in Hq' as [[= ->]|Hq']; [|now apply Hall].
      eapply Qle_trans; [apply Q.le_max_r|exact Hle].
    + apply elem_of_cons in Hin as [Hin|Hin]; [|now do 2 right].
      rewrite Hin. destruct (Qmax_cases a q) as [->| ->]; [left|right; left].
Qed.

(** [Math.max(...l, 0.001)] over numbers: the largest of them, floored. *)
Lemma Math_max_floor l :
  Forall (fun x => exists q, x = Num q) l ->
  exists M,
    Math_max (l ++ [Num Retriever.EPSILON]) = Num M /\
    (Retriever.EPSILON <= M)%Q /\
    (forall q, Num q ∈ l -> (q <= M)%Q) /\
    Num M ∈ l ++ [Num Retriever.EPSILON].
Proof.
  intros H. unfold Math_max. destruct H as [|x l [q ->] H].
  - exists Retriever.EPSILON. cbn. repeat split; [apply Qle_refl| |left].
    intros q Hq. inversion Hq.
  - cbn [app fold_left js_max2].
    destruct (fold_max_numbers (l ++ [Num Retriever.EPSILON]) q)
      as (M & -> & Hq & Hall & Hin).
    { apply Forall_app. split; [exact H|]. repeat constructor. now eexists. }
    exists M. repeat split.
    + apply Hall. apply elem_of_app. right. left.
    + intros q' Hq'. apply elem_of_cons in Hq' as [[= ->]|Hq']; [exact Hq|].
      apply Hall. apply elem_of_app. now left.
    + exact Hin.
Qed.

Lemma sort_key_ok x :
  score_ok (Retriever.hybridScore x) ->
  exists h, Retriever.sort_key x = Num h /\ (0 <= h)%Q.
Proof.
  unfold Retriever.sort_key, js_or, score_ok.
  destruct (Retriever.hybridScore x) as [q| | |]; cbn; intros H; try contradiction.
  - destruct (Qeq_bool q 0); cbn; eexists; (split; [reflexivity|]);
      [apply Qle_refl|exact H].
  - eexists; split; [reflexivity|apply Qle_refl].
Qed.

Lemma amap_get_elem {K V} `{EqDecision K} (k : K) (m : list (K * V)) v :
  amap_get k m = Some v -> (k, v) ∈ m.
Proof.
  induction m as [|[k' v'] m IH]; cbn; [discriminate|].
  destruct (decide (k = k')) as [->|_]; [intros [= ->]; left|right; auto].
Qed.

Lemma js_div_num a b : (0 < b)%Q -> js_div (Num a) (Num b) = Num (a / b).
Proof.
  intros Hb. cbn. destruct (Qeq_bool b 0) eqn:E; [|reflexivity].
  apply Qeq_bool_eq in E. rewrite E in Hb. now apply Qlt_irrefl in Hb.
Qed.

Lemma ratio_in_unit a b : (0 <= a)%Q -> (a <= b)%Q -> (0 < b)%Q ->
  (0 <= a / b)%Q /\ (a / b <= 1)%Q.
Proof.
  intros Ha Hab Hb. split.
  - apply Qle_shift_div_l; [exact Hb|]. now rewrite Qmult_0_l.
  - apply Qle_shift_div_r; [exact Hb|]. now rewrite Qmult_1_l.
Qed.

Lemma blend_in_unit x y w :
  (0 <= x)%Q -> (x <= 1)%Q -> (0 <= y)%Q -> (y <= 1)%Q -> (0 <= w)%Q -> (w <= 1)%Q ->
  (0 <= x * (1 - w) + y * w)%Q /\ (x * (1 - w) + y * w <= 1)%Q.
Proof. intros. split; nra. Qed.

(** The scores of the rerank stage: both maxima are numbers floored at
    0.001, and every new score is the blend of two ratios in [0,1]. *)
Lemma rescore_blend {S} (r : Retriever.HybridRetriever S)
    results bm25Scores :
  (0 <= Retriever.bm25Weight r)%Q -> (Retriever.bm25Weight r <= 1)%Q ->
  Forall (fun x => score_ok (Retriever.hybridScore x)) results ->
  Forall (fun kv => exists q, snd kv = Num q /\ (0 <= q)%Q) bm25Scores ->
  exists maxRRF maxBM25,
    Math_max (List.map Retriever.sort_key results ++ [Num Retriever.EPSILON])
      = Num maxRRF /\
    Math_max (List.map snd bm25Scores ++ [Num Retriever.EPSILON]) = Num maxBM25 /\
    (1 # 1000 <= maxRRF)%Q /\ (1 # 1000 <= maxBM25)%Q /\
    forall y, y ∈ Retriever.rescore r results bm25Scores ->
      in_unit_interval (Retriever.hybridScore y) /\
      exists x h b,
        x ∈ results /\
        Retriever.sort_key x = Num h /\
        default (Num 0)
          (amap_get (Retriever.String_of_id (Retriever.id x)) bm25Scores) = Num b /\
        Retriever.hybridScore y
        = Num (blend h maxRRF b maxBM25 (Retriever.bm25Weight r)).
Proof.
  intros Hw0 Hw1 Hres Hsc.
  destruct (Math_max_floor (List.map Retriever.sort_key results))
    as (MR & HMR & HeR & HallR & _).
  { apply Forall_fmap. eapply Forall_impl; [exact Hres|].
    intros x Hx. unfold compose. destruct (sort_key_ok x Hx) as (h & -> & _).
    now eexists. }
  destruct (Math_max_floor (List.map snd bm25Scores)) as (MB & HMB & HeB & HallB & _).
  { apply Forall_fmap. eapply Forall_impl; [exact Hsc|].
    intros kv (q & Hq & _). unfold compose. exists q. exact Hq. }
  exists MR, MB. split; [exact HMR|]. split; [exact HMB|].
  split; [exact HeR|]. split; [exact HeB|].
  assert (HposR : (0 < MR)%Q) by (eapply Qlt_le_trans; [|exact HeR]; reflexivity).
  assert (HposB : (0 < MB)%Q) by (eapply Qlt_le_trans; [|exact HeB]; reflexivity).
  intros y Hy. unfold Retriever.rescore in Hy. rewrite js_sort_perm in Hy.
  rewrite HMR, HMB in Hy.
  apply list_elem_of_fmap in Hy as [x [-> Hx]].
  rewrite Forall_forall in Hres. specialize (Hres x Hx).
  destruct (sort_key_ok x Hres) as (h & Hh & Hh0).
  assert (HhM : (h <= MR)%Q).
  { apply HallR. rewrite <- Hh. now apply list_elem_of_fmap_2. }
  assert (Hb : exists b,
             default (Num 0)
               (amap_get (Retriever.String_of_id (Retriever.id x)) bm25Scores) = Num b /\
             (0 <= b)%Q /\ (b <= MB)%Q).
  { destruct (amap_get _ bm25Scores) as [v|] eqn:E; cbn [default].
    - apply amap_get_elem in E. rewrite Forall_forall in Hsc.
      destruct (Hsc _ E) as (q & Hq & Hq0). cbn [snd] in Hq. subst v.
      exists q. repeat split; [exact Hq0|]. apply HallB.
      apply list_elem_of_fmap. eexists. split; [|exact E]. reflexivity.
    - exists 0%Q. repeat split; [apply Qle_refl|].
      eapply Qle_trans; [|exact HeB]. discriminate. }
  destruct Hb as (b & Hb & Hb0 & HbM).
  destruct (ratio_in_unit h MR Hh0 HhM HposR) as [Hx0 Hx1].
  destruct (ratio_in_unit b MB Hb0 HbM HposB) as [Hy0 Hy1].
  assert (Hscore :
            Retriever.finalScore r (Num MR) (Num MB) bm25Scores x
            = Num (h / MR * (1 + - Retriever.bm25Weight r)
                   + b / MB * Retriever.bm25Weight r)).
  { unfold Retriever.finalScore. rewrite Hb, Hh.
    rewrite !js_div_num by assumption. reflexivity. }
  cbn [Retriever.with_hybridScore Retriever.hybridScore]. rewrite Hscore.
  split.
  - cbn [in_unit_interval].
    destruct (blend_in_unit (h / MR) (b / MB) (Retriever.bm25Weight r))
      as [H0 H1]; try assumption.
    split; [exact H0|exact H1].
  - exists x, h, b. repeat split; try assumption.
Qed.


(** Under the same conditions the rescored list is the input list, each
    result carrying the blend of its own two scores, in another order. *)
Lemma rescore_blended {S} (r : Retriever.HybridRetriever S) results bm25Scores
    maxRRF maxBM25 :
  Forall (fun x => score_ok (Retriever.hybridScore x)) results ->
  Forall (fun kv => exists q, snd kv = Num q /\ (0 <= q)%Q) bm25Scores ->
  Math_max (List.map Retriever.sort_key results ++ [Num Retriever.EPSILON])
    = Num maxRRF ->
  Math_max (List.map snd bm25Scores ++ [Num Retriever.EPSILON]) = Num maxBM25 ->
  (1 # 1000 <= maxRRF)%Q -> (1 # 1000 <= maxBM25)%Q ->
  Permutation (Retriever.rescore r results bm25Scores)
    (List.map (blended (Retriever.bm25Weight r) maxRRF maxBM25 bm25Scores) results).
Proof.
  intros Hres Hsc HMR HMB HeR HeB.
  assert (HposR : (0 < maxRRF)%Q) by (eapply Qlt_le_trans; [|exact HeR]; reflexivity).
  assert (HposB : (0 < maxBM25)%Q) by (eapply Qlt_le_trans; [|exact HeB]; reflexivity).
  unfold Retriever.rescore. rewrite js_sort_perm, HMR, HMB.
  erewrite map_ext_in; [reflexivity|].
  intros x Hx. apply list_elem_of_In in Hx.
  rewrite Forall_forall in Hres. specialize (Hres x Hx).
  destruct (sort_key_ok x Hres) as (h & Hh & _).
  assert (Hb : exists b,
             default (Num 0)
               (amap_get (Retriever.String_of_id (Retriever.id x)) bm25Scores) = Num b).
  { destruct (amap_get _ bm25Scores) as [v|] eqn:E; cbn [default]; [|now exists 0%Q].
    apply amap_get_elem in E. rewrite Forall_forall in Hsc.
    destruct (Hsc _ E) as (q & Hq & _). cbn [snd] in Hq. subst v. now exists q. }
  destruct Hb as [b Hb].
  unfold blended, rrf_of, bm25_of, Retriever.finalScore. rewrite Hb, Hh.
  rewrite !js_div_num by assumption. reflexivity.
Qed.

(** C4 (as amended).  When the stage rescores a result set whose fused
    scores are not negative, with BM25 scores that are not negative and a
    weight in [0,1]: [maxRRF] and [maxBM25] are the maxima over the set
    floored at 0.001, the rescored list is the input list with each result
    carrying [(hybridScore/maxRRF)*(1-bm25Weight) + (bm25Score/maxBM25)*bm25Weight]
    of its own two scores, in another order, and every new score lies in
    [0,1]. *)
Theorem C4_finalScore_in_unit_interval {S} (r : Retriever.HybridRetriever S)
    results bm25Scores :
  (0 <= Retriever.bm25Weight r)%Q -> (Retriever.bm25Weight r <= 1)%Q ->
  Forall (fun x => score_ok (Retriever.hybridScore x)) results ->
  Forall (fun kv => exists q, snd kv = Num q /\ (0 <= q)%Q) bm25Scores ->
  exists maxRRF maxBM25,
    Math_max (List.map Retriever.sort_key results ++ [Num Retriever.EPSILON])
      = Num maxRRF /\
    Math_max (List.map snd bm25Scores ++ [Num Retriever.EPSILON]) = Num maxBM25 /\
    (1 # 1000 <= maxRRF)%Q /\ (1 # 1000 <= maxBM25)%Q /\
    Forall (fun x => (rrf_of x <= maxRRF)%Q /\ (bm25_of bm25Scores x <= maxBM25)%Q)
      results /\
    Permutation (Retriever.rescore r results bm25Scores)
      (List.map (blended (Retriever.bm25Weight r) maxRRF maxBM25 bm25Scores) results) /\
    Forall (fun y => in_unit_interval (Retriever.hybridScore y))
      (Retriever.rescore r results bm25Scores).
Proof.
  intros Hw0 Hw1 Hres Hsc.
  destruct (rescore_blend r results bm25Scores Hw0 Hw1 Hres Hsc)
    as (maxRRF & maxBM25 & HmaxRRF & HmaxBM25 & HfloorRRF & HfloorBM25 & Hscores).
  pose proof (rescore_blended r results bm25Scores maxRRF maxBM25 Hres Hsc
                HmaxRRF HmaxBM25 HfloorRRF HfloorBM25) as Hperm.
  exists maxRRF, maxBM25.
  split; [exact HmaxRRF|]. split; [exact HmaxBM25|].
  split; [exact HfloorRRF|]. split; [exact HfloorBM25|].
  split; [|split; [exact Hperm|]].
  - destruct (Math_max_floor (List.map Retriever.sort_key results))
      as (MR & HMR & _ & HallR & _).
    { apply Forall_fmap. eapply Forall_impl; [exact Hres|].
      intros x Hx. unfold compose. destruct (sort_key_ok x Hx) as (h & -> & _).
      now eexists. }
    destruct (Math_max_floor (List.map snd bm25Scores)) as (MB & HMB & HeB & HallB & _).
    { apply Forall_fmap. eapply Forall_impl; [exact Hsc|].
      intros kv (q & Hq & _). unfold compose. exists q. exact Hq. }
    rewrite HMR in HmaxRRF. injection HmaxRRF as <-.
    rewrite HMB in HmaxBM25. injection HmaxBM25 as <-.
    apply Forall_forall. intros x Hx. split.
    + unfold rrf_of. rewrite Forall_forall in Hres.
      destruct (sort_key_ok x (Hres x Hx)) as (h & Hh & _). rewrite Hh.
      apply HallR. rewrite <- Hh. now apply list_elem_of_fmap_2.
    + unfold bm25_of.
      destruct (amap_get _ bm25Scores) as [v|] eqn:E; cbn [default].
      * apply amap_get_elem in E. rewrite Forall_forall in Hsc.
        destruct (Hsc _ E) as (q & Hq & _). cbn [snd] in Hq. subst v.
        apply HallB. apply list_elem_of_fmap. eexists. split; [|exact E]. reflexivity.
      * eapply Qle_trans; [|exact HeB]. discriminate.
  - apply Forall_forall. intros y Hy. now destruct (Hscores y Hy).
Qed.

Lemma C4_finalScore_in_unit_interval_witness :
  let results := [sample_result 1 NaN; sample_result 2 (Num (1 # 61))] in
  let bm25Scores := [(u "2", Num 2); (u "1", Num (1 # 2))] in
  exists maxRRF maxBM25,
    Math_max (List.map Retriever.sort_key results ++ [Num Retriever.EPSILON])
      = Num maxRRF /\
    Math_max (List.map snd bm25Scores ++ [Num Retriever.EPSILON]) = Num maxBM25 /\
    (1 # 1000 <= maxRRF)%Q /\ (1 # 1000 <= maxBM25)%Q /\
    Forall (fun x => (rrf_of x <= maxRRF)%Q /\ (bm25_of bm25Scores x <= maxBM25)%Q)
      results /\
    Permutation (Retriever.rescore sample_retriever results bm25Scores)
      (List.map
         (blended (Retriever.bm25Weight sample_retriever) maxRRF maxBM25 bm25Scores)
         results) /\
    Forall (fun y => in_unit_interval (Retriever.hybridScore y))
      (Retriever.rescore sample_retriever results bm25Scores).
Proof.
  apply (C4_finalScore_in_unit_interval sample_retriever
           [sample_result 1 NaN; sample_result 2 (Num (1 # 61))]
           [(u "2", Num 2); (u "1", Num (1 # 2))]).
  - discriminate.
  - discriminate.
  - repeat constructor. discriminate.
  - repeat constructor; eexists; (split; [reflexivity|discriminate]).
Defined.

(** C4 as the specification states it fails: the stage takes [bm25Weight]
    as the caller gives it.  With [{ useBM25Rerank: true, bm25Weight: 2 }] the
    retrieval of "alpha" reranks one result to the score
    [0 * (1 - 2) + 1 * 2 = 2]; with [bm25Weight: -1] the score is [-1]. *)
Lemma C4_weight_not_validated :
  let cache :=
    BM25Index.buildIndex sample_collaborators 0 7
      [sample_document "1" "alpha"; sample_document "2" "beta"] BM25Index.no_options ∅ in
  let scores bm25Weight :=
    List.map (fun x => (Retriever.id x, Retriever.hybridScore x))
      (fst (Retriever.getSearchResults
              (Retriever.new_HybridRetriever sample_pool sample_embeddings 7
                 (with_rerank_weight 1000 bm25Weight))
              (u "alpha") cache)) in
  scores 2%Q = [(1, Num (0 / (1 # 1000) * (1 + - 2) + 1 / 1 * 2))] /\
  ~ in_unit_interval (Num (0 / (1 # 1000) * (1 + - 2) + 1 / 1 * 2)) /\
  scores (-1)%Q = [(1, Num (0 / (1 # 1000) * (1 + - -1) + 1 / 1 * -1))] /\
  ~ in_unit_interval (Num (0 / (1 # 1000) * (1 + - -1) + 1 / 1 * -1)).
Proof.
  intros cache scores.
  split; [vm_compute; reflexivity|]. split; [intros [_ H]; vm_compute in H; now apply H|].
  split; [vm_compute; reflexivity|]. intros [H _]. vm_compute in H. now apply H.
Qed.

(** The conditions on the scores are needed as well: a negative fused score
    or a negative BM25 score is blended to a negative score. *)
Example rescore_of_negative_scores :
  List.map Retriever.hybridScore
    (Retriever.rescore sample_retriever [sample_result 1 (Num (-1))] [(u "1", Num 1)])
  = [Num (-1 / (1 # 1000) * (1 + - (3 # 10)) + 1 / 1 * (3 # 10))] /\
  List.map Retriever.hybridScore
    (Retriever.rescore sample_retriever [sample_result 1 (Num 1)] [(u "1", Num (-1))])
  = [Num (1 / 1 * (1 + - (3 # 10)) + -1 / (1 # 1000) * (3 # 10))].
Proof. vm_compute. split; reflexivity. Qed.

(* ===================================================================== *)
(** ** Vector search                                                      *)
(* ===================================================================== *)

Lemma vector_statement_rejected pool values :
  Store.run_similarity pool Retriever.vector_statement values
  = Throw (Store.error "syntax error").
Proof. reflexivity. Qed.

(** C2 (the code departs from the claim).  The statement of [vectorSearch]
    carries the line [const keywords = this.extractKeywords(query);] where
    [similaritySearch] has the similarity floor; the store rejects it and the
    handler turns the failure into an empty list, for every tenant and query.
    In the scenario with A (0.9) and B (0.4), no keyword match and
    [minSimilarity = 0.3], the retriever returns nothing, where
    [similaritySearch] on the same store returns A then B. *)
Theorem C2_vectorSearch_returns_nothing :
  (forall S (r : Retriever.HybridRetriever S) query, Retriever.vectorSearch r query = []) /\
  Retriever.minSimilarity sample_retriever = (3 # 10)%Q /\
  Retriever.keywordSearch sample_retriever (u "zzz") = [] /\
  fst (Retriever.getSearchResults sample_retriever (u "zzz") tt) = [] /\
  VectorStore.similaritySearch sample_pool sample_embeddings (u "zzz") 7 (Some 5)
    (Some (3 # 10)%Q)
  = Ok [ (1, u "alpha", (9 # 10)%Q); (2, u "beta", (4 # 10)%Q) ].
Proof.
  split.
  - intros S r query. unfold Retriever.vectorSearch.
    destruct (Retriever.embeddings r query); [|reflexivity].
    destruct (Store.connect (Retriever.pool r)); [|reflexivity].
    now rewrite vector_statement_rejected.
  - vm_compute. repeat split; reflexivity.
Qed.

(** Left to its SQL lines the statement still has no floor: on the same
    store it would return the row of similarity 0.1 as well. *)
Example vector_statement_has_no_floor :
  Store.run_similarity sample_pool (List.filter is_sql Retriever.vector_statement)
    [ Store.PVector [0%Q]; Store.PInt 7; Store.PNumber (3 # 10); Store.PInt 10 ]
  = Ok [ (1, u "alpha", (9 # 10)%Q); (2, u "beta", (4 # 10)%Q);
         (4, u "delta", (1 # 10)%Q) ].
Proof. vm_compute. reflexivity. Qed.

(** The sibling query does what the claim says: the rows of the tenant at
    or above the floor, by decreasing similarity, cut at [k]. *)
Lemma similaritySearch_floor_order pool embedQuery query userId k floor e :
  embedQuery query = Ok e -> Store.connect pool = Ok tt -> 0 <= k ->
  exists ordered,
    VectorStore.similaritySearch pool embedQuery query userId (Some k) (Some floor)
    = Ok (List.map
            (fun row => (Store.row_id row, Store.row_content row,
                         Store.similarity_to pool e row))
            (firstn (Z.to_nat k) ordered)) /\
    Permutation ordered
      (List.filter
         (fun row => bool_decide (Store.row_userId row = userId) &&
                     Qle_bool floor (Store.similarity_to pool e row))
         (Store.Knowledge pool)) /\
    StronglySorted
      (fun a b => (Store.similarity_to pool e b <= Store.similarity_to pool e a)%Q)
      ordered.
Proof.
  intros He Hc Hk. unfold VectorStore.similaritySearch. rewrite He, Hc.
  cbn [default]. unfold Store.run_similarity.
  cbn [VectorStore.statement Store.parse_statement Store.parse_floors
       Store.select_vector Store.where_user Store.floors Store.order_vector
       Store.limit_param Store.vector_param Store.int_param Store.number_param
       Store.param Store.bind_floors mapM fst snd lookup list_lookup mbind
       option_bind mret option_ret].
  unfold id. destruct (k <? 0) eqn:Ek; [apply Z.ltb_lt in Ek; lia|].
  eexists. split; [reflexivity|]. split.
  - rewrite js_sort_perm. apply Permutation_refl', filter_ext.
    intros row. cbn [forallb fst snd]. now rewrite andb_true_r.
  - eapply StronglySorted_weaken; [|apply js_sort_sorted].
    + intros a b H. unfold may_precede in H. cbn [js_pos] in H.
      apply negb_false_iff, Qle_bool_iff in H. unfold Store.similarity_to. lra.
    + intros a b H. unfold may_precede. cbn [js_pos] in *.
      apply negb_true_iff in H. apply negb_false_iff, Qle_bool_iff.
      apply not_true_iff_false in H. rewrite Qle_bool_iff in H. lra.
    + intros a b c. unfold may_precede. cbn [js_pos].
      rewrite !negb_false_iff, !Qle_bool_iff. lra.
Qed.

(* ===================================================================== *)
(** ** Keyword search: escaping                                           *)
(* ===================================================================== *)

Lemma replace_all_app c by_ s1 s2 :
  Retriever.replace_all c by_ (s1 ++ s2)
  = Retriever.replace_all c by_ s1 ++ Retriever.replace_all c by_ s2.
Proof. unfold Retriever.replace_all. apply flat_map_app. Qed.

Lemma replace_all_unit c by_ d :
  Retriever.replace_all c by_ [d] = if (d =? c)%N then by_ else [d].
Proof.
  unfold Retriever.replace_all. cbn [flat_map].
  destruct (d =? c)%N; [apply app_nil_r|reflexivity].
Qed.

(** The three passes of [escapeSQL] act on every code unit by itself. *)
Lemma escapeSQL_units str : Retriever.escapeSQL str = flat_map escape_unit str.
Proof.
  unfold Retriever.escapeSQL. induction str as [|c str IH]; [reflexivity|].
  change (c :: str) with ([c] ++ str).
  rewrite !replace_all_app, IH. change ([c] ++ str) with (c :: str).
  cbn [flat_map]. f_equal.
  unfold escape_unit. rewrite replace_all_unit.
  destruct (c =? Store.QUOTE)%N eqn:Eq; [reflexivity|].
  rewrite replace_all_unit.
  destruct (c =? Store.PERCENT)%N eqn:Ep; [reflexivity|].
  rewrite replace_all_unit.
  destruct (c =? Store.UNDERSCORE)%N eqn:Eu; reflexivity.
Qed.

(** The operand of a keyword without the code unit 0 lexes as one literal
    whose value is the pattern with the quotes single again: a quote in a
    keyword never ends the literal. *)
Lemma lex_escaped kw :
  Store.NUL ∉ kw ->
  Store.lex_body (flat_map escape_unit kw ++ [Store.PERCENT; Store.QUOTE])
  = Some (flat_map pattern_unit kw ++ [Store.PERCENT], []).
Proof.
  induction kw as [|c kw IH]; intros Hnul; [reflexivity|].
  apply not_elem_of_cons in Hnul as [Hc Hnul]. specialize (IH Hnul).
  assert (En : (c =? Store.NUL)%N = false) by (apply N.eqb_neq; congruence).
  cbn [flat_map]. unfold escape_unit at 1, pattern_unit at 1.
  destruct (c =? Store.QUOTE)%N eqn:Eq.
  - apply N.eqb_eq in Eq. subst c. cbn -[flat_map]. now rewrite IH.
  - destruct (c =? Store.PERCENT)%N eqn:Ep.
    + apply N.eqb_eq in Ep. subst c. cbn -[flat_map]. now rewrite IH.
    + destruct (c =? Store.UNDERSCORE)%N eqn:Eu.
      * apply N.eqb_eq in Eu. subst c. cbn -[flat_map]. now rewrite IH.
      * cbn [app Store.lex_body]. rewrite En, Eq, IH. reflexivity.
Qed.

(** With the code unit 0 in the keyword the operand does not lex. *)
Lemma lex_escaped_nul kw tail :
  Store.NUL ∈ kw -> Store.lex_body (flat_map escape_unit kw ++ tail) = None.
Proof.
  induction kw as [|c kw IH]; intros Hnul; [inversion Hnul|].
  cbn [flat_map]. destruct (decide (c = Store.NUL)) as [->|Hc]; [reflexivity|].
  apply elem_of_cons in Hnul as [Hnul|Hnul]; [congruence|]. specialize (IH Hnul).
  assert (En : (c =? Store.NUL)%N = false) by (apply N.eqb_neq; congruence).
  unfold escape_unit at 1.
  destruct (c =? Store.QUOTE)%N eqn:Eq.
  - apply N.eqb_eq in Eq. subst c. cbn -[flat_map]. now rewrite IH.
  - destruct (c =? Store.PERCENT)%N eqn:Ep.
    + apply N.eqb_eq in Ep. subst c. cbn -[flat_map]. now rewrite IH.
    + destruct (c =? Store.UNDERSCORE)%N eqn:Eu.
      * apply N.eqb_eq in Eu. subst c. cbn -[flat_map]. now rewrite IH.
      * cbn [app Store.lex_body]. rewrite En, Eq, IH. reflexivity.
Qed.

Lemma lex_operand kw :
  Store.NUL ∉ kw ->
  Store.lex_literal (Retriever.ilike_operand kw)
  = Some (Store.PERCENT :: flat_map pattern_unit kw ++ [Store.PERCENT], []).
Proof.
  intros Hnul. unfold Retriever.ilike_operand. rewrite escapeSQL_units.
  cbn [app Store.lex_literal Store.lex_body].
  cbn [N.eqb Pos.eqb Store.QUOTE Store.PERCENT Store.NUL].
  change [37%N; 39%N] with [Store.PERCENT; Store.QUOTE].
  now rewrite lex_escaped.
Qed.

Lemma lex_operand_nul kw :
  Store.NUL ∈ kw -> Store.lex_literal (Retriever.ilike_operand kw) = None.
Proof.
  intros Hnul. unfold Retriever.ilike_operand. rewrite escapeSQL_units.
  cbn [app Store.lex_literal Store.lex_body].
  cbn [N.eqb Pos.eqb Store.QUOTE Store.PERCENT Store.NUL].
  now rewrite lex_escaped_nul.
Qed.

(** Without a backslash in the keyword the pattern is: anything, the units
    of the keyword as literals, anything. *)
Lemma parse_escaped kw :
  Store.BACKSLASH ∉ kw ->
  Store.like_parse false (flat_map pattern_unit kw ++ [Store.PERCENT])
  = Some (List.map Store.Literal kw ++ [Store.AnySequence]).
Proof.
  induction kw as [|c kw IH]; intros Hkw; [reflexivity|].
  apply not_elem_of_cons in Hkw as [Hc Hkw]. specialize (IH Hkw).
  cbn [flat_map List.map]. unfold pattern_unit at 1.
  destruct (c =? Store.PERCENT)%N eqn:Ep.
  - apply N.eqb_eq in Ep. subst c. cbn -[flat_map]. now rewrite IH.
  - destruct (c =? Store.UNDERSCORE)%N eqn:Eu.
    + apply N.eqb_eq in Eu. subst c. cbn -[flat_map]. now rewrite IH.
    + cbn [app Store.like_parse]. rewrite Ep, Eu.
      destruct (c =? Store.BACKSLASH)%N eqn:Eb.
      * apply N.eqb_eq in Eb. congruence.
      * now rewrite IH.
Qed.

Lemma match_any s : Store.ilike_match [Store.AnySequence] s = true.
Proof. induction s as [|c s IH]; [reflexivity|]. cbn in *. exact IH. Qed.

Lemma match_literals kw s :
  Store.ilike_match (List.map Store.Literal kw ++ [Store.AnySequence]) s = prefix_ci kw s.
Proof.
  revert s. induction kw as [|c kw IH]; intros s.
  - rewrite match_any. now destruct s.
  - destruct s as [|d s]; [reflexivity|].
    cbn [List.map app Store.ilike_match prefix_ci]. now rewrite IH.
Qed.

Lemma match_anywhere items s :
  Store.ilike_match (Store.AnySequence :: items) s
  = Store.ilike_match items s ||
    match s with [] => false | _ :: s' => Store.ilike_match (Store.AnySequence :: items) s' end.
Proof. destruct s; reflexivity. Qed.

Lemma match_contains kw s :
  Store.ilike_match (Store.AnySequence :: List.map Store.Literal kw ++ [Store.AnySequence]) s
  = contains_ci s kw.
Proof.
  induction s as [|d s IH]; rewrite match_anywhere, match_literals.
  - reflexivity.
  - rewrite IH. reflexivity.
Qed.

(** A keyword without a backslash (and without the code unit 0, which the
    store does not take) is matched as literal text: the predicate holds
    exactly when the content contains the keyword, letters compared without
    case; [%], [_] and the quote stand for themselves. *)
Lemma keyword_matched_literally kw content :
  Store.BACKSLASH ∉ kw -> Store.NUL ∉ kw ->
  Store.ILIKE content (Retriever.ilike_operand kw) = Ok (contains_ci content kw).
Proof.
  intros Hkw Hnul. unfold Store.ILIKE. rewrite lex_operand by exact Hnul.
  cbn [Store.like_parse]. cbn [N.eqb Pos.eqb Store.PERCENT Store.BACKSLASH].
  change 37%N with Store.PERCENT. rewrite parse_escaped by assumption.
  cbn [fmap option_fmap option_map]. now rewrite match_contains.
Qed.

(** C9 (the code departs from the claim).  [escapeSQL] leaves the escape
    character of the pattern language alone.  For the keyword [\%] the
    operand is ['%\\%%']: an escaped backslash followed by a free [%], and
    the content [a\b], which does not contain [\%], matches.  For the keyword
    [\'] the operand is ['%\''%'] and any content with a quote matches. *)
Theorem C9_backslash_widens_match :
  Retriever.escapeSQL (u "\%") = u "\\%" /\
  Store.ILIKE (u "a\b") (Retriever.ilike_operand (u "\%")) = Ok true /\
  contains_ci (u "a\b") (u "\%") = false /\
  Store.ILIKE (u "it's") (Retriever.ilike_operand (u "\'")) = Ok true /\
  contains_ci (u "it's") (u "\'") = false.
Proof. vm_compute. repeat split; reflexivity. Qed.

(* ===================================================================== *)
(** ** Rank fusion                                                        *)
(* ===================================================================== *)

Lemma amap_set_elem {K V} `{EqDecision K} (k : K) (v : V) (m : list (K * V)) x :
  x ∈ amap_set k v m -> x = (k, v) \/ x ∈ m.
Proof.
  induction m as [|[k' v'] m IH]; cbn.
  - intros H. apply list_elem_of_singleton in H. now left.
  - destruct (decide (k = k')) as [->|_]; intros H;
      apply elem_of_cons in H as [->|H]; auto.
    + right. now right.
    + right. left.
    + destruct (IH H) as [->|Hm]; [now left|right; now right].
Qed.

Lemma amap_set_keys {K V} `{EqDecision K} (k : K) (v : V) (m : list (K * V)) :
  List.map fst (amap_set k v m) = js_set_add (List.map fst m) k.
Proof.
  unfold js_set_add. induction m as [|[k' v'] m IH]; cbn.
  - rewrite decide_False; [reflexivity|]. intros H. inversion H.
  - destruct (decide (k = k')) as [->|Hne]; cbn.
    + rewrite decide_True by left. reflexivity.
    + rewrite IH. destruct (decide (k ∈ List.map fst m)) as [Hin|Hnin].
      * rewrite decide_True by now right. reflexivity.
      * rewrite decide_False; [reflexivity|].
        intros H. apply elem_of_cons in H as [?|?]; contradiction.
Qed.

Lemma indexed_values {A} (l : list A) : List.map snd (Retriever.indexed l) = l.
Proof.
  unfold Retriever.indexed. generalize 0%nat.
  induction l as [|x l IH]; intros n; cbn; [reflexivity|]. now rewrite IH.
Qed.

Lemma add_vector_key {S} (r : Retriever.HybridRetriever S) m ix :
  List.map fst (Retriever.add_vector r m ix)
  = js_set_add (List.map fst m) (Retriever.v_id (snd ix)).
Proof. destruct ix as [i x]. apply amap_set_keys. Qed.

Lemma add_keyword_key {S} (r : Retriever.HybridRetriever S) m ix :
  List.map fst (Retriever.add_keyword r m ix)
  = js_set_add (List.map fst m) (Retriever.kw_id (snd ix)).
Proof.
  destruct ix as [i x]. unfold Retriever.add_keyword.
  destruct (amap_get _ m); apply amap_set_keys.
Qed.

Lemma fold_keys {A B} (step : list (Z * B) -> A -> list (Z * B)) (key : A -> Z) l :
  (forall m x, List.map fst (step m x) = js_set_add (List.map fst m) (key x)) ->
  forall m,
    List.map fst (fold_left step l m)
    = fold_left js_set_add (List.map key l) (List.map fst m).
Proof.
  intros Hstep. induction l as [|x l IH]; intros m; cbn; [reflexivity|].
  now rewrite IH, Hstep.
Qed.

(** The keys of the score map: the ids of the vector list and then of the
    keyword list, each at its first occurrence. *)
Lemma scoreMap_keys {S} (r : Retriever.HybridRetriever S) vs ks :
  List.map fst (Retriever.scoreMap_of r vs ks)
  = js_unique (List.map Retriever.v_id vs ++ List.map Retriever.kw_id ks).
Proof.
  unfold Retriever.scoreMap_of, js_unique.
  rewrite (fold_keys (Retriever.add_keyword r) (fun ix => Retriever.kw_id (snd ix)))
    by apply add_keyword_key.
  rewrite (fold_keys (Retriever.add_vector r) (fun ix => Retriever.v_id (snd ix)))
    by apply add_vector_key.
  rewrite fold_left_app. cbn [List.map].
  rewrite <- !(map_map snd), !indexed_values. reflexivity.
Qed.

(** An invariant of the entries of the score map is kept by both passes. *)
Lemma scoreMap_invariant {S} (r : Retriever.HybridRetriever S)
    (P : Z -> Retriever.ScoreEntry -> Prop) vs ks :
  (forall m ix, (forall k e, (k, e) ∈ m -> P k e) ->
                forall k e, (k, e) ∈ Retriever.add_vector r m ix -> P k e) ->
  (forall m ix, (forall k e, (k, e) ∈ m -> P k e) ->
                forall k e, (k, e) ∈ Retriever.add_keyword r m ix -> P k e) ->
  forall k e, (k, e) ∈ Retriever.scoreMap_of r vs ks -> P k e.
Proof.
  intros Hv Hk. unfold Retriever.scoreMap_of.
  assert (Hfold : forall A (step : list (Z * Retriever.ScoreEntry) -> A -> _) l,
             (forall m x, (forall k e, (k, e) ∈ m -> P k e) ->
                          forall k e, (k, e) ∈ step m x -> P k e) ->
             forall m, (forall k e, (k, e) ∈ m -> P k e) ->
                       forall k e, (k, e) ∈ fold_left step l m -> P k e).
  { intros A step l Hstep. induction l as [|x l IH]; intros m Hm; cbn; [exact Hm|].
    apply IH. now apply Hstep. }
  apply Hfold; [exact Hk|]. apply Hfold; [exact Hv|].
  intros k e H. inversion H.
Qed.

Lemma scoreMap_ids {S} (r : Retriever.HybridRetriever S) vs ks k e :
  (k, e) ∈ Retriever.scoreMap_of r vs ks -> Retriever.id (Retriever.result e) = k.
Proof.
  apply (scoreMap_invariant r (fun k e => Retriever.id (Retriever.result e) = k)).
  - intros m [i x] Hm k' e' H. apply amap_set_elem in H as [[= -> ->]|H]; [reflexivity|].
    now apply Hm.
  - intros m [i x] Hm k' e' H. unfold Retriever.add_keyword in H.
    destruct (amap_get _ m) as [existing|] eqn:E;
      apply amap_set_elem in H as [[= -> ->]|H]; try (now apply Hm); cbn.
    + apply Hm. now apply amap_get_elem.
    + reflexivity.
Qed.

(** The fused results before the sort: one per id, in the order in which
    the ids enter the score map. *)
Lemma fused_ids {S} (r : Retriever.HybridRetriever S) vs ks :
  List.map Retriever.id
    (List.map (fun kv => Retriever.fused (snd kv)) (Retriever.scoreMap_of r vs ks))
  = js_unique (List.map Retriever.v_id vs ++ List.map Retriever.kw_id ks).
Proof.
  rewrite <- (scoreMap_keys r), map_map. apply map_ext_in.
  intros [k e] H. apply list_elem_of_In in H. cbn [snd fst].
  exact (scoreMap_ids r vs ks k e H).
Qed.

(** *** The order of the fusion sort *)

Lemma sort_key_number x : Retriever.sort_key x <> NaN.
Proof.
  unfold Retriever.sort_key, js_or.
  destruct (Retriever.hybridScore x); cbn; try discriminate.
  destruct (Qeq_bool q 0); discriminate.
Qed.

Lemma Qle_bool_shift a b : Qle_bool (b + - a) 0 = Qle_bool b a.
Proof.
  apply eq_true_iff_eq. rewrite !Qle_bool_iff. split; intros H; lra.
Qed.

(** The comparator swaps two results exactly when the second key is larger. *)
Lemma js_pos_sub x y :
  x <> NaN -> y <> NaN -> js_pos (js_sub y x) = negb (key_le y x).
Proof.
  destruct x as [a| | |], y as [b| | |]; cbn; try congruence; intros _ _.
  now rewrite Qle_bool_shift.
Qed.

Lemma by_hybridScore_order a b :
  may_precede Retriever.by_hybridScore a b
  <-> key_le (Retriever.sort_key b) (Retriever.sort_key a) = true.
Proof.
  unfold may_precede, Retriever.by_hybridScore.
  rewrite js_pos_sub by apply sort_key_number.
  destruct (key_le _ _); cbn; intuition congruence.
Qed.

Lemma key_le_total x y : x <> NaN -> y <> NaN -> key_le x y = false -> key_le y x = true.
Proof.
  destruct x as [a| | |], y as [b| | |]; cbn; try congruence; intros _ _ H.
  apply Qle_bool_iff. apply not_true_iff_false in H. rewrite Qle_bool_iff in H. lra.
Qed.

Lemma key_le_trans x y z :
  key_le x y = true -> key_le y z = true -> key_le x z = true.
Proof.
  destruct x as [a| | |], y as [b| | |], z as [c| | |]; cbn; try congruence.
  rewrite !Qle_bool_iff. intros. lra.
Qed.

Lemma by_hybridScore_total a b :
  js_pos (Retriever.by_hybridScore a b) = true ->
  may_precede Retriever.by_hybridScore b a.
Proof.
  intros H. apply by_hybridScore_order. apply key_le_total; try apply sort_key_number.
  destruct (key_le (Retriever.sort_key b) (Retriever.sort_key a)) eqn:E; [|reflexivity].
  apply by_hybridScore_order in E. unfold may_precede in E. congruence.
Qed.

Lemma by_hybridScore_trans a b c :
  may_precede Retriever.by_hybridScore a b ->
  may_precede Retriever.by_hybridScore b c ->
  may_precede Retriever.by_hybridScore a c.
Proof.
  rewrite !by_hybridScore_order. intros Hab Hbc. eapply key_le_trans; eassumption.
Qed.

(** C3, as the code has it.  The fused list is the first [limit] results of
    an ordering of the fused results that is descending in the sort key
    [hybridScore || 0]; results with equal keys keep the order in which their
    ids entered the score map (the vector list first, then the keyword
    list), not the order of their ids. *)
Theorem C3_fused_order {S} (r : Retriever.HybridRetriever S) vs ks :
  let fused :=
    List.map (fun kv => Retriever.fused (snd kv)) (Retriever.scoreMap_of r vs ks) in
  exists ordered,
    Retriever.mergeResultsWithRRF r vs ks = js_slice0 ordered (Retriever.limit r) /\
    Permutation ordered fused /\
    StronglySorted
      (fun a b => key_le (Retriever.sort_key b) (Retriever.sort_key a) = true) ordered /\
    (forall z, List.filter (tied z) ordered = List.filter (tied z) fused) /\
    List.map Retriever.id fused
    = js_unique (List.map Retriever.v_id vs ++ List.map Retriever.kw_id ks).
Proof.
  intros fused. exists (js_sort Retriever.by_hybridScore fused).
  split; [reflexivity|]. split; [apply js_sort_perm|]. split; [|split].
  - eapply StronglySorted_weaken;
      [|apply js_sort_sorted;
        [apply by_hybridScore_total|apply by_hybridScore_trans]].
    intros a b. apply by_hybridScore_order.
  - intros z. apply js_sort_stable. intros a b Ha Hb.
    apply by_hybridScore_order. unfold tied in *.
    apply andb_true_iff in Ha as [Ha _]. apply andb_true_iff in Hb as [_ Hb].
    eapply key_le_trans; eassumption.
  - apply fused_ids.
Qed.

(** C3 as stated fails.  With vector ranks [2, 1], keyword ranks [1, 2] and
    equal weights the two results tie and come out as [2, 1]: in the order of
    the vector list, with the larger id first.  This is so for the retriever
    the constructor builds, whose scores are all [NaN], and for the same
    object with [rrfK] holding 60, whose two scores are equal. *)
Lemma C3_ties_not_broken_by_id :
  let vs := [sample_vector 2 (9 # 10); sample_vector 1 (4 # 10)] in
  let ks := [sample_keyword 1 2; sample_keyword 2 1] in
  let r := Retriever.new_HybridRetriever sample_pool sample_embeddings 7 equal_weights in
  (List.map Retriever.id (Retriever.mergeResultsWithRRF r vs ks) = [2; 1] /\
   List.map Retriever.sort_key (Retriever.mergeResultsWithRRF r vs ks) = [Num 0; Num 0] /\
   ~ ordered_by_score_then_id (Retriever.mergeResultsWithRRF r vs ks)) /\
  (List.map Retriever.id (Retriever.mergeResultsWithRRF (with_rrfK 60 r) vs ks) = [2; 1] /\
   List.map Retriever.hybridScore (Retriever.mergeResultsWithRRF (with_rrfK 60 r) vs ks)
   = [Num (246 # 15128); Num (246 # 15128)] /\
   ~ ordered_by_score_then_id (Retriever.mergeResultsWithRRF (with_rrfK 60 r) vs ks)).
Proof.
  intros vs ks r.
  split; (split; [vm_compute; reflexivity|]); (split; [vm_compute; reflexivity|]);
    intros H; vm_compute in H;
    inversion H as [|x l _ Hall]; subst;
    inversion Hall as [|y l' Hrel _]; subst;
    destruct Hrel as [Hlt|[_ Hid]]; discriminate.
Qed.

(** *** The fused score *)

Lemma rrfScore_undefined {S} (r : Retriever.HybridRetriever S) index :
  Retriever.rrfK r = None -> Retriever.rrfScore r index = NaN.
Proof. unfold Retriever.rrfScore. now intros ->. Qed.

Lemma js_add_NaN_r x : js_add x NaN = NaN.
Proof. now destruct x. Qed.

(** With [this.rrfK] undefined every entry of the score map carries a [NaN]. *)
Lemma scoreMap_undefined {S} (r : Retriever.HybridRetriever S) vs ks k e :
  Retriever.rrfK r = None ->
  (k, e) ∈ Retriever.scoreMap_of r vs ks ->
  Retriever.vectorScore e = NaN \/ Retriever.entry_keywordScore e = NaN.
Proof.
  intros Hk.
  apply (scoreMap_invariant r
           (fun _ e => Retriever.vectorScore e = NaN \/ Retriever.entry_keywordScore e = NaN)).
  - intros m [i x] Hm k' e' H. apply amap_set_elem in H as [[= -> ->]|H]; [|eauto].
    left. cbn [Retriever.vectorScore]. now rewrite rrfScore_undefined.
  - intros m [i x] Hm k' e' H. unfold Retriever.add_keyword in H.
    destruct (amap_get _ m) as [existing|];
      (apply amap_set_elem in H as [[= -> ->]|H]; [|eauto]);
      right; cbn [Retriever.entry_keywordScore]; now rewrite rrfScore_undefined.
Qed.

Lemma merge_undefined {S} (r : Retriever.HybridRetriever S) vs ks :
  Retriever.rrfK r = None ->
  Forall (fun x => Retriever.hybridScore x = NaN) (Retriever.mergeResultsWithRRF r vs ks).
Proof.
  intros Hk. apply Forall_forall. intros x Hx.
  unfold Retriever.mergeResultsWithRRF in Hx.
  apply js_slice0_sublist in Hx. rewrite js_sort_perm in Hx.
  apply list_elem_of_fmap in Hx as [[k e] [-> He]].
  destruct (scoreMap_undefined r vs ks k e Hk He) as [H|H]; cbn; rewrite H;
    [reflexivity|apply js_add_NaN_r].
Qed.

(** C1 (the code departs from the claim).  The constructor never stores
    [rrfK], so [this.rrfK] is undefined whatever the caller supplies, and
    [1 / (this.rrfK + index + 1)] is [NaN]: every fused result has
    [hybridScore = NaN].  An item at rank 1 of both lists, with the default
    options or with [rrfK: 60], gets [NaN] where the claim gives
    [0.7/61 + 0.3/61]. *)
Theorem C1_hybridScore_is_NaN :
  (forall S pool embeddings userId (options : Retriever.HybridRetrieverOptions S) vs ks,
     Forall (fun x => Retriever.hybridScore x = NaN)
       (Retriever.mergeResultsWithRRF
          (Retriever.new_HybridRetriever pool embeddings userId options) vs ks)) /\
  List.map Retriever.hybridScore
    (Retriever.mergeResultsWithRRF sample_retriever
       [sample_vector 1 (9 # 10)] [sample_keyword 1 2]) = [NaN] /\
  List.map Retriever.hybridScore
    (Retriever.mergeResultsWithRRF
       (Retriever.new_HybridRetriever sample_pool sample_embeddings 7 rrfK_60)
       [sample_vector 1 (9 # 10)] [sample_keyword 1 2]) = [NaN] /\
  List.map Retriever.hybridScore
    (Retriever.mergeResultsWithRRF (with_rrfK 60 sample_retriever)
       [sample_vector 1 (9 # 10)] [sample_keyword 1 2])
  = [Num ((1 / (60 + 0 + 1)) * (7 # 10) + (1 / (60 + 0 + 1)) * (3 # 10))].
Proof.
  split.
  - intros. now apply merge_undefined.
  - vm_compute. repeat split; reflexivity.
Qed.

(** *** The fused score when [this.rrfK] holds a number *)

Lemma amap_get_set {K V} `{EqDecision K} (k : K) (v : V) (m : list (K * V)) k' :
  amap_get k' (amap_set k v m) = if decide (k' = k) then Some v else amap_get k' m.
Proof.
  induction m as [|[k0 v0] m IH]; cbn.
  - destruct (decide (k' = k)); reflexivity.
  - destruct (decide (k = k0)) as [->|Hne]; cbn.
    + destruct (decide (k' = k0)); reflexivity.
    + rewrite IH. destruct (decide (k' = k0)) as [->|_]; [|reflexivity].
      now rewrite decide_False by congruence.
Qed.

Lemma amap_elem_get {K V} `{EqDecision K} (k : K) (v : V) (m : list (K * V)) :
  NoDup (List.map fst m) -> (k, v) ∈ m -> amap_get k m = Some v.
Proof.
  induction m as [|[k0 v0] m IH]; cbn; intros Hnd H; [inversion H|].
  apply NoDup_cons in Hnd as [Hk0 Hnd].
  apply elem_of_cons in H as [[= -> ->]|H].
  - now rewrite decide_True.
  - rewrite decide_False; [now apply IH|].
    intros ->. apply Hk0. apply list_elem_of_fmap. now exists (k0, v).
Qed.

Lemma rank_in_None i ids : i ∉ ids -> rank_in i ids = None.
Proof.
  induction ids as [|j ids IH]; [reflexivity|]. intros H.
  apply not_elem_of_cons in H as [Hne H]. cbn.
  rewrite decide_False by assumption. now rewrite IH.
Qed.

(** In a list of distinct ids a pass sees each id once, at its rank. *)
Lemma last_index_rank {A} (key : A -> Z) i (xs : list A) n :
  NoDup (List.map key xs) ->
  last_index key i (combine (seq n (length xs)) xs)
  = (fun rank => (n + rank - 1)%nat) <$> rank_in i (List.map key xs).
Proof.
  revert n. induction xs as [|x xs IH]; intros n Hnd; [reflexivity|].
  cbn [List.map] in Hnd. apply NoDup_cons in Hnd as [Hx Hnd].
  cbn [length seq combine last_index List.map rank_in].
  rewrite IH by assumption.
  destruct (decide (i = key x)) as [->|Hne].
  - rewrite rank_in_None by assumption. cbn. f_equal. lia.
  - destruct (rank_in i (List.map key xs)) as [rank|]; cbn; [f_equal; lia|reflexivity].
Qed.

Lemma vector_pass {S} (r : Retriever.HybridRetriever S) l m i :
  let m' := fold_left (Retriever.add_vector r) l m in
  vector_part (amap_get i m')
  = match last_index Retriever.v_id i l with
    | Some j => js_mul (Retriever.rrfScore r j) (Num (Retriever.vectorWeight r))
    | None => vector_part (amap_get i m)
    end /\
  keyword_part (amap_get i m')
  = match last_index Retriever.v_id i l with
    | Some j => Num 0
    | None => keyword_part (amap_get i m)
    end.
Proof.
  revert m. induction l as [|[j x] l IH]; intros m; [now split|].
  cbn [fold_left last_index]. specialize (IH (Retriever.add_vector r m (j, x))).
  cbn zeta in IH. destruct IH as [IHv IHk]. rewrite IHv, IHk.
  destruct (last_index Retriever.v_id i l); [now split|].
  unfold Retriever.add_vector. rewrite amap_get_set.
  destruct (decide (i = Retriever.v_id x)); now split.
Qed.

Lemma keyword_pass {S} (r : Retriever.HybridRetriever S) l m i :
  let m' := fold_left (Retriever.add_keyword r) l m in
  vector_part (amap_get i m') = vector_part (amap_get i m) /\
  keyword_part (amap_get i m')
  = match last_index Retriever.kw_id i l with
    | Some j => js_mul (Retriever.rrfScore r j) (Num (Retriever.keywordWeight r))
    | None => keyword_part (amap_get i m)
    end.
Proof.
  revert m. induction l as [|[j x] l IH]; intros m; [now split|].
  cbn [fold_left last_index]. specialize (IH (Retriever.add_keyword r m (j, x))).
  cbn zeta in IH. destruct IH as [IHv IHk]. rewrite IHv, IHk.
  assert (Hv : vector_part (amap_get i (Retriever.add_keyword r m (j, x)))
               = vector_part (amap_get i m)).
  { unfold Retriever.add_keyword.
    destruct (amap_get (Retriever.kw_id x) m) as [existing|] eqn:E;
      rewrite amap_get_set; destruct (decide (i = Retriever.kw_id x)) as [->|_];
      try reflexivity; now rewrite E. }
  split; [exact Hv|].
  destruct (last_index Retriever.kw_id i l); [reflexivity|].
  unfold Retriever.add_keyword.
  destruct (amap_get (Retriever.kw_id x) m) as [existing|];
    rewrite amap_get_set; destruct (decide (i = Retriever.kw_id x)); reflexivity.
Qed.

Lemma rrfScore_number {S} (r : Retriever.HybridRetriever S) k j :
  Retriever.rrfK r = Some k -> (0 <= k)%Q ->
  Retriever.rrfScore r j = Num (1 / (k + inject_Z (Z.of_nat j) + 1)).
Proof.
  intros Hk Hk0. unfold Retriever.rrfScore. rewrite Hk. cbn [js_tonumber js_add].
  apply js_div_num.
  assert (0 <= inject_Z (Z.of_nat j))%Q
    by (rewrite <- (Qle_bool_iff 0); unfold Qle_bool; cbn; apply Z.leb_le; lia).
  lra.
Qed.

Lemma partial_score {T} (r : Retriever.HybridRetriever T) k weight rank :
  Retriever.rrfK r = Some k -> (0 <= k)%Q ->
  exists q,
    match (fun rank => (0 + rank - 1)%nat) <$> rank with
    | Some j => js_mul (Retriever.rrfScore r j) (Num weight)
    | None => Num 0
    end = Num q /\
    (rank <> Some 0%nat -> q == contribution weight k rank)%Q.
Proof.
  intros Hk Hk0. destruct rank as [n|]; cbn [fmap option_fmap option_map].
  - rewrite (rrfScore_number r k) by assumption. cbn [js_mul contribution].
    eexists. split; [reflexivity|]. intros Hn.
    destruct n as [|n]; [congruence|].
    replace (0 + S n - 1)%nat with n by lia.
    replace (Z.of_nat (S n)) with (Z.of_nat n + 1) by lia.
    rewrite inject_Z_plus. change (inject_Z 1) with 1%Q.
    assert (0 <= inject_Z (Z.of_nat n))%Q
      by (rewrite <- (Qle_bool_iff 0); unfold Qle_bool; cbn; apply Z.leb_le; lia).
    set (a := inject_Z (Z.of_nat n)) in *.
    field. lra.
  - exists 0%Q. split; [reflexivity|]. intros _. reflexivity.
Qed.

Lemma rank_in_positive i ids : rank_in i ids <> Some 0%nat.
Proof.
  destruct ids as [|j ids]; cbn; [discriminate|].
  destruct (decide (i = j)); [discriminate|].
  destruct (rank_in i ids); discriminate.
Qed.

(** When [this.rrfK] holds [k >= 0] and each list ranks an id once, the
    fused score of every result is the sum of [weight / (k + rank)] over the
    lists that rank it. *)
Lemma fused_score_formula {S} (r : Retriever.HybridRetriever S) k vs ks :
  Retriever.rrfK r = Some k -> (0 <= k)%Q ->
  NoDup (List.map Retriever.v_id vs) -> NoDup (List.map Retriever.kw_id ks) ->
  Forall
    (fun x =>
       exists q,
         Retriever.hybridScore x = Num q /\
         (q == contribution (Retriever.vectorWeight r) k
                 (rank_in (Retriever.id x) (List.map Retriever.v_id vs))
               + contribution (Retriever.keywordWeight r) k
                   (rank_in (Retriever.id x) (List.map Retriever.kw_id ks)))%Q)
    (Retriever.mergeResultsWithRRF r vs ks).
Proof.
  intros Hk Hk0 Hvs Hks. apply Forall_forall. intros x Hx.
  unfold Retriever.mergeResultsWithRRF in Hx.
  apply js_slice0_sublist in Hx. rewrite js_sort_perm in Hx.
  apply list_elem_of_fmap in Hx as [[i e] [-> He]]. cbn [snd].
  pose proof (scoreMap_ids r vs ks i e He) as Hid.
  assert (Hget : amap_get i (Retriever.scoreMap_of r vs ks) = Some e).
  { apply amap_elem_get; [|exact He]. rewrite scoreMap_keys. apply js_unique_NoDup. }
  unfold Retriever.scoreMap_of in Hget.
  destruct (keyword_pass r (Retriever.indexed ks)
              (fold_left (Retriever.add_vector r) (Retriever.indexed vs) []) i)
    as [Hv Hkw].
  destruct (vector_pass r (Retriever.indexed vs) [] i) as [Hv1 Hk1].
  assert (Hk1' : keyword_part
                   (amap_get i (fold_left (Retriever.add_vector r)
                                  (Retriever.indexed vs) [])) = Num 0).
  { rewrite Hk1.
    destruct (last_index Retriever.v_id i (Retriever.indexed vs)); reflexivity. }
  rewrite Hget in Hv, Hkw. cbn [vector_part keyword_part] in Hv, Hkw.
  rewrite Hv1 in Hv. rewrite Hk1' in Hkw. cbn [amap_get vector_part] in Hv.
  unfold Retriever.indexed in Hv, Hkw.
  rewrite last_index_rank in Hv by assumption.
  rewrite last_index_rank in Hkw by assumption.
  destruct (partial_score r k (Retriever.vectorWeight r)
              (rank_in i (List.map Retriever.v_id vs)) Hk Hk0) as (qv & Hqv & Hcv).
  destruct (partial_score r k (Retriever.keywordWeight r)
              (rank_in i (List.map Retriever.kw_id ks)) Hk Hk0) as (qk & Hqk & Hck).
  rewrite Hqv in Hv. rewrite Hqk in Hkw.
  exists (qv + qk)%Q. split.
  - cbn [Retriever.fused Retriever.with_hybridScore Retriever.hybridScore].
    now rewrite Hv, Hkw.
  - cbn [Retriever.fused Retriever.with_hybridScore Retriever.id]. rewrite Hid.
    rewrite Hcv, Hck by apply rank_in_positive. reflexivity.
Qed.

(* ===================================================================== *)
(** ** The stages together                                                *)
(* ===================================================================== *)

(** The index service of this repository never throws at the retriever. *)
Lemma bm25_service_returns c now userId query ids cache :
  (exists found cache',
     Retriever.hasIndex (Retriever.bm25_service c now) userId cache = (Ok found, cache')) /\
  (exists scores cache',
     Retriever.getScoresForDocuments (Retriever.bm25_service c now) userId query ids cache
     = (Ok scores, cache')).
Proof.
  split; cbn.
  - eauto.
  - destruct (BM25Index.getScoresForDocuments c now userId query ids cache). eauto.
Qed.

(** A keyword with a backslash, as a segmenter that keeps punctuation hands
    it over, reaches the statement: the query [\%] finds the row [C:\temp]. *)
Example keywordSearch_backslash :
  let r :=
    Retriever.new_HybridRetriever sample_pool_paths sample_embeddings 7 with_segmenter in
  Retriever.extractKeywords r (u "\%") = [u "\%"] /\
  List.map (fun row => (Retriever.kw_id row, Retriever.kw_content row))
    (Retriever.keywordSearch r (u "\%")) = [(5, u "C:\temp")].
Proof. vm_compute. split; reflexivity. Qed.

(** Retrieval with the rerank stage on: the keyword branch finds "alpha",
    the fused score is [NaN], and the stage blends it, read as 0, with the
    BM25 score of the index. *)
Example rerank_pipeline :
  let cache :=
    BM25Index.buildIndex sample_collaborators 0 7
      [sample_document "1" "alpha"; sample_document "2" "beta"] BM25Index.no_options ∅ in
  let r :=
    Retriever.new_HybridRetriever sample_pool sample_embeddings 7 (with_rerank 1000) in
  let '(results, cache') := Retriever.getSearchResults r (u "alpha") cache in
  List.map (fun x => (Retriever.id x, Retriever.hybridScore x)) results
    = [(1, Num (0 / (1 # 1000) * (1 + - (3 # 10)) + 1 / 1 * (3 # 10)))] /\
  BM25Index.lastAccessed <$> cache' !! BM25Index.getIndexKey 7 = Some 1000.
Proof. vm_compute. split; reflexivity. Qed.

(** The stage after the fusion of this retriever: the fused scores are all
    [NaN], so the bound on the new scores needs the weight and the BM25
    scores only. *)
Lemma rerank_after_fusion_in_unit_interval {S} pool embeddings userId
    (options : Retriever.HybridRetrieverOptions S) vs ks bm25Scores :
  let r := Retriever.new_HybridRetriever pool embeddings userId options in
  (0 <= Retriever.bm25Weight r)%Q -> (Retriever.bm25Weight r <= 1)%Q ->
  Forall (fun kv => exists q, snd kv = Num q /\ (0 <= q)%Q) bm25Scores ->
  Forall (fun y => in_unit_interval (Retriever.hybridScore y))
    (Retriever.rescore r (Retriever.mergeResultsWithRRF r vs ks) bm25Scores).
Proof.
  intros r Hw0 Hw1 Hsc.
  destruct (rescore_blend r (Retriever.mergeResultsWithRRF r vs ks) bm25Scores)
    as (maxRRF & maxBM25 & _ & _ & _ & _ & H); try assumption.
  - eapply Forall_impl; [apply merge_undefined; reflexivity|].
    intros x Hx. unfold score_ok. now rewrite Hx.
  - apply Forall_forall. intros y Hy. now apply H.
Qed.

(* ===================================================================== *)
(** ** Further properties of the tokenizer                                *)
(* ===================================================================== *)

Lemma drop_leading_all p s :
  Forall (fun c => p c = true) s -> Tokenizer.drop_leading p s = [].
Proof.
  induction 1 as [|c s Hc _ IH]; [reflexivity|]. cbn. now rewrite Hc.
Qed.

Lemma js_trim_blank text :
  Forall (fun c => Tokenizer.isWhiteSpace c = true) text -> Tokenizer.js_trim text = [].
Proof.
  intros H. unfold Tokenizer.js_trim. now rewrite (drop_leading_all _ _ H).
Qed.

(** X1.  A text that is empty or holds white space only has no tokens,
    whatever the options are; the segmenter is not consulted. *)
Theorem X1_tokenize_blank ts text options :
  Forall (fun c => Tokenizer.isWhiteSpace c = true) text ->
  Tokenizer.tokenize ts text options = [].
Proof.
  intros H. unfold Tokenizer.tokenize. rewrite (js_trim_blank _ H). cbn.
  now rewrite orb_true_r.
Qed.

Lemma X1_tokenize_blank_witness :
  Tokenizer.tokenize sample_segmenter [32; 9; 12288; 10]%N BM25Index.TOKENIZER_CONFIG = [].
Proof.
  apply X1_tokenize_blank. repeat constructor.
Defined.

Lemma js_set_add_elem {A} `{EqDecision A} (acc : list A) x y :
  y ∈ js_set_add acc x <-> y ∈ acc \/ y = x.
Proof.
  unfold js_set_add. destruct (decide (x ∈ acc)) as [Hin|Hnin].
  - split; [now left|]. intros [?| ->]; assumption.
  - rewrite elem_of_app, list_elem_of_singleton. reflexivity.
Qed.

Lemma js_unique_elem {A} `{EqDecision A} (l : list A) x : x ∈ js_unique l <-> x ∈ l.
Proof.
  unfold js_unique.
  assert (H : forall acc, x ∈ fold_left js_set_add l acc <-> x ∈ acc \/ x ∈ l).
  { induction l as [|y l IH]; intros acc; cbn.
    - split; [now left|]. intros [?|H]; [assumption|inversion H].
    - rewrite IH, js_set_add_elem, elem_of_cons. tauto. }
  rewrite H. split; [|now right]. intros [H'|?]; [inversion H'|assumption].
Qed.

Lemma filter_elem {A} (f : A -> bool) (l : list A) x :
  x ∈ List.filter f l <-> x ∈ l /\ f x = true.
Proof. rewrite !list_elem_of_In. apply filter_In. Qed.

Lemma postProcess_elem tokens filterStopWords lo hi t :
  t ∈ Tokenizer.postProcess tokens filterStopWords lo hi <->
  t ∈ tokens /\ (lo <= Tokenizer.js_length t <= hi) /\
  (filterStopWords = true -> Tokenizer.isStopWord t = false).
Proof.
  unfold Tokenizer.postProcess. rewrite js_unique_elem, filter_elem.
  rewrite andb_true_iff, !Z.leb_le.
  destruct filterStopWords.
  - rewrite filter_elem, negb_true_iff. intuition.
  - intuition. discriminate.
Qed.

Lemma tokenize_terms ts text options :
  Forall
    (fun t =>
       default 1 (Tokenizer.minWordLength options) <= Tokenizer.js_length t
       <= default 50 (Tokenizer.maxWordLength options) /\
       (Tokenizer.isStopWord t = false \/ Tokenizer.filterStopWords options = Some false))
    (Tokenizer.tokenize ts text options).
Proof.
  apply Forall_forall. intros t Ht. unfold Tokenizer.tokenize in Ht.
  destruct (_ || _); [inversion Ht|].
  apply postProcess_elem in Ht as (_ & Hlen & Hstop). split; [exact Hlen|].
  destruct (Tokenizer.filterStopWords options) as [[|]|]; cbn in Hstop; auto.
Qed.

(** X2.  The tokens [tokenize] returns are distinct, their lengths lie
    between [minWordLength] (default 1) and [maxWordLength] (default 50), and
    none is a stop word unless [filterStopWords] is switched off. *)
Theorem X2_tokenize_terms ts text options :
  NoDup (Tokenizer.tokenize ts text options) /\
  Forall
    (fun t =>
       default 1 (Tokenizer.minWordLength options) <= Tokenizer.js_length t
       <= default 50 (Tokenizer.maxWordLength options) /\
       (Tokenizer.isStopWord t = false \/ Tokenizer.filterStopWords options = Some false))
    (Tokenizer.tokenize ts text options).
Proof. split; [apply tokenize_NoDup|apply tokenize_terms]. Qed.

Lemma scan_runs p s :
  Forall (fun c => p c = true) (fst (Tokenizer.scan p s)) /\
  Forall (fun t => t <> [] /\ Forall (fun c => p c = true) t) (snd (Tokenizer.scan p s)).
Proof.
  induction s as [|c s [IHr IHrs]]; cbn; [split; constructor|].
  destruct (Tokenizer.scan p s) as [r rs]. cbn [fst snd] in *.
  destruct (p c) eqn:Hc; cbn [fst snd].
  - split; [now constructor|assumption].
  - split; [constructor|]. destruct r as [|d r]; [assumption|].
    constructor; [|assumption]. split; [discriminate|assumption].
Qed.

(** The matches of [/[class]+/g] are non-empty runs of the class. *)
Lemma match_all_runs p s :
  Forall (fun t => t <> [] /\ Forall (fun c => p c = true) t) (Tokenizer.match_all p s).
Proof.
  unfold Tokenizer.match_all. pose proof (scan_runs p s) as [Hr Hrs].
  destruct (Tokenizer.scan p s) as [r rs]. cbn [fst snd] in *.
  destruct r as [|d r]; [assumption|].
  constructor; [|assumption]. split; [discriminate|assumption].
Qed.

Lemma toLowerCase_latin t :
  t <> [] -> Forall (fun c => Tokenizer.isLatin c = true) t ->
  lower_word (Tokenizer.toLowerCase t).
Proof.
  intros Hne Hall. split.
  - destruct t; [congruence|discriminate].
  - unfold Tokenizer.toLowerCase. apply Forall_fmap.
    eapply Forall_impl; [exact Hall|]. intros c Hc. unfold compose.
    unfold Tokenizer.isLatin in Hc.
    destruct ((65 <=? c)%N && (c <=? 90)%N) eqn:Hup.
    + apply andb_true_iff in Hup as [H1 H2].
      apply N.leb_le in H1. apply N.leb_le in H2. lia.
    + rewrite orb_false_l in Hc. apply andb_true_iff in Hc as [H1 H2].
      apply N.leb_le in H1. apply N.leb_le in H2. lia.
Qed.

(** The n-grams of a segment: between [lo] and 4 code units of it. *)
Lemma ngrams_elem lo segment t :
  t ∈ Tokenizer.ngrams lo segment ->
  (lo <= length t <= 4)%nat /\ (length t <= length segment)%nat /\
  Forall (fun c => c ∈ segment) t.
Proof.
  unfold Tokenizer.ngrams. intros Ht.
  apply list_elem_of_In, in_flat_map in Ht as (len & Hlen & Ht).
  apply in_seq in Hlen. apply in_map_iff in Ht as (i & <- & Hi). apply in_seq in Hi.
  unfold Tokenizer.js_substr.
  assert (Hl : length (firstn len (skipn i segment)) = len).
  { rewrite length_firstn, length_skipn. lia. }
  rewrite Hl. repeat split; try lia.
  apply Forall_forall. intros c Hc.
  eapply (subseteq_drop i), (subseteq_take len). exact Hc.
Qed.

Lemma fallbackTokenize_tokens text :
  Forall (fun t => lower_word t \/ (cjk_word t /\ (length t <= 4)%nat))
    (Tokenizer.fallbackTokenize text).
Proof.
  unfold Tokenizer.fallbackTokenize. apply Forall_app. split.
  - apply Forall_fmap. eapply Forall_impl; [apply match_all_runs|].
    intros t [Hne Hall]. left. now apply toLowerCase_latin.
  - apply Forall_forall. intros t Ht.
    apply list_elem_of_In, in_flat_map in Ht as (segment & Hseg & Ht).
    apply list_elem_of_In in Hseg, Ht.
    pose proof (match_all_runs Tokenizer.isCJK text) as Hruns.
    rewrite Forall_forall in Hruns. destruct (Hruns _ Hseg) as [Hne Hall].
    right. apply elem_of_app in Ht as [Ht|Ht].
    + apply ngrams_elem in Ht as (Hlen & _ & Hsub). split; [split|lia].
      * destruct t; [cbn in Hlen; lia|discriminate].
      * eapply Forall_impl; [exact Hsub|]. intros c Hc.
        rewrite Forall_forall in Hall. now apply Hall.
    + destruct ((length segment <=? 4)%nat && (1 <=? length segment)%nat) eqn:E;
        [|inversion Ht].
      apply list_elem_of_singleton in Ht as ->.
      apply andb_true_iff in E as [E _]. apply Nat.leb_le in E.
      split; [split; assumption|exact E].
Qed.

(** X3.  The fallback tokenizer emits two kinds of token only: a run of
    letters of the text in lower case, or one to four consecutive CJK code
    units of it.  Digits, punctuation and the characters special to SQL never
    occur in a token. *)
Theorem X3_fallbackTokenize_alphabet text :
  Forall (fun t => lower_word t \/ (cjk_word t /\ (length t <= 4)%nat))
    (Tokenizer.fallbackTokenize text).
Proof. apply fallbackTokenize_tokens. Qed.

(** X4.  For a limit that is not negative, the tokenizer's [extractKeywords]
    returns at most [maxKeywords] (default 10) keywords; they are distinct,
    have between 2 and 50 code units, and none is a stop word. *)
Theorem X4_extractKeywords_terms ts text maxKeywords :
  0 <= default 10 maxKeywords ->
  let keywords := Tokenizer.extractKeywords ts text maxKeywords in
  NoDup keywords /\
  Z.of_nat (length keywords) <= default 10 maxKeywords /\
  Forall (fun t => 2 <= Tokenizer.js_length t <= 50 /\ Tokenizer.isStopWord t = false)
    keywords.
Proof.
  intros Hmax keywords. subst keywords. rewrite extractKeywords_first_seen.
  unfold js_slice0. destruct (Z.ltb_spec (default 10 maxKeywords) 0) as [|_]; [lia|].
  pose proof (tokenize_NoDup ts text
                {| Tokenizer.filterStopWords := Some true;
                   Tokenizer.minWordLength := Some 2;
                   Tokenizer.maxWordLength := None |}) as Hnd.
  pose proof (tokenize_terms ts text
                {| Tokenizer.filterStopWords := Some true;
                   Tokenizer.minWordLength := Some 2;
                   Tokenizer.maxWordLength := None |}) as Hall.
  repeat split.
  - eapply sublist_NoDup; [exact Hnd|apply sublist_take].
  - rewrite length_take. lia.
  - apply Forall_take. eapply Forall_impl; [exact Hall|].
    cbn. intros t [Hlen [Hstop|Hoff]]; [now split|discriminate].
Qed.

Lemma X4_extractKeywords_terms_witness :
  let keywords :=
    Tokenizer.extractKeywords Tokenizer.fallback_service (u "the hybrid search") (Some 1) in
  NoDup keywords /\
  Z.of_nat (length keywords) <= 1 /\
  Forall (fun t => 2 <= Tokenizer.js_length t <= 50 /\ Tokenizer.isStopWord t = false)
    keywords.
Proof.
  apply (X4_extractKeywords_terms Tokenizer.fallback_service (u "the hybrid search")
           (Some 1)).
  cbn. lia.
Defined.

Lemma ratio_gt_number a n p q :
  0 < n ->
  js_gt (js_div (Num (inject_Z a)) (Num (inject_Z n))) (Num (p # q))
  = (p * n <? a * Z.pos q).
Proof.
  intros Hn. unfold js_div.
  replace (Qeq_bool (inject_Z n) 0) with false
    by (symmetry; unfold Qeq_bool, inject_Z; cbn; apply Z.eqb_neq; lia).
  cbn [js_gt]. unfold Qle_bool, Qdiv, Qmult, Qinv, inject_Z.
  destruct n as [|n|n]; try lia. cbn.
  rewrite Z.ltb_antisym. f_equal. f_equal; lia.
Qed.

Lemma ratio_gt_ratio a b n :
  0 < n ->
  js_gt (js_div (Num (inject_Z a)) (Num (inject_Z n)))
        (js_div (Num (inject_Z b)) (Num (inject_Z n)))
  = (b <? a).
Proof.
  intros Hn. unfold js_div.
  replace (Qeq_bool (inject_Z n) 0) with false
    by (symmetry; unfold Qeq_bool, inject_Z; cbn; apply Z.eqb_neq; lia).
  cbn [js_gt]. unfold Qle_bool, Qdiv, Qmult, Qinv, inject_Z.
  destruct n as [|n|n]; try lia. cbn.
  rewrite Z.ltb_antisym. f_equal.
  apply eq_true_iff_eq. rewrite !Z.leb_le. nia.
Qed.

(** X5.  [detectLanguage] in whole numbers: the answer is [mixed] exactly
    when more than 30% of the code units are CJK and more than 10% are
    letters; otherwise [zh] when the CJK code units outnumber the letters, and
    [en] in every other case.  The empty text is [en]: both ratios are [NaN]
    and every comparison fails. *)
Theorem X5_detectLanguage_counts text :
  let n := Tokenizer.js_length text in
  let c := count_units Tokenizer.isCJK text in
  let e := count_units Tokenizer.isLatin text in
  detectLanguage text
  = if (3 * n <? 10 * c) && (n <? 10 * e) then mixed
    else if e <? c then zh else en.
Proof.
  intros n c e. unfold detectLanguage. fold n c e.
  destruct text as [|d text].
  - reflexivity.
  - assert (Hn : 0 < n) by (unfold n, Tokenizer.js_length; cbn [length]; lia).
    rewrite !ratio_gt_number, ratio_gt_ratio by exact Hn.
    replace (c * 10) with (10 * c) by lia. replace (e * 10) with (10 * e) by lia.
    replace (1 * n) with n by lia. reflexivity.
Qed.

(* ===================================================================== *)
(** ** Further properties of the lexical index                            *)
(* ===================================================================== *)

Lemma u_inj s t : u s = u t -> s = t.
Proof.
  unfold u. intros H.
  rewrite <- (string_of_list_ascii_of_string s), <- (string_of_list_ascii_of_string t).
  f_equal. revert H. generalize (list_ascii_of_string t) as l2.
  induction (list_ascii_of_string s) as [|a l1 IH]; intros [|b l2] H;
    try discriminate; [reflexivity|].
  cbn in H. injection H as Hab Hl. f_equal; [|now apply IH].
  rewrite <- (ascii_N_embedding a), <- (ascii_N_embedding b). now rewrite Hab.
Qed.

(** Two tenants never share a cache key. *)
Lemma getIndexKey_inj a b : BM25Index.getIndexKey a = BM25Index.getIndexKey b -> a = b.
Proof.
  unfold BM25Index.getIndexKey. intros H. apply app_inv_head, u_inj in H.
  now apply (inj pretty) in H.
Qed.

Lemma touch_other now key entry cache key' :
  key <> key' -> BM25Index.touch now key entry cache !! key' = cache !! key'.
Proof. intros H. unfold BM25Index.touch. now rewrite lookup_insert_ne. Qed.

Lemma search_other c now userId query limit cache key :
  BM25Index.getIndexKey userId <> key ->
  snd (BM25Index.search c now userId query limit cache) !! key = cache !! key.
Proof.
  intros H. unfold BM25Index.search.
  destruct (cache !! BM25Index.getIndexKey userId) as [entry|]; [|reflexivity].
  destruct (Tokenizer.tokenize _ _ _); [now apply touch_other|].
  destruct (BM25Index.index_search _ _ _); now apply touch_other.
Qed.

Lemma getScoresForDocuments_other c now userId query ids cache key :
  BM25Index.getIndexKey userId <> key ->
  snd (BM25Index.getScoresForDocuments c now userId query ids cache) !! key = cache !! key.
Proof.
  intros H. unfold BM25Index.getScoresForDocuments.
  destruct (cache !! BM25Index.getIndexKey userId) as [entry|]; [|reflexivity].
  destruct (Tokenizer.tokenize _ _ _); [now apply touch_other|].
  destruct (BM25Index.index_search _ _ _); now apply touch_other.
Qed.

(** What [search] returns depends on the tenant's own entry only. *)
Lemma search_of_entry c now userId query limit cache cache' :
  cache' !! BM25Index.getIndexKey userId = cache !! BM25Index.getIndexKey userId ->
  fst (BM25Index.search c now userId query limit cache')
  = fst (BM25Index.search c now userId query limit cache).
Proof.
  intros H. unfold BM25Index.search. rewrite H.
  destruct (cache !! BM25Index.getIndexKey userId) as [entry|]; [|reflexivity].
  destruct (Tokenizer.tokenize _ _ _); [reflexivity|].
  destruct (BM25Index.index_search _ _ _); reflexivity.
Qed.

(** X6.  Tenant isolation of the index cache: no operation on the index of
    one tenant changes the entry of another tenant, and what the other
    tenant's [search] returns is the same before and after. *)
Theorem X6_tenant_isolation c now userId other cache :
  other <> userId ->
  let key := BM25Index.getIndexKey other in
  (forall documents options,
     BM25Index.buildIndex c now userId documents options cache !! key = cache !! key) /\
  (forall document,
     BM25Index.addDocument c now userId document cache !! key = cache !! key) /\
  (forall documentId,
     BM25Index.removeDocument now userId documentId cache !! key = cache !! key) /\
  (forall query limit,
     snd (BM25Index.search c now userId query limit cache) !! key = cache !! key) /\
  (forall query ids,
     snd (BM25Index.getScoresForDocuments c now userId query ids cache) !! key
     = cache !! key) /\
  BM25Index.clearIndex userId cache !! key = cache !! key /\
  (forall cache' now' query limit,
     cache' !! key = cache !! key ->
     fst (BM25Index.search c now' other query limit cache')
     = fst (BM25Index.search c now' other query limit cache)).
Proof.
  intros Hne key.
  assert (Hkey : BM25Index.getIndexKey userId <> key).
  { intros H. apply getIndexKey_inj in H. congruence. }
  repeat split.
  - intros. unfold BM25Index.buildIndex. now rewrite lookup_insert_ne.
  - intros. unfold BM25Index.addDocument, BM25Index.buildIndex.
    destruct (cache !! BM25Index.getIndexKey userId); now rewrite lookup_insert_ne.
  - intros. unfold BM25Index.removeDocument.
    destruct (cache !! BM25Index.getIndexKey userId); [|reflexivity].
    now rewrite lookup_insert_ne.
  - intros. now apply search_other.
  - intros. now apply getScoresForDocuments_other.
  - unfold BM25Index.clearIndex. now rewrite lookup_delete_ne.
  - intros. now apply search_of_entry.
Qed.

Lemma X6_tenant_isolation_witness :
  let cache :=
    BM25Index.buildIndex sample_collaborators 0 2
      [sample_document "7" "hybrid search"] BM25Index.no_options ∅ in
  let key := BM25Index.getIndexKey 2 in
  (forall documents options,
     BM25Index.buildIndex sample_collaborators 5 1 documents options cache !! key
     = cache !! key) /\
  (forall document,
     BM25Index.addDocument sample_collaborators 5 1 document cache !! key = cache !! key) /\
  (forall documentId,
     BM25Index.removeDocument 5 1 documentId cache !! key = cache !! key) /\
  (forall query limit,
     snd (BM25Index.search sample_collaborators 5 1 query limit cache) !! key
     = cache !! key) /\
  (forall query ids,
     snd (BM25Index.getScoresForDocuments sample_collaborators 5 1 query ids cache) !! key
     = cache !! key) /\
  BM25Index.clearIndex 1 cache !! key = cache !! key /\
  (forall cache' now' query limit,
     cache' !! key = cache !! key ->
     fst (BM25Index.search sample_collaborators now' 2 query limit cache')
     = fst (BM25Index.search sample_collaborators now' 2 query limit cache)).
Proof.
  apply (X6_tenant_isolation sample_collaborators 5 1 2). lia.
Defined.

Lemma build_dom c documents index0 :
  dom (BM25Index.documentStore
         (fold_left (fun index doc => BM25Index.addDoc (BM25Index.index_document c doc) index)
            documents index0))
  = list_to_set (List.map BM25Index.id documents) ∪ dom (BM25Index.documentStore index0).
Proof.
  revert index0. induction documents as [|d documents IH]; intros index0; cbn [fold_left].
  - cbn. now rewrite (left_id_L ∅ (∪)).
  - rewrite IH. unfold BM25Index.addDoc. cbn [BM25Index.documentStore].
    rewrite dom_insert_L. cbn [List.map list_to_set BM25Index.index_document BM25Index.doc].
    rewrite (assoc_L (∪)). f_equal. apply (comm_L (∪)).
Qed.

Lemma build_size c documents index0 :
  (size (BM25Index.documentStore
           (fold_left (fun index doc => BM25Index.addDoc (BM25Index.index_document c doc) index)
              documents index0))
   <= size (BM25Index.documentStore index0) + length documents)%nat.
Proof.
  revert index0. induction documents as [|d documents IH]; intros index0; cbn [fold_left].
  - cbn. lia.
  - etransitivity; [apply IH|]. unfold BM25Index.addDoc.
    cbn [BM25Index.documentStore length]. rewrite map_size_insert.
    destruct (BM25Index.documentStore index0 !! _); unfold id; lia.
Qed.

Lemma build_lookup c documents index0 docRef x :
  BM25Index.documentStore
    (fold_left (fun index doc => BM25Index.addDoc (BM25Index.index_document c doc) index)
       documents index0) !! docRef = Some x ->
  (exists d, d ∈ documents /\ x = BM25Index.index_document c d /\
             BM25Index.id d = docRef) \/
  BM25Index.documentStore index0 !! docRef = Some x.
Proof.
  revert index0. induction documents as [|d documents IH]; intros index0; cbn [fold_left].
  - now right.
  - intros H. apply IH in H as [(d' & Hd' & Hx)|H].
    + left. exists d'. split; [now right|exact Hx].
    + rewrite addDoc_lookup in H. destruct (decide _) as [Hid|_]; [|now right].
      left. exists d. injection H as <-. split; [left|]. split; [reflexivity|exact Hid].
Qed.

(** X7.  [buildIndex] replaces the tenant's index by one that holds the
    given documents and nothing else, one per id; [documentCount] is the
    length of the list, so it exceeds the number of stored documents when ids
    repeat.  A search in the rebuilt index answers with given documents only. *)
Theorem X7_buildIndex_contents c now userId documents options cache :
  exists entry,
    BM25Index.buildIndex c now userId documents options cache
      !! BM25Index.getIndexKey userId = Some entry /\
    BM25Index.documentCount entry = Z.of_nat (length documents) /\
    dom (BM25Index.documentStore (BM25Index.index entry))
    = list_to_set (List.map BM25Index.id documents) /\
    Z.of_nat (size (BM25Index.documentStore (BM25Index.index entry)))
    <= BM25Index.documentCount entry /\
    forall now' query limit,
      Forall
        (fun r => exists d, d ∈ documents /\
                            BM25Index.result_id r = BM25Index.id d /\
                            BM25Index.result_content r = BM25Index.content d)
        (fst (BM25Index.search c now' userId query limit
                (BM25Index.buildIndex c now userId documents options cache))).
Proof.
  unfold BM25Index.buildIndex. eexists. split; [apply lookup_insert_eq|].
  cbn [BM25Index.documentCount BM25Index.index]. split; [reflexivity|]. split; [|split].
  - rewrite build_dom. cbn [BM25Index.elasticlunr BM25Index.documentStore].
    rewrite dom_empty_L. apply (right_id_L ∅ (∪)).
  - pose proof (build_size c documents BM25Index.elasticlunr) as H.
    cbn in H. rewrite map_size_empty in H. lia.
  - intros now' query limit. apply Forall_forall. intros r Hr.
    unfold BM25Index.search in Hr. rewrite lookup_insert_eq in Hr.
    cbn [BM25Index.index] in Hr.
    destruct (Tokenizer.tokenize _ _ _); [inversion Hr|].
    destruct (BM25Index.index_search _ _ _) as [searchResults|]; [|inversion Hr].
    cbn [fst] in Hr. apply list_elem_of_omap in Hr as (res & _ & Hres).
    unfold BM25Index.format_result, BM25Index.getDoc in Hres.
    destruct (BM25Index.documentStore _ !! fst res) as [x|] eqn:Hx; [|discriminate].
    cbn in Hres. injection Hres as <-. cbn.
    apply build_lookup in Hx as [(d & Hd & -> & _)|Hx].
    + exists d. cbn. auto.
    + cbn in Hx. rewrite lookup_empty in Hx. discriminate.
Qed.

(** X8.  Adding a document whose id the index already holds replaces the
    stored document and leaves the others alone, yet [documentCount] grows by
    one: the count drifts above the number of stored documents. *)
Theorem X8_addDocument_same_id c now userId document cache entry old :
  cache !! BM25Index.getIndexKey userId = Some entry ->
  BM25Index.documentStore (BM25Index.index entry) !! BM25Index.id document = Some old ->
  exists entry',
    BM25Index.addDocument c now userId document cache !! BM25Index.getIndexKey userId
    = Some entry' /\
    BM25Index.documentCount entry' = BM25Index.documentCount entry + 1 /\
    size (BM25Index.documentStore (BM25Index.index entry'))
    = size (BM25Index.documentStore (BM25Index.index entry)) /\
    BM25Index.getDoc (BM25Index.index entry') (BM25Index.id document) = Some document /\
    forall docRef,
      docRef <> BM25Index.id document ->
      BM25Index.getDoc (BM25Index.index entry') docRef
      = BM25Index.getDoc (BM25Index.index entry) docRef.
Proof.
  intros Hentry Hold. unfold BM25Index.addDocument. rewrite Hentry.
  eexists. split; [apply lookup_insert_eq|].
  cbn [BM25Index.documentCount BM25Index.index]. split; [reflexivity|].
  split; [|split].
  - unfold BM25Index.addDoc. cbn [BM25Index.documentStore BM25Index.index_document
                                   BM25Index.doc].
    rewrite map_size_insert, Hold. reflexivity.
  - unfold BM25Index.getDoc. rewrite addDoc_lookup.
    cbn [BM25Index.index_document BM25Index.doc]. now rewrite decide_True.
  - intros docRef Hne. unfold BM25Index.getDoc. rewrite addDoc_lookup.
    cbn [BM25Index.index_document BM25Index.doc]. now rewrite decide_False.
Qed.

Lemma X8_addDocument_same_id_witness :
  let cache :=
    BM25Index.buildIndex sample_collaborators 0 1
      [sample_document "7" "hybrid search"] BM25Index.no_options ∅ in
  let document := sample_document "7" "lexical search" in
  exists entry',
    BM25Index.addDocument sample_collaborators 5 1 document cache
      !! BM25Index.getIndexKey 1 = Some entry' /\
    BM25Index.documentCount entry' = 1 + 1 /\
    size (BM25Index.documentStore (BM25Index.index entry')) = 1%nat /\
    BM25Index.getDoc (BM25Index.index entry') (BM25Index.id document) = Some document /\
    forall docRef,
      docRef <> BM25Index.id document ->
      BM25Index.getDoc (BM25Index.index entry') docRef
      = BM25Index.getDoc
          (BM25Index.addDoc
             (BM25Index.index_document sample_collaborators
                (sample_document "7" "hybrid search")) BM25Index.elasticlunr) docRef.
Proof.
  intros cache document.
  apply (X8_addDocument_same_id sample_collaborators 5 1 document cache
           {| BM25Index.index :=
                BM25Index.addDoc
                  (BM25Index.index_document sample_collaborators
                     (sample_document "7" "hybrid search")) BM25Index.elasticlunr;
              BM25Index.documentCount := 1;
              BM25Index.lastAccessed := 0;
              BM25Index.bm25Config := (BM25Index.DEFAULT_BM25_K1, BM25Index.DEFAULT_BM25_B) |}
           (BM25Index.index_document sample_collaborators
              (sample_document "7" "hybrid search"))).
  - vm_compute. reflexivity.
  - vm_compute. reflexivity.
Defined.

(** X9.  A tenant without an index: [search] and [getScoresForDocuments]
    answer with nothing, [removeDocument] and [clearIndex] do nothing,
    [hasIndex] is false and the count is 0; none of them creates an entry.
    [addDocument] creates the index, with count 1. *)
Theorem X9_without_index c now userId cache :
  cache !! BM25Index.getIndexKey userId = None ->
  (forall query limit, BM25Index.search c now userId query limit cache = ([], cache)) /\
  (forall query ids,
     BM25Index.getScoresForDocuments c now userId query ids cache = ([], cache)) /\
  (forall documentId, BM25Index.removeDocument now userId documentId cache = cache) /\
  BM25Index.clearIndex userId cache = cache /\
  BM25Index.hasIndex userId cache = (false, cache) /\
  BM25Index.getDocumentCount userId cache = (0, cache) /\
  (forall document,
     BM25Index.addDocument c now userId document cache
     = BM25Index.buildIndex c now userId [document] BM25Index.no_options cache /\
     fst (BM25Index.getDocumentCount userId
            (BM25Index.addDocument c now userId document cache)) = 1).
Proof.
  intros Hnone. repeat split; intros.
  - unfold BM25Index.search. now rewrite Hnone.
  - unfold BM25Index.getScoresForDocuments. now rewrite Hnone.
  - unfold BM25Index.removeDocument. now rewrite Hnone.
  - unfold BM25Index.clearIndex. now apply delete_id.
  - unfold BM25Index.hasIndex. now rewrite Hnone.
  - unfold BM25Index.getDocumentCount. now rewrite Hnone.
  - unfold BM25Index.addDocument. now rewrite Hnone.
  - unfold BM25Index.addDocument, BM25Index.getDocumentCount, BM25Index.buildIndex.
    rewrite Hnone. now rewrite lookup_insert_eq.
Qed.

Lemma X9_without_index_witness :
  let cache :=
    BM25Index.buildIndex sample_collaborators 0 2
      [sample_document "7" "hybrid search"] BM25Index.no_options ∅ in
  (forall query limit,
     BM25Index.search sample_collaborators 5 1 query limit cache = ([], cache)) /\
  (forall query ids,
     BM25Index.getScoresForDocuments sample_collaborators 5 1 query ids cache
     = ([], cache)) /\
  (forall documentId, BM25Index.removeDocument 5 1 documentId cache = cache) /\
  BM25Index.clearIndex 1 cache = cache /\
  BM25Index.hasIndex 1 cache = (false, cache) /\
  BM25Index.getDocumentCount 1 cache = (0, cache) /\
  (forall document,
     BM25Index.addDocument sample_collaborators 5 1 document cache
     = BM25Index.buildIndex sample_collaborators 5 1 [document] BM25Index.no_options cache /\
     fst (BM25Index.getDocumentCount 1
            (BM25Index.addDocument sample_collaborators 5 1 document cache)) = 1).
Proof.
  apply (X9_without_index sample_collaborators 5 1). vm_compute. reflexivity.
Defined.

Lemma js_slice0_length {A} (l : list A) n :
  0 <= n -> Z.of_nat (length (js_slice0 l n)) <= n.
Proof.
  intros Hn. unfold js_slice0. destruct (Z.ltb_spec n 0) as [|_]; [lia|].
  rewrite length_take. lia.
Qed.

Lemma omap_length {A B} (f : A -> option B) (l : list A) :
  (length (omap f l) <= length l)%nat.
Proof.
  induction l as [|x l IH]; cbn; [lia|]. destruct (f x); cbn; lia.
Qed.

(** X10.  For a limit that is not negative, [search] returns at most
    [limit] results (10 when no limit is given), each of them a document the
    tenant's index stores; a query without tokens, such as a blank one or one
    of stop words only, finds nothing. *)
Theorem X10_search_bounded c now userId query limit cache :
  0 <= default 10 limit ->
  let results := fst (BM25Index.search c now userId query limit cache) in
  Z.of_nat (length results) <= default 10 limit /\
  Forall
    (fun r =>
       exists entry docRef d,
         cache !! BM25Index.getIndexKey userId = Some entry /\
         BM25Index.getDoc (BM25Index.index entry) docRef = Some d /\
         BM25Index.result_id r = BM25Index.id d /\
         BM25Index.result_content r = BM25Index.content d)
    results /\
  (Tokenizer.tokenize (BM25Index.tokenizerService c) query BM25Index.TOKENIZER_CONFIG = [] ->
   results = []).
Proof.
  intros Hlimit results. subst results. unfold BM25Index.search.
  destruct (cache !! BM25Index.getIndexKey userId) as [entry|];
    [|cbn [fst length]; split; [lia|split; [constructor|reflexivity]]].
  destruct (Tokenizer.tokenize _ _ _) as [|t ts];
    [cbn [fst length]; split; [lia|split; [constructor|reflexivity]]|].
  destruct (BM25Index.index_search _ _ _) as [searchResults|];
    [|cbn [fst length]; split; [lia|split; [constructor|reflexivity]]].
  cbn [fst]. split; [|split; [|discriminate]].
  - etransitivity; [|apply (js_slice0_length searchResults); exact Hlimit].
    apply inj_le, omap_length.
  - apply Forall_forall. intros r Hr.
    apply list_elem_of_omap in Hr as (res & _ & Hres).
    unfold BM25Index.format_result in Hres.
    destruct (BM25Index.getDoc _ _) as [d|] eqn:Hd; [|discriminate].
    injection Hres as <-. exists entry, (fst res), d. cbn. auto.
Qed.

Lemma X10_search_bounded_witness :
  let cache :=
    BM25Index.buildIndex sample_collaborators 0 1
      [sample_document "7" "hybrid search"; sample_document "8" "hybrid retrieval"]
      BM25Index.no_options ∅ in
  let results :=
    fst (BM25Index.search sample_collaborators 5 1 (u "hybrid") (Some 1) cache) in
  Z.of_nat (length results) <= 1 /\
  Forall
    (fun r =>
       exists entry docRef d,
         cache !! BM25Index.getIndexKey 1 = Some entry /\
         BM25Index.getDoc (BM25Index.index entry) docRef = Some d /\
         BM25Index.result_id r = BM25Index.id d /\
         BM25Index.result_content r = BM25Index.content d)
    results /\
  (Tokenizer.tokenize (BM25Index.tokenizerService sample_collaborators) (u "hybrid")
     BM25Index.TOKENIZER_CONFIG = [] ->
   results = []).
Proof.
  intros cache.
  apply (X10_search_bounded sample_collaborators 5 1 (u "hybrid") (Some 1) cache).
  cbn. lia.
Defined.

Lemma scores_fold (ids : list jsstring) (searchResults acc : list (jsstring * jsnum)) :
  NoDup (List.map fst acc) ->
  Forall (fun kv => fst kv ∈ ids /\ kv ∈ searchResults) acc ->
  let scores :=
    fold_left
      (fun scores result =>
         if decide (fst result ∈ ids)
         then amap_set (fst result) (snd result) scores
         else scores)
      searchResults acc in
  NoDup (List.map fst scores) /\
  Forall (fun kv => fst kv ∈ ids /\ kv ∈ searchResults) scores.
Proof.
  assert (H : forall l acc,
             l ⊆ searchResults ->
             NoDup (List.map fst acc) ->
             Forall (fun kv => fst kv ∈ ids /\ kv ∈ searchResults) acc ->
             let scores :=
               fold_left
                 (fun scores result =>
                    if decide (fst result ∈ ids)
                    then amap_set (fst result) (snd result) scores
                    else scores)
                 l acc in
             NoDup (List.map fst scores) /\
             Forall (fun kv => fst kv ∈ ids /\ kv ∈ searchResults) scores).
  { clear acc. induction l as [|[k v] l IH]; intros acc Hl Hnd Hall; [now split|].
    cbn [fold_left fst snd]. apply IH.
    - intros x Hx. apply Hl. now right.
    - destruct (decide (k ∈ ids)); [|exact Hnd].
      rewrite amap_set_keys. now apply js_set_add_NoDup.
    - destruct (decide (k ∈ ids)) as [Hk|]; [|exact Hall].
      apply Forall_forall. intros x Hx. apply amap_set_elem in Hx as [->|Hx].
      + split; [exact Hk|]. apply Hl. left.
      + rewrite Forall_forall in Hall. now apply Hall. }
  now apply H.
Qed.

(** X11.  [getScoresForDocuments] returns one score per document id, for
    requested ids only, and each score is one the library's search reported
    for that id in the tenant's index. *)
Theorem X11_scores_for_requested c now userId query documentIds cache :
  let scores := fst (BM25Index.getScoresForDocuments c now userId query documentIds cache) in
  NoDup (List.map fst scores) /\
  Forall
    (fun kv =>
       fst kv ∈ documentIds /\
       exists entry queryString searchResults,
         cache !! BM25Index.getIndexKey userId = Some entry /\
         BM25Index.index_search c (BM25Index.index entry) queryString = Ok searchResults /\
         kv ∈ searchResults)
    scores.
Proof.
  intros scores. subst scores. unfold BM25Index.getScoresForDocuments.
  destruct (cache !! BM25Index.getIndexKey userId) as [entry|];
    [|split; constructor].
  destruct (Tokenizer.tokenize _ _ _) as [|t ts]; [split; constructor|].
  destruct (BM25Index.index_search _ _ _) as [searchResults|] eqn:Hsearch;
    [|split; constructor].
  cbn [fst].
  destruct (scores_fold documentIds searchResults []) as [Hnd Hall];
    [constructor|constructor|].
  split; [exact Hnd|]. eapply Forall_impl; [exact Hall|].
  intros kv [Hk Hkv]. split; [exact Hk|].
  exists entry. eexists. exists searchResults.
  split; [reflexivity|]. split; [exact Hsearch|exact Hkv].
Qed.

(** X12.  After [clearIndex] the tenant has no index: [hasIndex] is false,
    the count is 0, a search finds nothing, and clearing again changes
    nothing.  The next [addDocument] starts a new index that holds the added
    document only, with count 1. *)
Theorem X12_clearIndex_then c now userId cache :
  let cache' := BM25Index.clearIndex userId cache in
  BM25Index.hasIndex userId cache' = (false, cache') /\
  BM25Index.getDocumentCount userId cache' = (0, cache') /\
  (forall query limit, BM25Index.search c now userId query limit cache' = ([], cache')) /\
  BM25Index.clearIndex userId cache' = cache' /\
  (forall document,
     exists entry,
       BM25Index.addDocument c now userId document cache' !! BM25Index.getIndexKey userId
       = Some entry /\
       BM25Index.documentCount entry = 1 /\
       dom (BM25Index.documentStore (BM25Index.index entry))
       = {[ BM25Index.id document ]}).
Proof.
  intros cache'.
  assert (Hnone : cache' !! BM25Index.getIndexKey userId = None)
    by apply lookup_delete_eq.
  split; [|split; [|split; [|split]]].
  - unfold BM25Index.hasIndex. now rewrite Hnone.
  - unfold BM25Index.getDocumentCount. now rewrite Hnone.
  - intros. unfold BM25Index.search. now rewrite Hnone.
  - unfold BM25Index.clearIndex. now apply delete_id.
  - intros document. unfold BM25Index.addDocument. rewrite Hnone.
    unfold BM25Index.buildIndex. eexists. split; [apply lookup_insert_eq|].
    split; [reflexivity|]. cbn [BM25Index.index fold_left].
    unfold BM25Index.addDoc. cbn [BM25Index.documentStore BM25Index.elasticlunr
                                   BM25Index.index_document BM25Index.doc].
    rewrite dom_insert_L, dom_empty_L. apply (right_id_L ∅ (∪)).
Qed.

(* ===================================================================== *)
(** ** Further properties of the keyword search                           *)
(* ===================================================================== *)

(** A pattern that ends with [%] never ends with a pending escape. *)
Lemma like_parse_percent escaped p :
  is_Some (Store.like_parse escaped (p ++ [Store.PERCENT])).
Proof.
  revert escaped. induction p as [|c p IH]; intros escaped.
  - destruct escaped; cbn; eauto.
  - cbn [app Store.like_parse]. destruct escaped.
    + destruct (IH false) as [items ->]. cbn. eauto.
    + destruct (c =? Store.BACKSLASH)%N; [apply IH|].
      destruct (IH false) as [items ->].
      destruct (c =? Store.PERCENT)%N; [cbn; eauto|].
      destruct (c =? Store.UNDERSCORE)%N; cbn; eauto.
Qed.

Lemma operand_compiles kw :
  Store.NUL ∉ kw ->
  exists items,
    Store.lex_literal (Retriever.ilike_operand kw)
    = Some (Store.PERCENT :: flat_map pattern_unit kw ++ [Store.PERCENT], []) /\
    Store.like_parse false (Store.PERCENT :: flat_map pattern_unit kw ++ [Store.PERCENT])
    = Some items.
Proof.
  intros Hnul.
  destruct (like_parse_percent false (Store.PERCENT :: flat_map pattern_unit kw))
    as [items Hitems].
  exists items. split; [now apply lex_operand|exact Hitems].
Qed.

(** The operands of the statement compile exactly when no keyword holds the
    code unit 0, to one pattern per keyword. *)
Lemma operands_compiled keywords :
  match Store.compile_operands (List.map Retriever.ilike_operand keywords) with
  | Ok patterns =>
      Forall (fun kw => Store.NUL ∉ kw) keywords /\ length patterns = length keywords
  | Throw _ => Exists (fun kw => Store.NUL ∈ kw) keywords
  end.
Proof.
  induction keywords as [|kw keywords IH]; [now split|].
  cbn [List.map Store.compile_operands].
  destruct (decide (Store.NUL ∈ kw)) as [Hnul|Hnul].
  - rewrite lex_operand_nul by exact Hnul. now left.
  - destruct (operand_compiles kw Hnul) as (items & Hlex & Hparse).
    rewrite Hlex, Hparse.
    destruct (Store.compile_operands (List.map Retriever.ilike_operand keywords))
      as [patterns|e].
    + destruct IH as [IH Hlen]. split; [now constructor|]. cbn. now rewrite Hlen.
    + now right.
Qed.

Lemma operands_rejected keywords :
  Exists (fun kw => Store.NUL ∈ kw) keywords ->
  exists e, Store.compile_operands (List.map Retriever.ilike_operand keywords) = Throw e.
Proof.
  intros Hex. pose proof (operands_compiled keywords) as H.
  destruct (Store.compile_operands _) as [patterns|e]; [|now exists e].
  destruct H as [Hall _]. apply Exists_exists in Hex as (kw & Hkw & Hnul).
  rewrite Forall_forall in Hall. now destruct (Hall kw Hkw).
Qed.

(** X13.  For a keyword without the code unit 0, whatever else it holds,
    its operand in the keyword statement lexes as one string literal with
    nothing after it, and the literal is a well-formed LIKE pattern: a quote,
    [%], [_] or backslash in a keyword never ends the literal early.  The
    operands of the statement compile exactly when no keyword holds the code
    unit 0; with such a keyword the store rejects the statement and
    [keywordSearch] returns nothing. *)
Theorem X13_keyword_statement_compiles {S} (r : Retriever.HybridRetriever S)
    query keywords :
  Forall
    (fun kw =>
       Store.NUL ∉ kw ->
       exists pattern,
         Store.lex_literal (Retriever.ilike_operand kw) = Some (pattern, []) /\
         is_Some (Store.like_parse false pattern) /\
         forall content, exists b, Store.ILIKE content (Retriever.ilike_operand kw) = Ok b)
    keywords /\
  ((exists patterns,
      Store.compile_operands
        (Store.where_operands (Retriever.keyword_statement keywords)) = Ok patterns /\
      Store.compile_operands
        (Store.count_operands (Retriever.keyword_statement keywords)) = Ok patterns /\
      length patterns = length keywords)
   <-> Forall (fun kw => Store.NUL ∉ kw) keywords) /\
  (Exists (fun kw => Store.NUL ∈ kw) (Retriever.extractKeywords r query) ->
   Retriever.keywordSearch r query = []).
Proof.
  split; [|split].
  - apply Forall_forall. intros kw _ Hnul.
    destruct (operand_compiles kw Hnul) as (items & Hlex & Hparse).
    eexists. split; [exact Hlex|]. split; [now exists items|].
    intros content. unfold Store.ILIKE. rewrite Hlex, Hparse. eauto.
  - cbn [Retriever.keyword_statement Store.where_operands Store.count_operands].
    pose proof (operands_compiled keywords) as H. split.
    + intros (patterns & Hc & _). rewrite Hc in H. apply H.
    + intros Hall.
      destruct (Store.compile_operands _) as [patterns|e].
      * exists patterns. destruct H as [_ Hlen]. auto.
      * apply Exists_exists in H as (kw & Hkw & Hnul).
        rewrite Forall_forall in Hall. now destruct (Hall kw Hkw).
  - intros Hex. destruct (operands_rejected _ Hex) as [e He].
    unfold Retriever.keywordSearch.
    destruct (Retriever.extractKeywords r query) as [|kw kws]; [reflexivity|].
    destruct (Store.connect (Retriever.pool r)); [|reflexivity].
    unfold Store.run_keyword, Retriever.keyword_statement.
    cbn [Store.count_operands Store.where_operands]. now rewrite He.
Qed.

(** A segmenter that hands over a token with the code unit 0 makes the
    keyword search come back empty, although the row matches the other
    keyword. *)
Example keywordSearch_nul :
  let r :=
    Retriever.new_HybridRetriever sample_pool sample_embeddings 7 with_segmenter in
  Retriever.extractKeywords r (u "alpha " ++ [120; 0; 121]%N)
  = [u "alpha"; [120; 0; 121]%N] /\
  Retriever.keywordSearch r (u "alpha " ++ [120; 0; 121]%N) = [] /\
  List.map Retriever.kw_id (Retriever.keywordSearch r (u "alpha")) = [1].
Proof. vm_compute. repeat split; reflexivity. Qed.

Lemma StronglySorted_map {A B} (f : A -> B) (R : B -> B -> Prop) l :
  StronglySorted (fun a b => R (f a) (f b)) l -> StronglySorted R (List.map f l).
Proof.
  induction 1 as [|x l Hl IH Hx]; cbn; constructor; [assumption|].
  apply Forall_fmap. exact Hx.
Qed.

Lemma StronglySorted_take {A} (R : A -> A -> Prop) n l :
  StronglySorted R l -> StronglySorted R (take n l).
Proof.
  intros H. revert n. induction H as [|x l Hl IH Hx]; intros [|n]; cbn;
    try constructor; [apply IH|now apply Forall_take].
Qed.

Lemma js_pos_integer z : js_pos (Num (inject_Z z)) = (0 <? z).
Proof.
  cbn. unfold Qle_bool, inject_Z. cbn. rewrite Z.mul_1_r.
  destruct (Z.leb_spec z 0), (Z.ltb_spec 0 z); cbn; try reflexivity; lia.
Qed.

(** The comparator of [ORDER BY "matchCount" DESC, id ASC]. *)
Lemma by_matchCount_id_order a b :
  may_precede Store.by_matchCount_id a b <->
  snd b < snd a \/ (snd a = snd b /\ Store.row_id (fst a) <= Store.row_id (fst b)).
Proof.
  unfold may_precede, Store.by_matchCount_id.
  destruct (Z.eqb_spec (snd a) (snd b)); rewrite js_pos_integer, Z.ltb_ge; lia.
Qed.

Lemma by_matchCount_id_total a b :
  js_pos (Store.by_matchCount_id a b) = true -> may_precede Store.by_matchCount_id b a.
Proof.
  intros H. apply by_matchCount_id_order.
  destruct (decide (snd a < snd b \/
                    (snd b = snd a /\ Store.row_id (fst b) <= Store.row_id (fst a))))
    as [Hd|Hd]; [exact Hd|].
  assert (Hab : may_precede Store.by_matchCount_id a b)
    by (apply by_matchCount_id_order; lia).
  unfold may_precede in Hab. congruence.
Qed.

Lemma by_matchCount_id_trans a b c :
  may_precede Store.by_matchCount_id a b ->
  may_precede Store.by_matchCount_id b c ->
  may_precede Store.by_matchCount_id a c.
Proof. rewrite !by_matchCount_id_order. lia. Qed.

(** What [keywordSearch] returns: nothing, or the first [2 * limit] rows of
    the tenant that match a keyword, each with the number of keywords it
    matches, in the order of the statement. *)
Lemma keywordSearch_cases {S} (r : Retriever.HybridRetriever S) query :
  Retriever.keywordSearch r query = [] \/
  exists patterns,
    length patterns = length (Retriever.extractKeywords r query) /\
    0 <= Retriever.limit r * 2 /\
    Retriever.keywordSearch r query
    = List.map
        (fun row =>
           {| Retriever.kw_id := Store.row_id (fst row);
              Retriever.kw_fileName := Store.row_fileName (fst row);
              Retriever.kw_content := Store.row_content (fst row);
              Retriever.kw_preview := Store.row_preview (fst row);
              Retriever.kw_size := Store.row_size (fst row);
              Retriever.kw_type := Store.row_type (fst row);
              Retriever.kw_matchCount := snd row |})
        (firstn (Z.to_nat (Retriever.limit r * 2))
           (js_sort Store.by_matchCount_id
              (List.map
                 (fun row => (row, Store.match_count patterns (Store.row_content row)))
                 (List.filter
                    (fun row =>
                       bool_decide (Store.row_userId row = Retriever.userId r) &&
                       existsb
                         (fun items => Store.ilike_match items (Store.row_content row))
                         patterns)
                    (Store.Knowledge (Retriever.pool r)))))).
Proof.
  unfold Retriever.keywordSearch.
  pose proof (operands_compiled (Retriever.extractKeywords r query)) as Hc.
  destruct (Retriever.extractKeywords r query) as [|kw kws] eqn:Hkw; [now left|].
  destruct (Store.connect (Retriever.pool r)); [|now left].
  unfold Store.run_keyword, Retriever.keyword_statement.
  cbn [Store.count_operands Store.where_operands].
  destruct (Store.compile_operands _) as [patterns|e]; [|now left].
  destruct Hc as [_ Hlen].
  cbn [Store.int_param Store.param lookup list_lookup].
  destruct (Z.ltb_spec (Retriever.limit r * 2) 0) as [|Hlimit]; [now left|].
  right. exists patterns. auto.
Qed.

Lemma match_count_bounds patterns content :
  0 <= Store.match_count patterns content <= Z.of_nat (length patterns) /\
  (existsb (fun items => Store.ilike_match items content) patterns = true ->
   1 <= Store.match_count patterns content).
Proof.
  unfold Store.match_count. induction patterns as [|items patterns IH]; cbn.
  - split; [lia|discriminate].
  - destruct (Store.ilike_match items content); cbn [length orb]; [split; lia|].
    destruct IH as [IH1 IH2]. split; [lia|exact IH2].
Qed.

(** X14.  The keyword hits of the retriever: rows of the retriever's own
    tenant, each matching at least one and at most all of the extracted
    keywords, ordered by falling match count and then rising id, and no more
    than twice the limit of them. *)
Theorem X14_keywordSearch_results {S} (r : Retriever.HybridRetriever S) query :
  0 <= Retriever.limit r ->
  let results := Retriever.keywordSearch r query in
  Z.of_nat (length results) <= 2 * Retriever.limit r /\
  StronglySorted matchCount_then_id results /\
  Forall
    (fun x =>
       1 <= Retriever.kw_matchCount x
       <= Z.of_nat (length (Retriever.extractKeywords r query)) /\
       exists row,
         row ∈ Store.Knowledge (Retriever.pool r) /\
         Store.row_userId row = Retriever.userId r /\
         Retriever.kw_id x = Store.row_id row /\
         Retriever.kw_content x = Store.row_content row)
    results.
Proof.
  intros Hlimit results. subst results.
  destruct (keywordSearch_cases r query) as [->|(patterns & Hlen & _ & ->)];
    [cbn; split; [lia|split; constructor]|].
  split; [|split].
  - rewrite length_map, length_take. lia.
  - apply StronglySorted_map, StronglySorted_take.
    eapply StronglySorted_weaken;
      [|apply js_sort_sorted; [apply by_matchCount_id_total|apply by_matchCount_id_trans]].
    intros a b Hab. apply by_matchCount_id_order in Hab. exact Hab.
  - apply Forall_fmap, Forall_take. apply Forall_forall. intros [row n] Hx.
    rewrite js_sort_perm in Hx. apply list_elem_of_fmap in Hx as (row' & [= -> ->] & Hrow).
    apply filter_elem in Hrow as [Hrow Hsel]. apply andb_true_iff in Hsel as [Hu Hm].
    apply bool_decide_eq_true in Hu.
    destruct (match_count_bounds patterns (Store.row_content row')) as [Hb Hone].
    unfold compose. cbn. split; [rewrite <- Hlen; split; [now apply Hone|apply Hb]|].
    exists row'. auto.
Qed.

Lemma X14_keywordSearch_results_witness :
  let results := Retriever.keywordSearch sample_retriever (u "alpha beta") in
  Z.of_nat (length results) <= 2 * 5 /\
  StronglySorted matchCount_then_id results /\
  Forall
    (fun x =>
       1 <= Retriever.kw_matchCount x
       <= Z.of_nat (length (Retriever.extractKeywords sample_retriever (u "alpha beta"))) /\
       exists row,
         row ∈ Store.Knowledge sample_pool /\
         Store.row_userId row = 7 /\
         Retriever.kw_id x = Store.row_id row /\
         Retriever.kw_content x = Store.row_content row)
    results.
Proof.
  apply (X14_keywordSearch_results sample_retriever (u "alpha beta")). cbn. lia.
Defined.

Lemma word_without_backslash t : lower_word t \/ cjk_word t -> Store.BACKSLASH ∉ t.
Proof.
  intros [[_ H]|[_ H]] Hin; rewrite Forall_forall in H; specialize (H _ Hin).
  - unfold Store.BACKSLASH in H. lia.
  - discriminate H.
Qed.

Lemma word_without_nul t : lower_word t \/ cjk_word t -> Store.NUL ∉ t.
Proof.
  intros [[_ H]|[_ H]] Hin; rewrite Forall_forall in H; specialize (H _ Hin).
  - unfold Store.NUL in H. lia.
  - discriminate H.
Qed.

(** The words the retriever and the knowledge service cut out of a query by
    themselves, for any stop list. *)
Lemma own_words (stop : jsstring -> bool) query t :
  t ∈ List.filter
        (fun lowerWord => (2 <=? length lowerWord)%nat && negb (stop lowerWord))
        (List.map Tokenizer.toLowerCase (Tokenizer.match_all Tokenizer.isLatin query)) ++
      flat_map
        (fun segment =>
           List.filter (fun word => negb (stop word)) (Tokenizer.ngrams 2 segment) ++
           (if (2 <=? length segment)%nat && negb (stop segment) then [segment] else []))
        (Tokenizer.match_all Tokenizer.isCJK query) ->
  (lower_word t \/ cjk_word t) /\ (2 <= length t)%nat /\ stop t = false.
Proof.
  intros Ht. apply elem_of_app in Ht as [Ht|Ht].
  - apply filter_elem in Ht as [Ht Hf]. apply andb_true_iff in Hf as [Hlen Hstop].
    apply Nat.leb_le in Hlen. apply negb_true_iff in Hstop.
    apply list_elem_of_fmap in Ht as (w & -> & Hw).
    pose proof (match_all_runs Tokenizer.isLatin query) as Hruns.
    rewrite Forall_forall in Hruns. destruct (Hruns _ Hw) as [Hne Hall].
    split; [left; now apply toLowerCase_latin|now split].
  - apply list_elem_of_In, in_flat_map in Ht as (segment & Hseg & Ht).
    apply list_elem_of_In in Hseg, Ht.
    pose proof (match_all_runs Tokenizer.isCJK query) as Hruns.
    rewrite Forall_forall in Hruns. destruct (Hruns _ Hseg) as [Hne Hall].
    apply elem_of_app in Ht as [Ht|Ht].
    + apply filter_elem in Ht as [Ht Hstop]. apply negb_true_iff in Hstop.
      apply ngrams_elem in Ht as (Hlen & _ & Hsub). split; [right; split|split; [lia|exact Hstop]].
      * destruct t; [cbn in Hlen; lia|discriminate].
      * eapply Forall_impl; [exact Hsub|]. intros c Hc.
        rewrite Forall_forall in Hall. now apply Hall.
    + destruct ((2 <=? length segment)%nat && negb (stop segment)) eqn:E; [|inversion Ht].
      apply list_elem_of_singleton in Ht as ->.
      apply andb_true_iff in E as [Hlen Hstop].
      apply Nat.leb_le in Hlen. apply negb_true_iff in Hstop.
      split; [right; now split|now split].
Qed.

Lemma own_keywords_alphabet {S} (r : Retriever.HybridRetriever S) query :
  cuts_by_itself r ->
  Forall (fun kw => lower_word kw \/ cjk_word kw) (Retriever.extractKeywords r query).
Proof.
  unfold cuts_by_itself, Retriever.extractKeywords. intros Hr.
  apply Forall_forall. intros kw Hkw.
  destruct (Retriever.tokenizerService r) as [ts|].
  - rewrite extractKeywords_first_seen in Hkw. apply js_slice0_sublist in Hkw.
    unfold Tokenizer.tokenize in Hkw. rewrite Hr in Hkw.
    destruct (_ || _); [inversion Hkw|].
    apply postProcess_elem in Hkw as (Hkw & _).
    pose proof (fallbackTokenize_tokens query) as H. rewrite Forall_forall in H.
    destruct (H _ Hkw) as [?|[? _]]; auto.
  - apply js_slice0_sublist, js_unique_elem, own_words in Hkw as (H & _). exact H.
Qed.

(** X15.  A retriever that cuts the query itself (no tokenizer service, or
    one whose segmenter is not loaded) only has keywords of letters or of CJK
    characters, and for each of them the predicate of the keyword statement is
    case-insensitive containment of the keyword in the content. *)
Theorem X15_own_keywords_matched_literally {S} (r : Retriever.HybridRetriever S) query :
  cuts_by_itself r ->
  Forall
    (fun kw =>
       (lower_word kw \/ cjk_word kw) /\
       forall content,
         Store.ILIKE content (Retriever.ilike_operand kw) = Ok (contains_ci content kw))
    (Retriever.extractKeywords r query).
Proof.
  intros Hr. eapply Forall_impl; [apply (own_keywords_alphabet r query Hr)|].
  intros kw Hkw. split; [exact Hkw|]. intros content.
  apply keyword_matched_literally;
    [apply word_without_backslash, Hkw|apply word_without_nul, Hkw].
Qed.

Lemma X15_own_keywords_matched_literally_witness :
  Forall
    (fun kw =>
       (lower_word kw \/ cjk_word kw) /\
       forall content,
         Store.ILIKE content (Retriever.ilike_operand kw) = Ok (contains_ci content kw))
    (Retriever.extractKeywords sample_retriever (u "50% of C:\temp")).
Proof.
  apply (X15_own_keywords_matched_literally sample_retriever (u "50% of C:\temp")).
  exact I.
Defined.

(** X16.  The keywords the retriever extracts without a tokenizer service,
    and those the knowledge service extracts: at most ten, distinct, each of
    two or more code units, made of lower-case letters only or of CJK
    characters only, and none on the stop list of its extractor. *)
Theorem X16_own_extractKeywords {S} (r : Retriever.HybridRetriever S) query :
  Retriever.tokenizerService r = None ->
  let own keywords (stopWords : list jsstring) :=
    NoDup keywords /\ (length keywords <= 10)%nat /\
    Forall
      (fun kw => (lower_word kw \/ cjk_word kw) /\ (2 <= length kw)%nat /\ kw ∉ stopWords)
      keywords in
  own (Retriever.extractKeywords r query) Retriever.stopWords /\
  own (KnowledgeService.extractKeywords query) KnowledgeService.stopWords.
Proof.
  intros Hnone own.
  assert (H : forall stopWords words,
             (forall t, t ∈ words ->
                        (lower_word t \/ cjk_word t) /\ (2 <= length t)%nat /\
                        bool_decide (t ∈ stopWords) = false) ->
             own (js_slice0 (js_unique words) 10) stopWords).
  { intros stopWords words Hwords. unfold own, js_slice0. cbn [Z.ltb Z.compare Z.to_nat].
    split; [|split].
    - eapply sublist_NoDup; [apply js_unique_NoDup|apply sublist_take].
    - rewrite length_take. lia.
    - apply Forall_take, Forall_forall. intros kw Hkw.
      apply js_unique_elem, Hwords in Hkw as (Ha & Hlen & Hstop).
      apply bool_decide_eq_false in Hstop. auto. }
  split.
  - unfold Retriever.extractKeywords. rewrite Hnone. apply H. intros t Ht.
    now apply own_words in Ht.
  - unfold KnowledgeService.extractKeywords. apply H. intros t Ht.
    now apply own_words in Ht.
Qed.

Lemma X16_own_extractKeywords_witness :
  let own keywords (stopWords : list jsstring) :=
    NoDup keywords /\ (length keywords <= 10)%nat /\
    Forall
      (fun kw => (lower_word kw \/ cjk_word kw) /\ (2 <= length kw)%nat /\ kw ∉ stopWords)
      keywords in
  own (Retriever.extractKeywords sample_retriever (u "how do you rank a hybrid search"))
    Retriever.stopWords /\
  own (KnowledgeService.extractKeywords (u "how do you rank a hybrid search"))
    KnowledgeService.stopWords.
Proof.
  apply (X16_own_extractKeywords sample_retriever (u "how do you rank a hybrid search")).
  reflexivity.
Defined.

(* ===================================================================== *)
(** ** Retrieval end to end                                               *)
(* ===================================================================== *)

Lemma vectorSearch_nothing {S} (r : Retriever.HybridRetriever S) query :
  Retriever.vectorSearch r query = [].
Proof.
  unfold Retriever.vectorSearch.
  destruct (Retriever.embeddings r query); [|reflexivity].
  destruct (Store.connect (Retriever.pool r)); [|reflexivity].
  now rewrite vector_statement_rejected.
Qed.

Lemma amap_get_absent {K V} `{EqDecision K} (k : K) (m : list (K * V)) :
  k ∉ List.map fst m -> amap_get k m = None.
Proof.
  induction m as [|[k' v] m IH]; cbn; [reflexivity|]. intros H.
  apply not_elem_of_cons in H as [Hne H]. rewrite decide_False by exact Hne. now apply IH.
Qed.

Lemma add_keyword_fresh {S} (r : Retriever.HybridRetriever S) m ix :
  Retriever.kw_id (snd ix) ∉ List.map fst m ->
  Retriever.add_keyword r m ix = m ++ Retriever.add_keyword r [] ix.
Proof.
  intros H. apply amap_get_absent in H. destruct ix as [i kw]. cbn [snd] in H.
  unfold Retriever.add_keyword. rewrite H. cbn [amap_get].
  now rewrite amap_set_fresh by exact H.
Qed.

(** The keyword pass over hits with distinct ids that the map does not hold
    yet appends one entry per hit. *)
Lemma keyword_pass_fresh {S} (r : Retriever.HybridRetriever S) l m :
  NoDup (List.map (fun ix => Retriever.kw_id (snd ix)) l) ->
  (forall ix, ix ∈ l -> Retriever.kw_id (snd ix) ∉ List.map fst m) ->
  fold_left (Retriever.add_keyword r) l m
  = m ++ flat_map (Retriever.add_keyword r []) l.
Proof.
  revert m. induction l as [|ix l IH]; intros m Hnd Hm; cbn [fold_left flat_map].
  - now rewrite app_nil_r.
  - cbn [List.map] in Hnd. apply NoDup_cons in Hnd as [Hkw Hnd].
    rewrite (add_keyword_fresh r m ix) by (apply Hm; left).
    rewrite IH; [now rewrite <- app_assoc|exact Hnd|].
    intros ix' Hix'. rewrite map_app. intros Hin.
    apply elem_of_app in Hin as [Hin|Hin].
    + apply (Hm ix'); [now right|exact Hin].
    + destruct ix as [i kw]. cbn in Hin. apply list_elem_of_singleton in Hin.
      apply Hkw. cbn [snd]. rewrite <- Hin. apply list_elem_of_fmap. now exists ix'.
Qed.

(** With [this.rrfK] undefined and an empty vector list, the fusion hands
    the keyword hits on as they are, with [NaN] for a score. *)
Lemma merge_keyword_only {S} (r : Retriever.HybridRetriever S) ks :
  Retriever.rrfK r = None ->
  NoDup (List.map Retriever.kw_id ks) ->
  Retriever.mergeResultsWithRRF r [] ks
  = js_slice0 (List.map keyword_only ks) (Retriever.limit r).
Proof.
  intros Hk Hnd. unfold Retriever.mergeResultsWithRRF. f_equal.
  unfold Retriever.scoreMap_of. cbn [Retriever.indexed length seq combine fold_left].
  rewrite keyword_pass_fresh.
  - cbn [app].
    assert (Hmap : forall l : list (nat * Retriever.KeywordSearchResult),
               List.map (fun kv => Retriever.fused (snd kv))
                 (flat_map (Retriever.add_keyword r []) l)
               = List.map keyword_only (List.map snd l)).
    { induction l as [|[i kw] l IH]; [reflexivity|].
      cbn [flat_map List.map]. rewrite map_app, IH. cbn [app]. f_equal.
      unfold Retriever.add_keyword. cbn [amap_get amap_set List.map snd].
      unfold Retriever.fused, Retriever.with_hybridScore, keyword_only.
      cbn [Retriever.result Retriever.vectorScore Retriever.entry_keywordScore
           Retriever.id Retriever.fileName Retriever.content Retriever.preview
           Retriever.size Retriever.type Retriever.similarity Retriever.keywordScore].
      rewrite rrfScore_undefined by exact Hk. reflexivity. }
    change (combine (seq 0 (length ks)) ks) with (Retriever.indexed ks).
    rewrite Hmap, indexed_values.
    apply js_sort_fixed. intros a b Ha Hb.
    apply list_elem_of_fmap in Ha as (ka & -> & _).
    apply list_elem_of_fmap in Hb as (kb & -> & _). reflexivity.
  - rewrite <- (map_map snd), indexed_values. exact Hnd.
  - intros ix _ Hin. inversion Hin.
Qed.

Lemma filter_map_NoDup {A B} (f : A -> B) (p : A -> bool) l :
  NoDup (List.map f l) -> NoDup (List.map f (List.filter p l)).
Proof.
  induction l as [|x l IH]; cbn; [auto|]. intros H.
  apply NoDup_cons in H as [Hx H]. destruct (p x); [|now apply IH].
  cbn. apply NoDup_cons. split; [|now apply IH].
  intros Hin. apply Hx. apply list_elem_of_fmap in Hin as (y & -> & Hy).
  apply filter_elem in Hy as [Hy _]. apply list_elem_of_fmap. now exists y.
Qed.

(** The keyword hits have distinct ids when the rows of the table have. *)
Lemma keywordSearch_ids {S} (r : Retriever.HybridRetriever S) query :
  NoDup (List.map Store.row_id (Store.Knowledge (Retriever.pool r))) ->
  NoDup (List.map Retriever.kw_id (Retriever.keywordSearch r query)).
Proof.
  intros Hnd.
  destruct (keywordSearch_cases r query) as [->|(patterns & _ & _ & ->)]; [constructor|].
  rewrite map_map. cbn [Retriever.kw_id].
  rewrite <- (map_map fst Store.row_id).
  rewrite <- !firstn_map.
  eapply sublist_NoDup; [|apply sublist_take].
  rewrite js_sort_perm, !map_map. cbn [fst]. now apply filter_map_NoDup.
Qed.

Lemma retrieval_without_rerank {S} pool embeddings userId
    (options : Retriever.HybridRetrieverOptions S) query s :
  NoDup (List.map Store.row_id (Store.Knowledge pool)) ->
  Retriever.opt_useBM25Rerank options <> Some true ->
  let r := Retriever.new_HybridRetriever pool embeddings userId options in
  Retriever.getSearchResults r query s
  = (js_slice0 (List.map keyword_only (Retriever.keywordSearch r query))
       (Retriever.limit r), s).
Proof.
  intros Hnd Hoff r. unfold Retriever.getSearchResults.
  assert (Hr : Retriever.useBM25Rerank r = false).
  { cbn. destruct (Retriever.opt_useBM25Rerank options) as [[|]|]; cbn; congruence. }
  rewrite Hr. cbn [andb]. rewrite vectorSearch_nothing.
  rewrite merge_keyword_only; [reflexivity|reflexivity|].
  now apply keywordSearch_ids.
Qed.

(** X17.  What a retriever built by the constructor returns when the rerank
    stage is off: the vector branch contributes nothing, so the result is the
    first [limit] keyword hits in the order of the keyword statement, each
    with similarity 0 and a fused score that is [NaN]; the state of the index
    service is not touched. *)
Theorem X17_retrieval_is_keyword_search {S} pool embeddings userId
    (options : Retriever.HybridRetrieverOptions S) query s :
  NoDup (List.map Store.row_id (Store.Knowledge pool)) ->
  Retriever.opt_useBM25Rerank options <> Some true ->
  let r := Retriever.new_HybridRetriever pool embeddings userId options in
  Retriever.getSearchResults r query s
  = (js_slice0 (List.map keyword_only (Retriever.keywordSearch r query))
       (Retriever.limit r), s).
Proof. apply retrieval_without_rerank. Qed.

Lemma X17_retrieval_is_keyword_search_witness :
  let r :=
    Retriever.new_HybridRetriever sample_pool sample_embeddings 7 (@Retriever.no_options unit) in
  Retriever.getSearchResults r (u "alpha beta") tt
  = (js_slice0 (List.map keyword_only (Retriever.keywordSearch r (u "alpha beta")))
       (Retriever.limit r), tt).
Proof.
  apply (X17_retrieval_is_keyword_search sample_pool sample_embeddings 7
           Retriever.no_options (u "alpha beta") tt).
  - apply (bool_decide_unpack _). vm_compute. reflexivity.
  - discriminate.
Defined.

(** The keyword hits depend on the pool, the tenant, the limit and the
    tokenizer service of the retriever, and on nothing else of it. *)
Lemma keywordSearch_depends {S} (r r' : Retriever.HybridRetriever S) query :
  Retriever.pool r = Retriever.pool r' ->
  Retriever.userId r = Retriever.userId r' ->
  Retriever.limit r = Retriever.limit r' ->
  Retriever.tokenizerService r = Retriever.tokenizerService r' ->
  Retriever.keywordSearch r query = Retriever.keywordSearch r' query.
Proof.
  intros Hp Hu Hl Ht. unfold Retriever.keywordSearch, Retriever.extractKeywords.
  now rewrite Hp, Hu, Hl, Ht.
Qed.

(** X18.  [searchWithRetriever], once the key and the pool are there:
    whatever the options say, also about reranking, the index service is left
    alone and the answer is the first [limit] (default 5) keyword hits of the
    tenant, found with the retriever's own keyword extraction.  Any retriever
    on the same pool and tenant with that limit and no tokenizer service has
    these hits: the similarity floor, [rrfK] and the weights do not matter. *)
Theorem X18_searchWithRetriever {S} services userId query
    (options : Retriever.HybridRetrieverOptions S) s apiKey pool
    (r : Retriever.HybridRetriever S) :
  KnowledgeService.getApiKey services userId = Ok apiKey ->
  KnowledgeService.getPool services = Some pool ->
  NoDup (List.map Store.row_id (Store.Knowledge pool)) ->
  Retriever.pool r = pool -> Retriever.userId r = userId ->
  Retriever.limit r = default 5 (Retriever.opt_limit options) ->
  Retriever.tokenizerService r = None ->
  KnowledgeService.searchWithRetriever services userId query options s
  = (Ok (js_slice0 (List.map keyword_only (Retriever.keywordSearch r query))
           (Retriever.limit r)), s).
Proof.
  intros Hkey Hpool Hnd Hp Hu Hl Ht. unfold KnowledgeService.searchWithRetriever.
  rewrite Hkey, Hpool.
  rewrite retrieval_without_rerank; [|exact Hnd|discriminate].
  rewrite (keywordSearch_depends _ r) by (symmetry; assumption).
  cbn [Retriever.limit Retriever.new_HybridRetriever Retriever.opt_limit default].
  unfold id. now rewrite Hl.
Qed.

Lemma X18_searchWithRetriever_witness :
  KnowledgeService.searchWithRetriever sample_services 7 (u "alpha beta")
    (with_rerank 1000) ∅
  = (Ok (js_slice0
           (List.map keyword_only
              (Retriever.keywordSearch
                 (Retriever.new_HybridRetriever sample_pool sample_embeddings 7
                    (@Retriever.no_options (gmap jsstring BM25Index.IndexEntry)))
                 (u "alpha beta")))
           5), ∅).
Proof.
  apply (X18_searchWithRetriever sample_services 7 (u "alpha beta") (with_rerank 1000) ∅
           (u "sk-sample") sample_pool
           (Retriever.new_HybridRetriever sample_pool sample_embeddings 7
              Retriever.no_options)).
  - reflexivity.
  - reflexivity.
  - apply (bool_decide_unpack _). vm_compute. reflexivity.
  - reflexivity.
  - reflexivity.
  - reflexivity.
  - reflexivity.
Defined.

Lemma getApiKey_cases services userId :
  (exists e, KnowledgeService.getApiKey services userId = Throw e) \/
  (exists c k, KnowledgeService.getApiKey services userId = Ok (c :: k) /\
               (KnowledgeService.modelConfig_apiKey services userId = Ok (Some (c :: k)) \/
                KnowledgeService.DASHSCOPE_API_KEY services = Some (c :: k))).
Proof.
  unfold KnowledgeService.getApiKey.
  destruct (KnowledgeService.modelConfig_apiKey services userId) as [[[|c k]|]|e];
    cbn; eauto 6;
    destruct (KnowledgeService.DASHSCOPE_API_KEY services) as [[|c k]|]; cbn; eauto 6.
Qed.

(** X19.  A retriever is only handed out, and [searchWithRetriever] only
    answers, with a non-empty API key (the user's own, else the one of the
    environment) and an initialised pool; otherwise both throw.
    [searchWithRetriever] never changes the state of the index service. *)
Theorem X19_key_and_pool_required {S} services userId query
    (options : Retriever.HybridRetrieverOptions S) s :
  let ready :=
    exists c k pool,
      KnowledgeService.getApiKey services userId = Ok (c :: k) /\
      (KnowledgeService.modelConfig_apiKey services userId = Ok (Some (c :: k)) \/
       KnowledgeService.DASHSCOPE_API_KEY services = Some (c :: k)) /\
      KnowledgeService.getPool services = Some pool in
  snd (KnowledgeService.searchWithRetriever services userId query options s) = s /\
  ((exists results,
      fst (KnowledgeService.searchWithRetriever services userId query options s)
      = Ok results) <-> ready) /\
  ((exists r, KnowledgeService.createRetriever services userId options = Ok r) <-> ready).
Proof.
  intros ready. subst ready.
  unfold KnowledgeService.searchWithRetriever, KnowledgeService.createRetriever.
  destruct (getApiKey_cases services userId) as [[e He]|(c & k & Hk & Hfrom)].
  - rewrite He. cbn [fst snd]. split; [reflexivity|].
    split; (split; [intros [? H]; discriminate H|intros (? & ? & ? & H & _); discriminate H]).
  - rewrite Hk. destruct (KnowledgeService.getPool services) as [pool|].
    + destruct (Retriever.getSearchResults _ _ _) as [results s'] eqn:Hres.
      assert (Hs : s' = s).
      { unfold Retriever.getSearchResults in Hres. cbn [Retriever.new_HybridRetriever
          Retriever.useBM25Rerank default andb] in Hres. now injection Hres. }
      cbn [fst snd]. split; [exact Hs|].
      split; (split; [intros _; exists c, k, pool; auto|intros _; eauto]).
    + cbn [fst snd]. split; [reflexivity|].
      split; (split; [intros [? H]; discriminate H
                     |intros (? & ? & ? & _ & _ & H); discriminate H]).
Qed.

(* ===================================================================== *)
(** ** Further properties of the rerank stage and of the vector store     *)
(* ===================================================================== *)

Lemma without_score_rescored x score :
  without_score (Retriever.with_hybridScore x score) = without_score x.
Proof. reflexivity. Qed.

Lemma rescore_documents {S} (r : Retriever.HybridRetriever S) results bm25Scores :
  Permutation (List.map without_score (Retriever.rescore r results bm25Scores))
    (List.map without_score results) /\
  StronglySorted
    (fun a b => key_le (Retriever.sort_key b) (Retriever.sort_key a) = true)
    (Retriever.rescore r results bm25Scores).
Proof.
  unfold Retriever.rescore. split.
  - rewrite js_sort_perm, map_map. erewrite map_ext; [reflexivity|].
    intros x. apply without_score_rescored.
  - eapply StronglySorted_weaken;
      [|apply js_sort_sorted; [apply by_hybridScore_total|apply by_hybridScore_trans]].
    intros a b. apply by_hybridScore_order.
Qed.

(** X20.  The rerank stage never adds, drops or alters a document: its
    output is a rearrangement of its input in which only [hybridScore] may
    differ, whatever the index service answers or throws; when it did rescore,
    the output is in falling order of the new score. *)
Theorem X20_rerank_keeps_documents {S} (r : Retriever.HybridRetriever S) query results s :
  let out := fst (Retriever.rerankWithBM25 r query results s) in
  Permutation (List.map without_score out) (List.map without_score results) /\
  length out = length results /\
  (out = results \/
   StronglySorted
     (fun a b => key_le (Retriever.sort_key b) (Retriever.sort_key a) = true) out).
Proof.
  intros out.
  assert (H : out = results \/
              exists bm25Scores, out = Retriever.rescore r results bm25Scores).
  { subst out. unfold Retriever.rerankWithBM25, Retriever.rerank_try.
    destruct results as [|x results]; [now left|].
    destruct (Retriever.bm25IndexService r) as [service|]; [|now left].
    destruct (Retriever.hasIndex service (Retriever.userId r) s) as [[[|]|] s1];
      try (now left).
    destruct (Retriever.getScoresForDocuments service _ _ _ s1) as [[bm25Scores|] s2];
      [right; now exists bm25Scores|now left]. }
  destruct H as [->|[bm25Scores ->]]; [repeat split; auto|].
  destruct (rescore_documents r results bm25Scores) as [Hperm Hsorted].
  split; [exact Hperm|]. split; [|now right].
  apply Permutation_length in Hperm. now rewrite !length_map in Hperm.
Qed.

(** X21.  [similaritySearch] of the vector store, for an embedded query, a
    connected pool and a count [k] that is not negative: at most [k] rows,
    all of the asking tenant, all at or above the similarity floor, in falling
    order of similarity. *)
Theorem X21_similaritySearch_results pool embedQuery query userId k floor e :
  embedQuery query = Ok e -> Store.connect pool = Ok tt -> 0 <= k ->
  exists rows,
    VectorStore.similaritySearch pool embedQuery query userId (Some k) (Some floor)
    = Ok (List.map
            (fun row => (Store.row_id row, Store.row_content row,
                         Store.similarity_to pool e row))
            rows) /\
    Z.of_nat (length rows) <= k /\
    Forall
      (fun row =>
         row ∈ Store.Knowledge pool /\ Store.row_userId row = userId /\
         (floor <= Store.similarity_to pool e row)%Q)
      rows /\
    StronglySorted
      (fun a b => (Store.similarity_to pool e b <= Store.similarity_to pool e a)%Q)
      rows.
Proof.
  intros He Hc Hk.
  destruct (similaritySearch_floor_order pool embedQuery query userId k floor e He Hc Hk)
    as (ordered & Heq & Hperm & Hsorted).
  exists (firstn (Z.to_nat k) ordered). split; [exact Heq|]. split; [|split].
  - rewrite length_take. lia.
  - apply Forall_take, Forall_forall. intros row Hrow.
    rewrite Hperm in Hrow. apply filter_elem in Hrow as [Hrow Hsel].
    apply andb_true_iff in Hsel as [Hu Hf].
    apply bool_decide_eq_true in Hu. apply Qle_bool_iff in Hf. auto.
  - now apply StronglySorted_take.
Qed.

Lemma X21_similaritySearch_results_witness :
  exists rows,
    VectorStore.similaritySearch sample_pool sample_embeddings (u "zzz") 7 (Some 5)
      (Some (3 # 10)%Q)
    = Ok (List.map
            (fun row => (Store.row_id row, Store.row_content row,
                         Store.similarity_to sample_pool [0%Q] row))
            rows) /\
    Z.of_nat (length rows) <= 5 /\
    Forall
      (fun row =>
         row ∈ Store.Knowledge sample_pool /\ Store.row_userId row = 7 /\
         (3 # 10 <= Store.similarity_to sample_pool [0%Q] row)%Q)
      rows /\
    StronglySorted
      (fun a b =>
         (Store.similarity_to sample_pool [0%Q] b
          <= Store.similarity_to sample_pool [0%Q] a)%Q)
      rows.
Proof.
  apply (X21_similaritySearch_results sample_pool sample_embeddings (u "zzz") 7 5
           (3 # 10)%Q [0%Q]).
  - reflexivity.
  - reflexivity.
  - lia.
Defined.

(* ===================================================================== *)
(** ** The rank fusion of the knowledge service                           *)
(* ===================================================================== *)

Lemma service_add_vector_key k w m ix :
  List.map fst (KnowledgeService.add_vector k w m ix)
  = js_set_add (List.map fst m) (KnowledgeService.v_id (snd ix)).
Proof. destruct ix as [i x]. apply amap_set_keys. Qed.

Lemma service_add_keyword_key k w m ix :
  List.map fst (KnowledgeService.add_keyword k w m ix)
  = js_set_add (List.map fst m) (Retriever.kw_id (snd ix)).
Proof.
  destruct ix as [i x]. unfold KnowledgeService.add_keyword.
  destruct (amap_get _ m); apply amap_set_keys.
Qed.

Lemma service_scoreMap_keys k vw kw vs ks :
  List.map fst (KnowledgeService.scoreMap_of k vw kw vs ks)
  = js_unique (List.map KnowledgeService.v_id vs ++ List.map Retriever.kw_id ks).
Proof.
  unfold KnowledgeService.scoreMap_of, js_unique.
  rewrite (fold_keys (KnowledgeService.add_keyword k kw)
             (fun ix => Retriever.kw_id (snd ix)))
    by apply service_add_keyword_key.
  rewrite (fold_keys (KnowledgeService.add_vector k vw)
             (fun ix => KnowledgeService.v_id (snd ix)))
    by apply service_add_vector_key.
  rewrite fold_left_app. cbn [List.map].
  rewrite <- !(map_map snd), !indexed_values. reflexivity.
Qed.

Lemma fold_invariant {A B} (P : B -> Prop) (step : B -> A -> B) l :
  (forall m x, P m -> P (step m x)) -> forall m, P m -> P (fold_left step l m).
Proof.
  intros Hstep. induction l as [|x l IH]; intros m Hm; cbn; [exact Hm|].
  apply IH, Hstep, Hm.
Qed.

Lemma service_scoreMap_ids k vw kw vs ks i e :
  (i, e) ∈ KnowledgeService.scoreMap_of k vw kw vs ks ->
  KnowledgeService.id (KnowledgeService.result e) = i.
Proof.
  revert i e. unfold KnowledgeService.scoreMap_of.
  apply (fold_invariant
           (fun m => forall i e, (i, e) ∈ m ->
                                 KnowledgeService.id (KnowledgeService.result e) = i)).
  - intros m [j x] Hm i e H. unfold KnowledgeService.add_keyword in H.
    destruct (amap_get _ m) as [existing|] eqn:E;
      apply amap_set_elem in H as [[= -> ->]|H]; try (now apply Hm); cbn.
    + apply Hm. now apply amap_get_elem.
    + reflexivity.
  - apply (fold_invariant
             (fun m => forall i e, (i, e) ∈ m ->
                                   KnowledgeService.id (KnowledgeService.result e) = i)).
    + intros m [j x] Hm i e H. apply amap_set_elem in H as [[= -> ->]|H]; [reflexivity|].
      now apply Hm.
    + intros i e H. inversion H.
Qed.

Lemma service_vector_pass k w l m i :
  let m' := fold_left (KnowledgeService.add_vector k w) l m in
  default (Num 0) (KnowledgeService.vectorScore <$> amap_get i m')
  = match last_index KnowledgeService.v_id i l with
    | Some j => js_mul (KnowledgeService.rrfScore k j) (Num w)
    | None => default (Num 0) (KnowledgeService.vectorScore <$> amap_get i m)
    end /\
  default (Num 0) (KnowledgeService.entry_keywordScore <$> amap_get i m')
  = match last_index KnowledgeService.v_id i l with
    | Some j => Num 0
    | None => default (Num 0) (KnowledgeService.entry_keywordScore <$> amap_get i m)
    end.
Proof.
  revert m. induction l as [|[j x] l IH]; intros m; [now split|].
  cbn [fold_left last_index]. specialize (IH (KnowledgeService.add_vector k w m (j, x))).
  cbn zeta in IH. destruct IH as [IHv IHk]. rewrite IHv, IHk.
  destruct (last_index KnowledgeService.v_id i l); [now split|].
  unfold KnowledgeService.add_vector. rewrite amap_get_set.
  destruct (decide (i = KnowledgeService.v_id x)); now split.
Qed.

Lemma service_keyword_pass k w l m i :
  let m' := fold_left (KnowledgeService.add_keyword k w) l m in
  default (Num 0) (KnowledgeService.vectorScore <$> amap_get i m')
  = default (Num 0) (KnowledgeService.vectorScore <$> amap_get i m) /\
  default (Num 0) (KnowledgeService.entry_keywordScore <$> amap_get i m')
  = match last_index Retriever.kw_id i l with
    | Some j => js_mul (KnowledgeService.rrfScore k j) (Num w)
    | None => default (Num 0) (KnowledgeService.entry_keywordScore <$> amap_get i m)
    end.
Proof.
  revert m. induction l as [|[j x] l IH]; intros m; [now split|].
  cbn [fold_left last_index]. specialize (IH (KnowledgeService.add_keyword k w m (j, x))).
  cbn zeta in IH. destruct IH as [IHv IHk]. rewrite IHv, IHk.
  assert (Hv : default (Num 0)
                 (KnowledgeService.vectorScore <$>
                    amap_get i (KnowledgeService.add_keyword k w m (j, x)))
               = default (Num 0) (KnowledgeService.vectorScore <$> amap_get i m)).
  { unfold KnowledgeService.add_keyword.
    destruct (amap_get (Retriever.kw_id x) m) as [existing|] eqn:E;
      rewrite amap_get_set; destruct (decide (i = Retriever.kw_id x)) as [->|_];
      try reflexivity; now rewrite E. }
  split; [exact Hv|].
  destruct (last_index Retriever.kw_id i l); [reflexivity|].
  unfold KnowledgeService.add_keyword.
  destruct (amap_get (Retriever.kw_id x) m) as [existing|];
    rewrite amap_get_set; destruct (decide (i = Retriever.kw_id x)); reflexivity.
Qed.

Lemma service_partial_score k weight rank :
  (0 <= k)%Q ->
  exists q,
    match (fun rank => (0 + rank - 1)%nat) <$> rank with
    | Some j => js_mul (KnowledgeService.rrfScore k j) (Num weight)
    | None => Num 0
    end = Num q /\
    (rank <> Some 0%nat -> q == contribution weight k rank)%Q.
Proof.
  intros Hk0. destruct rank as [n|]; cbn [fmap option_fmap option_map].
  - assert (Hn0 : forall j : nat, (0 <= inject_Z (Z.of_nat j))%Q)
      by (intros j; rewrite <- (Qle_bool_iff 0); unfold Qle_bool; cbn;
          apply Z.leb_le; lia).
    unfold KnowledgeService.rrfScore. cbn [js_add].
    rewrite js_div_num by (specialize (Hn0 (0 + n - 1)%nat); lra).
    cbn [js_mul contribution].
    eexists. split; [reflexivity|]. intros Hn.
    destruct n as [|n]; [congruence|].
    replace (0 + S n - 1)%nat with n by lia.
    replace (Z.of_nat (S n)) with (Z.of_nat n + 1) by lia.
    rewrite inject_Z_plus. change (inject_Z 1) with 1%Q.
    specialize (Hn0 n). set (a := inject_Z (Z.of_nat n)) in *.
    field. lra.
  - exists 0%Q. split; [reflexivity|]. intros _. reflexivity.
Qed.

Lemma service_fused_score k vw kw vs ks i e :
  (0 <= k)%Q ->
  NoDup (List.map KnowledgeService.v_id vs) -> NoDup (List.map Retriever.kw_id ks) ->
  (i, e) ∈ KnowledgeService.scoreMap_of k vw kw vs ks ->
  exists q,
    KnowledgeService.hybridScore (KnowledgeService.fused e) = Num q /\
    (q == contribution vw k (rank_in i (List.map KnowledgeService.v_id vs))
          + contribution kw k (rank_in i (List.map Retriever.kw_id ks)))%Q.
Proof.
  intros Hk0 Hvs Hks He.
  assert (Hget : amap_get i (KnowledgeService.scoreMap_of k vw kw vs ks) = Some e).
  { apply amap_elem_get; [|exact He].
    rewrite service_scoreMap_keys. apply js_unique_NoDup. }
  unfold KnowledgeService.scoreMap_of in Hget.
  destruct (service_keyword_pass k kw (Retriever.indexed ks)
              (fold_left (KnowledgeService.add_vector k vw) (Retriever.indexed vs) []) i)
    as [Hv Hkw].
  destruct (service_vector_pass k vw (Retriever.indexed vs) [] i) as [Hv1 Hk1].
  assert (Hk1' : default (Num 0)
                   (KnowledgeService.entry_keywordScore <$>
                      amap_get i (fold_left (KnowledgeService.add_vector k vw)
                                    (Retriever.indexed vs) [])) = Num 0).
  { rewrite Hk1.
    destruct (last_index KnowledgeService.v_id i (Retriever.indexed vs)); reflexivity. }
  rewrite Hget in Hv, Hkw. rewrite Hv1 in Hv. rewrite Hk1' in Hkw.
  cbn [amap_get fmap option_fmap option_map default] in Hv, Hkw.
  unfold id in Hv, Hkw.
  unfold Retriever.indexed in Hv, Hkw.
  rewrite last_index_rank in Hv by assumption.
  rewrite last_index_rank in Hkw by assumption.
  destruct (service_partial_score k vw
              (rank_in i (List.map KnowledgeService.v_id vs)) Hk0) as (qv & Hqv & Hcv).
  destruct (service_partial_score k kw
              (rank_in i (List.map Retriever.kw_id ks)) Hk0) as (qk & Hqk & Hck).
  rewrite Hqv in Hv. rewrite Hqk in Hkw.
  exists (qv + qk)%Q. split.
  - cbn [KnowledgeService.fused KnowledgeService.hybridScore]. now rewrite Hv, Hkw.
  - rewrite Hcv, Hck by apply rank_in_positive. reflexivity.
Qed.

(** X22.  The fusion of the knowledge service, with [k] (default 60) not
    negative and lists that rank each id once: the fused score of every
    result is the sum of [weight / (k + rank)] over the lists that rank it,
    with the weights 0.7 and 0.3 unless others are given. *)
Theorem X22_service_fused_score vs ks limit k vectorWeight keywordWeight :
  (0 <= default 60 k)%Q ->
  NoDup (List.map KnowledgeService.v_id vs) -> NoDup (List.map Retriever.kw_id ks) ->
  Forall
    (fun x =>
       exists q,
         KnowledgeService.hybridScore x = Num q /\
         (q == contribution (default (7 # 10) vectorWeight) (default 60 k)
                 (rank_in (KnowledgeService.id x) (List.map KnowledgeService.v_id vs))
               + contribution (default (3 # 10) keywordWeight) (default 60 k)
                   (rank_in (KnowledgeService.id x) (List.map Retriever.kw_id ks)))%Q)
    (KnowledgeService.mergeResultsWithRRF vs ks limit k vectorWeight keywordWeight).
Proof.
  intros Hk Hvs Hks. apply Forall_forall. intros x Hx.
  unfold KnowledgeService.mergeResultsWithRRF in Hx.
  apply js_slice0_sublist in Hx. rewrite js_sort_perm in Hx.
  apply list_elem_of_fmap in Hx as [[i e] [-> He]]. cbn [snd].
  pose proof (service_scoreMap_ids _ _ _ _ _ _ _ He) as Hid.
  destruct (service_fused_score _ _ _ _ _ _ _ Hk Hvs Hks He) as (q & Hq & Hsum).
  exists q. split; [exact Hq|].
  cbn [KnowledgeService.fused KnowledgeService.id]. rewrite Hid. exact Hsum.
Qed.

Lemma X22_service_fused_score_witness :
  let vs := [sample_service_vector 2 (9 # 10); sample_service_vector 1 (4 # 10)] in
  let ks := [sample_keyword 1 2; sample_keyword 3 1] in
  Forall
    (fun x =>
       exists q,
         KnowledgeService.hybridScore x = Num q /\
         (q == contribution (7 # 10) 60
                 (rank_in (KnowledgeService.id x) (List.map KnowledgeService.v_id vs))
               + contribution (3 # 10) 60
                   (rank_in (KnowledgeService.id x) (List.map Retriever.kw_id ks)))%Q)
    (KnowledgeService.mergeResultsWithRRF vs ks 5 None None None).
Proof.
  intros vs ks.
  apply (X22_service_fused_score vs ks 5 None None None).
  - cbn. lra.
  - apply (bool_decide_unpack _). vm_compute. reflexivity.
  - apply (bool_decide_unpack _). vm_compute. reflexivity.
Defined.

Lemma service_sort_key_number x : KnowledgeService.sort_key x <> NaN.
Proof.
  unfold KnowledgeService.sort_key, js_or.
  destruct (KnowledgeService.hybridScore x); cbn; try discriminate.
  destruct (Qeq_bool q 0); discriminate.
Qed.

Lemma service_by_hybridScore_order a b :
  may_precede KnowledgeService.by_hybridScore a b
  <-> key_le (KnowledgeService.sort_key b) (KnowledgeService.sort_key a) = true.
Proof.
  unfold may_precede, KnowledgeService.by_hybridScore.
  rewrite js_pos_sub by apply service_sort_key_number.
  destruct (key_le _ _); cbn; split; congruence.
Qed.

Lemma service_by_hybridScore_total a b :
  js_pos (KnowledgeService.by_hybridScore a b) = true ->
  may_precede KnowledgeService.by_hybridScore b a.
Proof.
  intros H. apply service_by_hybridScore_order.
  apply key_le_total; try apply service_sort_key_number.
  destruct (key_le (KnowledgeService.sort_key b) (KnowledgeService.sort_key a)) eqn:E;
    [|reflexivity].
  apply service_by_hybridScore_order in E. unfold may_precede in E. congruence.
Qed.

Lemma service_by_hybridScore_trans a b c :
  may_precede KnowledgeService.by_hybridScore a b ->
  may_precede KnowledgeService.by_hybridScore b c ->
  may_precede KnowledgeService.by_hybridScore a c.
Proof.
  rewrite !service_by_hybridScore_order. intros Hab Hbc.
  eapply key_le_trans; eassumption.
Qed.

(** X23.  The list the knowledge service's fusion returns: the first
    [limit] of the fused results in falling order of score, results with equal
    scores in the order in which their ids entered the score map; there is one
    result per id of the two input lists. *)
Theorem X23_service_fused_order vs ks limit k vectorWeight keywordWeight :
  let fused :=
    List.map (fun kv => KnowledgeService.fused (snd kv))
      (KnowledgeService.scoreMap_of (default 60%Q k) (default (7 # 10)%Q vectorWeight)
         (default (3 # 10)%Q keywordWeight) vs ks) in
  exists ordered,
    KnowledgeService.mergeResultsWithRRF vs ks limit k vectorWeight keywordWeight
    = js_slice0 ordered limit /\
    Permutation ordered fused /\
    StronglySorted
      (fun a b =>
         key_le (KnowledgeService.sort_key b) (KnowledgeService.sort_key a) = true)
      ordered /\
    (forall z,
       let tied_with_z x :=
         key_le (KnowledgeService.sort_key x) (KnowledgeService.sort_key z) &&
         key_le (KnowledgeService.sort_key z) (KnowledgeService.sort_key x) in
       List.filter tied_with_z ordered = List.filter tied_with_z fused) /\
    List.map KnowledgeService.id fused
    = js_unique (List.map KnowledgeService.v_id vs ++ List.map Retriever.kw_id ks).
Proof.
  intros fused. exists (js_sort KnowledgeService.by_hybridScore fused).
  split; [reflexivity|]. split; [apply js_sort_perm|]. split; [|split].
  - eapply StronglySorted_weaken;
      [|apply js_sort_sorted;
        [apply service_by_hybridScore_total|apply service_by_hybridScore_trans]].
    intros a b. apply service_by_hybridScore_order.
  - intros z tied_with_z. apply js_sort_stable. intros a b Ha Hb.
    apply andb_true_iff in Ha as [_ Ha]. apply andb_true_iff in Hb as [Hb _].
    apply service_by_hybridScore_order. eapply key_le_trans; eassumption.
  - subst fused. rewrite <- (service_scoreMap_keys (default 60%Q k)
                               (default (7 # 10)%Q vectorWeight)
                               (default (3 # 10)%Q keywordWeight)), map_map.
    apply map_ext_in. intros [i e] H. apply list_elem_of_In in H. cbn [snd fst].
    exact (service_scoreMap_ids _ _ _ _ _ _ _ H).
Qed.

(** [this.extractKeywords("")] is empty, so the quotient is a division by
    zero. *)
Lemma existing_keywordScore_value matchCount :
  KnowledgeService.existing_keywordScore matchCount
  = if 0 <? matchCount then PosInf
    else if matchCount =? 0 then Num 0 else NegInf.
Proof.
  unfold KnowledgeService.existing_keywordScore.
  change (KnowledgeService.extractKeywords []) with (@nil jsstring).
  destruct matchCount; reflexivity.
Qed.

Lemma service_keyword_pass_other k w l m i :
  i ∉ List.map (fun ix => Retriever.kw_id (snd ix)) l ->
  amap_get i (fold_left (KnowledgeService.add_keyword k w) l m) = amap_get i m.
Proof.
  revert m. induction l as [|[j x] l IH]; intros m Hi; [reflexivity|].
  cbn [List.map snd] in Hi. apply not_elem_of_cons in Hi as [Hne Hi].
  cbn [fold_left]. rewrite IH by exact Hi.
  unfold KnowledgeService.add_keyword.
  destruct (amap_get (Retriever.kw_id x) m); rewrite amap_get_set;
    now rewrite decide_False by exact Hne.
Qed.

Lemma service_keyword_pass_result k w l m j hit e :
  NoDup (List.map (fun ix => Retriever.kw_id (snd ix)) l) ->
  (j, hit) ∈ l ->
  amap_get (Retriever.kw_id hit) (fold_left (KnowledgeService.add_keyword k w) l m)
  = Some e ->
  KnowledgeService.keywordScore (KnowledgeService.result e)
  = if decide (Retriever.kw_id hit ∈ List.map fst m)
    then KnowledgeService.existing_keywordScore (Retriever.kw_matchCount hit)
    else Num (inject_Z (Retriever.kw_matchCount hit)).
Proof.
  revert m. induction l as [|[j' x] l IH]; intros m Hnd Hin He; [inversion Hin|].
  cbn [List.map snd] in Hnd. apply NoDup_cons in Hnd as [Hx Hnd].
  cbn [fold_left] in He. apply elem_of_cons in Hin as [[= -> ->]|Hin].
  - rewrite service_keyword_pass_other in He by exact Hx.
    unfold KnowledgeService.add_keyword in He.
    destruct (amap_get (Retriever.kw_id x) m) as [existing|] eqn:E;
      rewrite amap_get_set, decide_True in He by reflexivity; injection He as <-.
    + rewrite decide_True; [reflexivity|].
      apply list_elem_of_fmap. exists (Retriever.kw_id x, existing).
      split; [reflexivity|now apply amap_get_elem].
    + rewrite decide_False; [reflexivity|].
      intros Hk. apply list_elem_of_fmap in Hk as ([i0 e0] & Hi0 & Hm). cbn in Hi0.
      subst i0. clear -E Hm. induction m as [|[i1 e1] m IH]; [inversion Hm|].
      cbn in E. destruct (decide (Retriever.kw_id x = i1)); [discriminate|].
      apply elem_of_cons in Hm as [[= <- _]|Hm]; [congruence|now apply IH].
  - rewrite (IH _ Hnd Hin He).
    assert (Hne : Retriever.kw_id hit <> Retriever.kw_id x).
    { intros Heq. apply Hx. rewrite <- Heq. apply list_elem_of_fmap. now exists (j, hit). }
    rewrite service_add_keyword_key. cbn [snd].
    destruct (decide (Retriever.kw_id hit ∈ List.map fst m)) as [Hm|Hm].
    + rewrite decide_True; [reflexivity|]. apply js_set_add_elem. now left.
    + rewrite decide_False; [reflexivity|].
      intros H. apply js_set_add_elem in H as [H|H]; contradiction.
Qed.

(** X24.  The [keywordScore] field the knowledge service's fusion reports,
    for keyword hits with distinct ids and positive match counts: 0 for a
    result of the vector list only, the match count for a result of the
    keyword list only, and [Infinity] for a result of both lists (the match
    count is divided by the number of keywords of the empty string). *)
Theorem X24_service_keywordScore vs ks limit k vectorWeight keywordWeight :
  NoDup (List.map Retriever.kw_id ks) ->
  Forall (fun hit => 1 <= Retriever.kw_matchCount hit) ks ->
  Forall
    (fun x =>
       if decide (KnowledgeService.id x ∈ List.map Retriever.kw_id ks)
       then
         if decide (KnowledgeService.id x ∈ List.map KnowledgeService.v_id vs)
         then KnowledgeService.keywordScore x = PosInf
         else exists hit,
                hit ∈ ks /\ Retriever.kw_id hit = KnowledgeService.id x /\
                KnowledgeService.keywordScore x
                = Num (inject_Z (Retriever.kw_matchCount hit))
       else KnowledgeService.keywordScore x = Num 0)
    (KnowledgeService.mergeResultsWithRRF vs ks limit k vectorWeight keywordWeight).
Proof.
  intros Hks Hcount. apply Forall_forall. intros x Hx.
  unfold KnowledgeService.mergeResultsWithRRF in Hx.
  apply js_slice0_sublist in Hx. rewrite js_sort_perm in Hx.
  apply list_elem_of_fmap in Hx as [[i e] [-> He]]. cbn [snd].
  pose proof (service_scoreMap_ids _ _ _ _ _ _ _ He) as Hid.
  cbn [KnowledgeService.fused KnowledgeService.id KnowledgeService.keywordScore].
  rewrite Hid.
  assert (Hget : amap_get i (KnowledgeService.scoreMap_of (default 60%Q k)
                               (default (7 # 10)%Q vectorWeight)
                               (default (3 # 10)%Q keywordWeight) vs ks) = Some e).
  { apply amap_elem_get; [|exact He].
    rewrite service_scoreMap_keys. apply js_unique_NoDup. }
  unfold KnowledgeService.scoreMap_of in Hget.
  set (m := fold_left (KnowledgeService.add_vector (default 60%Q k)
                         (default (7 # 10)%Q vectorWeight)) (Retriever.indexed vs) [])
    in Hget.
  assert (Hkeys : forall z, z ∈ List.map fst m <-> z ∈ List.map KnowledgeService.v_id vs).
  { intros z. subst m.
    rewrite (fold_keys (KnowledgeService.add_vector (default 60%Q k)
                          (default (7 # 10)%Q vectorWeight))
               (fun ix => KnowledgeService.v_id (snd ix)))
      by apply service_add_vector_key.
    rewrite <- (map_map snd), indexed_values. apply js_unique_elem. }
  destruct (decide (i ∈ List.map Retriever.kw_id ks)) as [Hin|Hnin].
  - apply list_elem_of_fmap in Hin as (hit & -> & Hhit).
    assert (Hix : exists j, (j, hit) ∈ Retriever.indexed ks).
    { rewrite <- (indexed_values ks) in Hhit.
      apply list_elem_of_fmap in Hhit as ([j hit'] & -> & Hj). now exists j. }
    destruct Hix as [j Hj].
    assert (Hnd : NoDup (List.map (fun ix => Retriever.kw_id (snd ix))
                           (Retriever.indexed ks)))
      by (rewrite <- (map_map snd), indexed_values; exact Hks).
    rewrite (service_keyword_pass_result _ _ _ _ _ _ _ Hnd Hj Hget).
    rewrite Forall_forall in Hcount. specialize (Hcount _ Hhit).
    destruct (decide (Retriever.kw_id hit ∈ List.map fst m)) as [Hm|Hm].
    + rewrite decide_True by (now apply Hkeys).
      rewrite existing_keywordScore_value.
      destruct (Z.ltb_spec 0 (Retriever.kw_matchCount hit)); [reflexivity|lia].
    + rewrite decide_False by (intros H; apply Hm; now apply Hkeys).
      exists hit. auto.
  - rewrite service_keyword_pass_other in Hget
      by (rewrite <- (map_map snd), indexed_values; exact Hnin).
    apply amap_get_elem in Hget. clear He Hid Hnin Hkeys. revert i e Hget. subst m.
    apply (fold_invariant
             (fun m => forall i e, (i, e) ∈ m ->
                KnowledgeService.keywordScore (KnowledgeService.result e) = Num 0)).
    + intros m [j v] Hm i e H. apply amap_set_elem in H as [[= -> ->]|H]; [reflexivity|].
      now apply (Hm i).
    + intros i e H. inversion H.
Qed.

Lemma X24_service_keywordScore_witness :
  let vs := [sample_service_vector 2 (9 # 10); sample_service_vector 1 (4 # 10)] in
  let ks := [sample_keyword 1 2; sample_keyword 3 1] in
  Forall
    (fun x =>
       if decide (KnowledgeService.id x ∈ List.map Retriever.kw_id ks)
       then
         if decide (KnowledgeService.id x ∈ List.map KnowledgeService.v_id vs)
         then KnowledgeService.keywordScore x = PosInf
         else exists hit,
                hit ∈ ks /\ Retriever.kw_id hit = KnowledgeService.id x /\
                KnowledgeService.keywordScore x
                = Num (inject_Z (Retriever.kw_matchCount hit))
       else KnowledgeService.keywordScore x = Num 0)
    (KnowledgeService.mergeResultsWithRRF vs ks 5 None None None).
Proof.
  intros vs ks.
  apply (X24_service_keywordScore vs ks 5 None None None).
  - apply (bool_decide_unpack _). vm_compute. reflexivity.
  - repeat constructor; cbn; lia.
Defined.

(** The service of the sample: document 1 is found by both searches and is
    reported with [keywordScore = Infinity]. *)
Example service_keywordScore_run :
  List.map (fun x => (KnowledgeService.id x, KnowledgeService.keywordScore x))
    (KnowledgeService.mergeResultsWithRRF
       [sample_service_vector 2 (9 # 10); sample_service_vector 1 (4 # 10)]
       [sample_keyword 1 2; sample_keyword 3 1] 5 None None None)
  = [(1, PosInf); (2, Num 0); (3, Num 1)].
Proof. vm_compute. reflexivity. Qed.

(** The stop list of the knowledge service is the retriever's own list
    together with four pronouns. *)
Lemma service_stopWords t :
  t ∈ KnowledgeService.stopWords <-> t ∈ Retriever.stopWords \/ t ∈ pronouns.
Proof.
  assert (H1 : Forall (fun x => x ∈ Retriever.stopWords ++ pronouns)
                 KnowledgeService.stopWords)
    by (apply (bool_decide_unpack _); vm_compute; reflexivity).
  assert (H2 : Forall (fun x => x ∈ KnowledgeService.stopWords)
                 (Retriever.stopWords ++ pronouns))
    by (apply (bool_decide_unpack _); vm_compute; reflexivity).
  rewrite Forall_forall in H1, H2. rewrite <- elem_of_app. split; [apply H1|apply H2].
Qed.

Lemma stop_agree t :
  t ∉ pronouns ->
  bool_decide (t ∈ KnowledgeService.stopWords) = bool_decide (t ∈ Retriever.stopWords).
Proof.
  intros Ht. apply bool_decide_ext. rewrite service_stopWords. tauto.
Qed.

Lemma cjk_word_no_pronoun t : cjk_word t -> t ∉ pronouns.
Proof.
  intros [Hne Hall] Hin. unfold pronouns in Hin. cbn in Hin.
  repeat (apply elem_of_cons in Hin as [->|Hin];
          [apply Forall_cons in Hall as [Hc _]; discriminate Hc|]).
  inversion Hin.
Qed.

(** X25.  The knowledge service's keyword extraction and the retriever's
    own one return the same keywords for every query that has none of the
    words "their", "you", "he" and "she" (in any case): the two stop lists
    differ in these four words only. *)
Theorem X25_keyword_extractors_agree {S} (r : Retriever.HybridRetriever S) query :
  Retriever.tokenizerService r = None ->
  Forall (fun w => Tokenizer.toLowerCase w ∉ pronouns)
    (Tokenizer.match_all Tokenizer.isLatin query) ->
  KnowledgeService.extractKeywords query = Retriever.extractKeywords r query.
Proof.
  intros Hnone Hq. unfold KnowledgeService.extractKeywords, Retriever.extractKeywords.
  rewrite Hnone. f_equal. f_equal. f_equal.
  - apply filter_ext_in. intros t Ht. f_equal. f_equal. apply stop_agree.
    apply in_map_iff in Ht as (w & <- & Hw). rewrite Forall_forall in Hq.
    apply Hq. now apply list_elem_of_In.
  - rewrite !flat_map_concat_map. f_equal. apply map_ext_in. intros segment Hseg.
    apply list_elem_of_In in Hseg.
    pose proof (match_all_runs Tokenizer.isCJK query) as Hruns.
    rewrite Forall_forall in Hruns. destruct (Hruns _ Hseg) as [Hne Hall].
    f_equal.
    + apply filter_ext_in. intros t Ht. f_equal. apply stop_agree, cjk_word_no_pronoun.
      apply list_elem_of_In, ngrams_elem in Ht as (Hlen & _ & Hsub). split.
      * destruct t; [cbn in Hlen; lia|discriminate].
      * eapply Forall_impl; [exact Hsub|]. intros c Hc.
        rewrite Forall_forall in Hall. now apply Hall.
    + rewrite stop_agree; [reflexivity|]. now apply cjk_word_no_pronoun.
Qed.

Lemma X25_keyword_extractors_agree_witness :
  KnowledgeService.extractKeywords (u "How do I rank a Hybrid search")
  = Retriever.extractKeywords sample_retriever (u "How do I rank a Hybrid search").
Proof.
  apply (X25_keyword_extractors_agree sample_retriever (u "How do I rank a Hybrid search")).
  - reflexivity.
  - apply (bool_decide_unpack _). vm_compute. reflexivity.
Defined.

(** On a query with one of the four words the two differ. *)
Example keyword_extractors_differ :
  KnowledgeService.extractKeywords (u "thank you") = [u "thank"] /\
  Retriever.extractKeywords sample_retriever (u "thank you") = [u "thank"; u "you"].
Proof. vm_compute. split; reflexivity. Qed.

(* ===================================================================== *)
(** ** The rerank stage over the index service of the repository          *)
(* ===================================================================== *)

(** X26.  Reranking with the index service of this repository, read at
    clock [now]: for a tenant without an index the results and the cache are
    left as they are; otherwise the only change to the cache is the tenant's
    [lastAccessed], which becomes [now] when there are results to rerank.
    The entries of other tenants are never changed. *)
Theorem X26_rerank_over_index_service (c : BM25Index.Collaborators) (now : Z)
    (r : Retriever.HybridRetriever (gmap jsstring BM25Index.IndexEntry))
    (query : jsstring) (results : list Retriever.SearchResult)
    (cache : gmap jsstring BM25Index.IndexEntry) :
  Retriever.bm25IndexService r = Some (Retriever.bm25_service c now) ->
  let key := BM25Index.getIndexKey (Retriever.userId r) in
  let out := Retriever.rerankWithBM25 r query results cache in
  (cache !! key = None -> out = (results, cache)) /\
  (forall key', key' <> key -> snd out !! key' = cache !! key') /\
  (results <> [] ->
   BM25Index.lastAccessed <$> snd out !! key = (fun _ => now) <$> cache !! key) /\
  BM25Index.index <$> snd out !! key = BM25Index.index <$> cache !! key /\
  BM25Index.documentCount <$> snd out !! key = BM25Index.documentCount <$> cache !! key.
Proof.
  intros Hservice key out. subst out.
  unfold Retriever.rerankWithBM25, Retriever.rerank_try. rewrite Hservice.
  cbn [Retriever.hasIndex Retriever.getScoresForDocuments Retriever.bm25_service].
  unfold BM25Index.hasIndex. fold key.
  destruct results as [|x results]; [cbn [snd]; repeat split; congruence|].
  set (ids := List.map (fun x => Retriever.String_of_id (Retriever.id x)) (x :: results)).
  destruct (cache !! key) as [entry|] eqn:Hentry.
  - rewrite bool_decide_eq_true_2 by eauto.
    destruct (BM25Index.getScoresForDocuments c now (Retriever.userId r) query ids cache)
      as [scores cache'] eqn:Hscores.
    assert (Hcache : cache' = BM25Index.touch now key entry cache).
    { unfold BM25Index.getScoresForDocuments in Hscores. fold key in Hscores.
      rewrite Hentry in Hscores.
      destruct (Tokenizer.tokenize _ _ _); [now injection Hscores|].
      destruct (BM25Index.index_search _ _ _); now injection Hscores. }
    cbn [snd]. subst cache'. unfold BM25Index.touch.
    split; [discriminate|]. split; [|split; [|split]].
    + intros key' Hne. now rewrite lookup_insert_ne.
    + intros _. now rewrite lookup_insert_eq.
    + now rewrite lookup_insert_eq.
    + now rewrite lookup_insert_eq.
  - rewrite bool_decide_eq_false_2 by (intros [? H]; discriminate H).
    cbn [snd]. rewrite Hentry. repeat split; reflexivity.
Qed.

Lemma X26_rerank_over_index_service_witness :
  let cache :=
    BM25Index.buildIndex sample_collaborators 0 7
      [sample_document "1" "alpha"; sample_document "2" "beta"] BM25Index.no_options ∅ in
  let r := Retriever.new_HybridRetriever sample_pool sample_embeddings 7 (with_rerank 1000) in
  let key := BM25Index.getIndexKey 7 in
  let out := Retriever.rerankWithBM25 r (u "alpha") [sample_result 1 NaN] cache in
  (cache !! key = None -> out = ([sample_result 1 NaN], cache)) /\
  (forall key', key' <> key -> snd out !! key' = cache !! key') /\
  ([sample_result 1 NaN] <> [] ->
   BM25Index.lastAccessed <$> snd out !! key = (fun _ => 1000) <$> cache !! key) /\
  BM25Index.index <$> snd out !! key = BM25Index.index <$> cache !! key /\
  BM25Index.documentCount <$> snd out !! key = BM25Index.documentCount <$> cache !! key.
Proof.
  intros cache r.
  apply (X26_rerank_over_index_service sample_collaborators 1000 r (u "alpha")
           [sample_result 1 NaN] cache).
  reflexivity.
Defined.

(** X27.  A segmenter that is not loaded, or whose [cut] throws, is no
    error for the caller: [tokenize] answers as the fallback tokenizer does,
    with tokens of letters or of at most four CJK characters. *)
Theorem X27_tokenize_falls_back ts text options :
  Tokenizer.jiebaLoaded ts = false \/ (exists e, Tokenizer.jieba_cut ts text = Throw e) ->
  Tokenizer.tokenize ts text options
  = Tokenizer.tokenize Tokenizer.fallback_service text options /\
  Forall (fun t => lower_word t \/ (cjk_word t /\ (length t <= 4)%nat))
    (Tokenizer.tokenize ts text options).
Proof.
  intros Hts.
  assert (Heq : Tokenizer.tokenize ts text options
                = Tokenizer.tokenize Tokenizer.fallback_service text options).
  { unfold Tokenizer.tokenize. destruct (_ || _); [reflexivity|].
    cbn [Tokenizer.jiebaLoaded Tokenizer.fallback_service].
    destruct Hts as [->|[e He]]; [reflexivity|].
    destruct (Tokenizer.jiebaLoaded ts); [|reflexivity].
    unfold Tokenizer.jiebaTokenize. now rewrite He. }
  split; [exact Heq|]. rewrite Heq. unfold Tokenizer.tokenize.
  destruct (_ || _); [constructor|].
  cbn [Tokenizer.jiebaLoaded Tokenizer.fallback_service].
  apply Forall_forall. intros t Ht. apply postProcess_elem in Ht as [Ht _].
  pose proof (fallbackTokenize_tokens text) as H. rewrite Forall_forall in H. now apply H.
Qed.

Lemma X27_tokenize_falls_back_witness :
  let ts :=
    {| Tokenizer.jiebaLoaded := true;
       Tokenizer.jieba_cut := fun _ => Throw (u "cut failed") |} in
  Tokenizer.tokenize ts (u "Hybrid search, 100%") BM25Index.TOKENIZER_CONFIG
  = Tokenizer.tokenize Tokenizer.fallback_service (u "Hybrid search, 100%")
      BM25Index.TOKENIZER_CONFIG /\
  Forall (fun t => lower_word t \/ (cjk_word t /\ (length t <= 4)%nat))
    (Tokenizer.tokenize ts (u "Hybrid search, 100%") BM25Index.TOKENIZER_CONFIG).
Proof.
  intros ts.
  apply (X27_tokenize_falls_back ts (u "Hybrid search, 100%") BM25Index.TOKENIZER_CONFIG).
  right. exists (u "cut failed"). reflexivity.
Defined.

(* ===================================================================== *)
(** ** The fields of a fused result                                       *)
(* ===================================================================== *)

Lemma find_indexed {A} (P : A -> bool) (l : list A) n :
  snd <$> List.find (fun ix => P (snd ix)) (combine (seq n (length l)) l) = List.find P l.
Proof.
  revert n. induction l as [|x l IH]; intros n; [reflexivity|].
  cbn [length seq combine List.find snd]. destruct (P x); [reflexivity|apply IH].
Qed.

Lemma find_absent {A} (P : A -> bool) (l : list A) :
  (forall x, x ∈ l -> P x = false) -> List.find P l = None.
Proof.
  induction l as [|x l IH]; intros H; [reflexivity|]. cbn.
  rewrite (H x) by left. apply IH. intros y Hy. apply H. now right.
Qed.

(** The vector pass over hits with distinct ids: the entry of an id holds
    the record made of its hit. *)
Lemma vector_pass_result {S} (r : Retriever.HybridRetriever S) l m i :
  NoDup (List.map (fun ix => Retriever.v_id (snd ix)) l) ->
  Retriever.result <$> amap_get i (fold_left (Retriever.add_vector r) l m)
  = match List.find (fun ix => bool_decide (Retriever.v_id (snd ix) = i)) l with
    | Some ix => fused_fields (Some (snd ix)) None
    | None => Retriever.result <$> amap_get i m
    end.
Proof.
  revert m. induction l as [|[j v] l IH]; intros m Hnd; [reflexivity|].
  cbn [List.map snd] in Hnd. apply NoDup_cons in Hnd as [Hv Hnd].
  cbn [fold_left List.find snd]. rewrite IH by exact Hnd.
  unfold Retriever.add_vector. rewrite amap_get_set.
  destruct (decide (i = Retriever.v_id v)) as [->|Hne].
  - rewrite bool_decide_eq_true_2 by reflexivity.
    rewrite find_absent; [reflexivity|].
    intros ix Hix. apply bool_decide_eq_false_2. intros Heq. apply Hv.
    rewrite <- Heq. apply list_elem_of_fmap. now exists ix.
  - rewrite bool_decide_eq_false_2 by congruence. reflexivity.
Qed.

(** The keyword pass over hits with distinct ids: the entry of an id takes
    the file fields and the match count of its hit, and keeps content and
    similarity when the map held the id before the pass. *)
Lemma keyword_pass_result {S} (r : Retriever.HybridRetriever S) l m i :
  NoDup (List.map (fun ix => Retriever.kw_id (snd ix)) l) ->
  Retriever.result <$> amap_get i (fold_left (Retriever.add_keyword r) l m)
  = match List.find (fun ix => bool_decide (Retriever.kw_id (snd ix) = i)) l with
    | Some ix =>
        match Retriever.result <$> amap_get i m with
        | Some x =>
            Some {| Retriever.id := Retriever.id x;
                    Retriever.fileName := Retriever.kw_fileName (snd ix);
                    Retriever.content := Retriever.content x;
                    Retriever.preview := Retriever.kw_preview (snd ix);
                    Retriever.size := Retriever.kw_size (snd ix);
                    Retriever.type := Retriever.kw_type (snd ix);
                    Retriever.similarity := Retriever.similarity x;
                    Retriever.keywordScore := Retriever.kw_matchCount (snd ix);
                    Retriever.hybridScore := Retriever.hybridScore x |}
        | None => fused_fields None (Some (snd ix))
        end
    | None => Retriever.result <$> amap_get i m
    end.
Proof.
  revert m. induction l as [|[j x] l IH]; intros m Hnd; [reflexivity|].
  cbn [List.map snd] in Hnd. apply NoDup_cons in Hnd as [Hx Hnd].
  cbn [fold_left List.find snd]. rewrite IH by exact Hnd.
  destruct (decide (Retriever.kw_id x = i)) as [<-|Hne].
  - rewrite bool_decide_eq_true_2 by reflexivity.
    rewrite find_absent.
    + unfold Retriever.add_keyword.
      destruct (amap_get (Retriever.kw_id x) m) as [existing|];
        rewrite amap_get_set, decide_True by reflexivity; reflexivity.
    + intros ix Hix. apply bool_decide_eq_false_2. intros Heq. apply Hx.
      rewrite <- Heq. apply list_elem_of_fmap. now exists ix.
  - rewrite bool_decide_eq_false_2 by exact Hne.
    assert (Hget : amap_get i (Retriever.add_keyword r m (j, x)) = amap_get i m).
    { unfold Retriever.add_keyword.
      destruct (amap_get (Retriever.kw_id x) m); rewrite amap_get_set;
        now rewrite decide_False by congruence. }
    now rewrite Hget.
Qed.

(** X28.  What a fused result of the retriever carries besides its score,
    when each list ranks an id once: content and similarity of its vector hit
    (of the keyword hit, and similarity 0, without a vector hit); file name,
    preview, size, type and match count of its keyword hit; and an empty file
    name, preview and type, size 0 and [keywordScore] 0 for a result that the
    vector search alone found. *)
Theorem X28_fused_fields {S} (r : Retriever.HybridRetriever S) vs ks :
  NoDup (List.map Retriever.v_id vs) -> NoDup (List.map Retriever.kw_id ks) ->
  Forall
    (fun x =>
       Some (without_score x)
       = fused_fields
           (List.find (fun v => bool_decide (Retriever.v_id v = Retriever.id x)) vs)
           (List.find (fun hit => bool_decide (Retriever.kw_id hit = Retriever.id x)) ks))
    (Retriever.mergeResultsWithRRF r vs ks).
Proof.
  intros Hvs Hks. apply Forall_forall. intros x Hx.
  unfold Retriever.mergeResultsWithRRF in Hx.
  apply js_slice0_sublist in Hx. rewrite js_sort_perm in Hx.
  apply list_elem_of_fmap in Hx as [[i e] [-> He]]. cbn [snd].
  pose proof (scoreMap_ids r vs ks i e He) as Hid.
  assert (Hget : amap_get i (Retriever.scoreMap_of r vs ks) = Some e).
  { apply amap_elem_get; [|exact He]. rewrite scoreMap_keys. apply js_unique_NoDup. }
  assert (Hres : Retriever.result <$> amap_get i (Retriever.scoreMap_of r vs ks)
                 = Some (Retriever.result e)) by now rewrite Hget.
  unfold Retriever.scoreMap_of in Hres.
  rewrite keyword_pass_result in Hres
    by (rewrite <- (map_map snd), indexed_values; exact Hks).
  rewrite vector_pass_result in Hres
    by (rewrite <- (map_map snd), indexed_values; exact Hvs).
  cbn [amap_get fmap option_fmap option_map] in Hres.
  unfold Retriever.indexed in Hres.
  pose proof (find_indexed (fun v => bool_decide (Retriever.v_id v = i)) vs 0) as Hfv.
  pose proof (find_indexed (fun hit => bool_decide (Retriever.kw_id hit = i)) ks 0) as Hfk.
  cbn [Retriever.fused Retriever.with_hybridScore Retriever.id]. rewrite Hid.
  rewrite <- Hfv, <- Hfk.
  assert (Hscore : forall y, Retriever.hybridScore y = Num 0 ->
                             without_score (Retriever.with_hybridScore y
                               (js_add (Retriever.vectorScore e)
                                  (Retriever.entry_keywordScore e))) = y)
    by (intros [] Hy; cbn in Hy; unfold without_score, Retriever.with_hybridScore;
        cbn; now rewrite Hy).
  destruct (List.find _ (combine (seq 0 (length ks)) ks)) as [[jk hit]|];
    destruct (List.find _ (combine (seq 0 (length vs)) vs)) as [[jv v]|];
    cbn [fmap option_fmap option_map snd fused_fields] in Hres |- *;
    try discriminate Hres; injection Hres as Hres;
    f_equal; unfold Retriever.fused;
    (rewrite Hscore; [symmetry; exact Hres|now rewrite <- Hres]).
Qed.

Lemma X28_fused_fields_witness :
  let vs := [sample_vector 2 (9 # 10); sample_vector 1 (4 # 10)] in
  let ks := [sample_keyword 1 2; sample_keyword 3 1] in
  Forall
    (fun x =>
       Some (without_score x)
       = fused_fields
           (List.find (fun v => bool_decide (Retriever.v_id v = Retriever.id x)) vs)
           (List.find (fun hit => bool_decide (Retriever.kw_id hit = Retriever.id x)) ks))
    (Retriever.mergeResultsWithRRF sample_retriever vs ks).
Proof.
  intros vs ks. apply (X28_fused_fields sample_retriever vs ks).
  - apply (bool_decide_unpack _). vm_compute. reflexivity.
  - apply (bool_decide_unpack _). vm_compute. reflexivity.
Defined.
